(** * Uptime monitor: check dispatch, incident lifecycle and metrics

    A shallow embedding of [src/uptime_monitor.py] (class [UptimeMonitor]).

    Modelling conventions.
    - The three SQLite tables the engine touches are lists of rows, in
      insertion order.  [SELECT ... WHERE id = ?] followed by [fetchone]
      is the first matching row, [UPDATE ... WHERE id = ?] rewrites every
      matching row, [INSERT] appends, and an [INSERT] that repeats a
      primary key raises [IntegrityError].
    - A [datetime] is the number of microseconds since the epoch, a [Z].
      The code stores [isoformat()] text and lets SQLite compare it as
      text; for four-digit years that order is the order of the instants.
    - [REAL] columns and Python floats are exact rationals ([Q]); rounding
      is not modelled.
    - Everything a check reads from outside the database (the clock, the
      uuid generator, the network) is a field of a [World] record handed
      to the call.
    - A method that can raise returns a [result]; when [run_check] raises,
      [conn.commit()] has not run and the database is as before. *)

From Stdlib Require Import List Ascii String ZArith QArith Qminmax Bool Lia Lqa.
From Stdlib Require Import Sorted Permutation.
Import ListNotations.

Local Open Scope string_scope.
Local Open Scope Z_scope.
Local Open Scope list_scope.

(** Python's [==] on [str]. *)
Infix "=s?" := String.eqb (at level 70, no associativity).

(** ** Data model *)

Definition datetime := Z.

Module Monitor.
Record t := mk {
  id : string;
  name : string;
  type : string;               (* http, tcp, ping, dns, push *)
  target : string;
  interval_s : Z;
  timeout_s : Z;
  retries : Z;
  status : string;             (* unknown, up, down, paused, maintenance *)
  up_since : option datetime;
  last_check : option datetime;
  response_time_ms : option Q;
  cert_expiry_days : option Z;
  tags : list string
}.
End Monitor.

Module Heartbeat.
Record t := mk {
  monitor_id : string;
  timestamp : datetime;
  status : string;
  response_time_ms : option Q
}.
End Heartbeat.

Module Incident.
Record t := mk {
  id : string;
  monitor_id : string;
  started_at : datetime;
  resolved_at : option datetime;
  duration_s : option Z;
  cause : string;
  notified : bool
}.
End Incident.

Record Db := mkDb {
  monitors : list Monitor.t;
  heartbeats : list Heartbeat.t;
  incidents : list Incident.t
}.

Definition empty_db : Db := mkDb [] [] [].

(** ** Exceptions and results *)

Inductive exn := IntegrityError | ZeroDivisionError | OverflowError.

Inductive result (A : Type) :=
| Ok (a : A)
| Raise (e : exn).
Arguments Ok {A} a.
Arguments Raise {A} e.

(** ** The outside world of one call *)

Inductive HttpIO :=
| HttpResponse (status_code : Z) (elapsed_ms : Q)
| HttpException (msg : string).

Inductive CertIO :=
| CertDays (days_left : Z)
| CertException (msg : string).

Inductive TcpIO :=
| TcpConnected (elapsed_ms : Q)
| TcpException (msg : string).

(** What [re.search(r'time=([\d.]+)\s*ms', result.stdout.decode())] and
    [float] make of the output of [ping]: no match, a time, or an
    exception raised on the way (the text matched is not a number, the
    output does not decode). *)
Inductive PingTime :=
| NoMatch
| TimeMs (t : Q)
| ParseException (msg : string).

Inductive PingIO :=
| PingExit (returncode : Z) (time : PingTime)
| PingException (msg : string).

Record World := mkWorld {
  now : datetime;                        (* datetime.now() *)
  uuid8 : string;                        (* str(uuid.uuid4())[:8] *)
  http_get : string -> Z -> HttpIO;       (* requests.get(target, timeout) *)
  get_cert_expiry : string -> CertIO;    (* self._get_cert_expiry(url) *)
  tcp_connect : string -> Z -> TcpIO;     (* the try block of check_tcp *)
  ping : string -> PingIO                (* subprocess.run(['ping', ...]) *)
}.

(** ** Table access *)

Fixpoint find_monitor (l : list Monitor.t) (monitor_id : string)
  : option Monitor.t :=
  match l with
  | [] => None
  | m :: l' =>
      if Monitor.id m =s? monitor_id then Some m else find_monitor l' monitor_id
  end.

Fixpoint find_incident (l : list Incident.t) (incident_id : string)
  : option Incident.t :=
  match l with
  | [] => None
  | i :: l' =>
      if Incident.id i =s? incident_id then Some i
      else find_incident l' incident_id
  end.

Definition incident_exists (s : Db) (incident_id : string) : bool :=
  existsb (fun i => Incident.id i =s? incident_id) (incidents s).

Definition monitor_exists (s : Db) (monitor_id : string) : bool :=
  existsb (fun m => Monitor.id m =s? monitor_id) (monitors s).

(** ** The dictionaries returned by the checks

    [status] is present in every dictionary the checks build; the other
    keys are read with [dict.get], so an absent key and a key bound to
    [None] are the same [None] here. *)

Record CheckResult := mkResult {
  res_status : string;
  res_reason : option string;
  res_response_time_ms : option Q;
  res_status_code : option Z;
  res_cert_expiry_days : option Z
}.

Definition not_found : CheckResult :=
  mkResult "error" (Some "monitor not found") None None None.

Definition down_because (msg : string) : CheckResult :=
  mkResult "down" (Some msg) None None None.

Definition unknown_result : CheckResult :=
  mkResult "unknown" None None None None.

(** ** add_monitor

    The [INSERT] names [id], [name], [type], [target], [interval_s],
    [timeout_s], [tags] and [created_at]; the other columns take their
    defaults.  [created_at] is not a field of [Monitor] and no method
    reads it.

    A Python [int] bound to a parameter of a statement must fit a
    64-bit signed integer; [sqlite3] raises [OverflowError] otherwise,
    when it binds the parameters, before the statement runs. *)

Definition fits_int64 (z : Z) : bool :=
  (- 2 ^ 63 <=? z) && (z <? 2 ^ 63).

Definition add_monitor (s : Db) (w : World) (name monitor_type target : string)
    (interval_s timeout_s : Z) (tags : list string) : result (Db * string) :=
  let monitor_id := uuid8 w in
  if negb (fits_int64 interval_s && fits_int64 timeout_s) then
    Raise OverflowError
  else if monitor_exists s monitor_id then Raise IntegrityError
  else
    let row := Monitor.mk monitor_id name monitor_type target
                 interval_s timeout_s 0 "unknown" None None None None tags in
    Ok (mkDb (monitors s ++ [row]) (heartbeats s) (incidents s), monitor_id).

(** ** The probes *)

Definition check_http (s : Db) (w : World) (monitor_id : string)
  : CheckResult :=
  match find_monitor (monitors s) monitor_id with
  | None => not_found
  | Some row =>
      let target := Monitor.target row in
      let timeout := Monitor.timeout_s row in
      match http_get w target timeout with
      | HttpResponse status_code response_time =>
          let status := if status_code <? 400 then "up" else "down" in
          let cert_expiry :=
            if String.prefix "https://" target then
              match get_cert_expiry w target with
              | CertDays d => Some d
              | CertException _ => None
              end
            else None in
          mkResult status None (Some response_time) (Some status_code)
                   cert_expiry
      | HttpException e => down_because e
      end
  end.

Definition check_tcp (s : Db) (w : World) (monitor_id : string)
  : CheckResult :=
  match find_monitor (monitors s) monitor_id with
  | None => not_found
  | Some row =>
      match tcp_connect w (Monitor.target row) (Monitor.timeout_s row) with
      | TcpConnected response_time =>
          mkResult "up" None (Some response_time) None None
      | TcpException e => down_because e
      end
  end.

Definition check_ping (s : Db) (w : World) (monitor_id : string)
  : CheckResult :=
  match find_monitor (monitors s) monitor_id with
  | None => not_found
  | Some row =>
      match ping w (Monitor.target row) with
      | PingExit returncode time =>
          if returncode =? 0 then
            match time with
            | TimeMs t => mkResult "up" None (Some t) None None
            | NoMatch => mkResult "up" None (Some 0%Q) None None
            | ParseException e => down_because e
            end
          else mkResult "down" None None None None
      | PingException e => down_because e
      end
  end.

Definition check_cert (s : Db) (w : World) (monitor_id : string)
  : CheckResult :=
  match find_monitor (monitors s) monitor_id with
  | None => not_found
  | Some row =>
      match get_cert_expiry w (Monitor.target row) with
      | CertDays d => mkResult "up" None None None (Some d)
      | CertException e => mkResult "error" (Some e) None None None
      end
  end.

(** ** run_check *)

(** The [if]/[elif] chain at the head of [run_check]. *)
Definition dispatch (s : Db) (w : World) (monitor_type monitor_id : string)
  : CheckResult :=
  if monitor_type =s? "http" then check_http s w monitor_id
  else if monitor_type =s? "tcp" then check_tcp s w monitor_id
  else if monitor_type =s? "ping" then check_ping s w monitor_id
  else if monitor_type =s? "dns" then check_ping s w monitor_id
  else unknown_result.

(** [UPDATE monitors SET status, last_check, response_time_ms,
    cert_expiry_days, up_since WHERE id = ?] on one row. *)
Definition set_checked (status : string) (last_check : datetime)
    (response_time : option Q) (cert_expiry : option Z)
    (up_since : option datetime) (m : Monitor.t) : Monitor.t :=
  Monitor.mk (Monitor.id m) (Monitor.name m) (Monitor.type m)
    (Monitor.target m) (Monitor.interval_s m) (Monitor.timeout_s m)
    (Monitor.retries m) status up_since (Some last_check)
    response_time cert_expiry (Monitor.tags m).

Definition update_monitor (monitor_id : string) (f : Monitor.t -> Monitor.t)
    (l : list Monitor.t) : list Monitor.t :=
  map (fun m => if Monitor.id m =s? monitor_id then f m else m) l.

Definition run_check (s : Db) (w : World) (monitor_id : string)
  : result (Db * bool) :=
  match find_monitor (monitors s) monitor_id with
  | None => Ok (s, false)
  | Some row =>
      let monitor_type := Monitor.type row in
      let old_status := Monitor.status row in
      let result := dispatch s w monitor_type monitor_id in
      let new_status := res_status result in
      let response_time := res_response_time_ms result in
      let cert_expiry := res_cert_expiry_days result in
      let up_since :=
        if new_status =s? "up" then
          match Monitor.up_since row with
          | Some t => Some t
          | None => Some (now w)
          end
        else None in
      let monitors' :=
        update_monitor monitor_id
          (set_checked new_status (now w) response_time cert_expiry up_since)
          (monitors s) in
      let heartbeats' :=
        heartbeats s
          ++ [Heartbeat.mk monitor_id (now w) new_status response_time] in
      if (old_status =s? "up") && (new_status =s? "down") then
        let incident_id := uuid8 w in
        if incident_exists s incident_id then Raise IntegrityError
        else
          let cause :=
            match res_reason result with
            | Some r => r
            | None => "Monitor down"
            end in
          Ok (mkDb monitors' heartbeats'
                (incidents s
                   ++ [Incident.mk incident_id monitor_id (now w)
                         None None cause false]),
              new_status =s? "up")
      else Ok (mkDb monitors' heartbeats' (incidents s), new_status =s? "up")
  end.

(** ** run_all_checks *)

(** A [Dict[str, bool]], in order of first insertion. *)
Definition dict := list (string * bool).

Fixpoint dict_set (d : dict) (k : string) (v : bool) : dict :=
  match d with
  | [] => [(k, v)]
  | (k', v') :: d' =>
      if k' =s? k then (k', v) :: d' else (k', v') :: dict_set d' k v
  end.

Definition keys (d : dict) : list string := map fst d.

(** [SELECT id FROM monitors WHERE status != 'paused'] *)
Definition select_not_paused (s : Db) : list string :=
  map Monitor.id
    (filter (fun m => negb (Monitor.status m =s? "paused")) (monitors s)).

(** The [for] loop.  The [n]-th call of [run_check] in a cycle sees the
    world [env n].  When a call raises, the loop is left and the calls
    before it stay committed. *)
Fixpoint run_checks_loop (env : nat -> World) (n : nat) (ids : list string)
    (s : Db) (results : dict) : Db * result dict :=
  match ids with
  | [] => (s, Ok results)
  | monitor_id :: rest =>
      match run_check s (env n) monitor_id with
      | Ok (s', up) =>
          run_checks_loop env (S n) rest s' (dict_set results monitor_id up)
      | Raise e => (s, Raise e)
      end
  end.

Definition run_all_checks (s : Db) (env : nat -> World) : Db * result dict :=
  run_checks_loop env 0%nat (select_not_paused s) s [].

(** ** Metrics *)

Definition us_per_second : Z := 1000000.

(** [datetime.min] and [datetime.max], in microseconds since the epoch:
    0001-01-01T00:00:00 and 9999-12-31T23:59:59.999999. *)
Definition datetime_min : Z := -62135596800 * us_per_second.
Definition datetime_max : Z := 253402300800 * us_per_second - 1.

(** [dt - timedelta(seconds=secs)]; the result must be a [datetime]. *)
Definition datetime_sub_seconds (dt : datetime) (secs : Z) : option datetime :=
  let r := dt - secs * us_per_second in
  if (datetime_min <=? r) && (r <=? datetime_max) then Some r else None.

(** The non-NULL values of a column. *)
Fixpoint non_null {A : Type} (l : list (option A)) : list A :=
  match l with
  | [] => []
  | Some v :: l' => v :: non_null l'
  | None :: l' => non_null l'
  end.

(** SQL [SUM]: NULL when there is no non-NULL value. *)
Definition sql_sum (l : list (option Z)) : option Z :=
  match non_null l with
  | [] => None
  | vs => Some (fold_right Z.add 0 vs)
  end.

Definition Qsum (l : list Q) : Q := fold_right Qplus 0%Q l.

(** SQL [AVG]: NULL when there is no non-NULL value. *)
Definition sql_avg (l : list (option Q)) : option Q :=
  match non_null l with
  | [] => None
  | vs => Some (Qsum vs / inject_Z (Z.of_nat (List.length vs)))%Q
  end.

Definition get_uptime_percent (s : Db) (w : World) (monitor_id : string)
    (days : Z) : result Q :=
  match datetime_sub_seconds (now w) (days * 86400) with
  | None => Raise OverflowError
  | Some cutoff =>
      let rows :=
        filter (fun i => (Incident.monitor_id i =s? monitor_id)
                         && (cutoff <? Incident.started_at i))
               (incidents s) in
      let downtime :=
        match sql_sum (map Incident.duration_s rows) with
        | Some d => d
        | None => 0
        end in
      let total_seconds := days * 86400 in
      if total_seconds =? 0 then Raise ZeroDivisionError
      else
        Ok (Qmax 0 ((1 - inject_Z downtime / inject_Z total_seconds) * 100))%Q
  end.

Definition get_response_time_avg (s : Db) (w : World) (monitor_id : string)
    (hours : Z) : result Q :=
  match datetime_sub_seconds (now w) (hours * 3600) with
  | None => Raise OverflowError
  | Some cutoff =>
      let rows :=
        filter (fun h => (Heartbeat.monitor_id h =s? monitor_id)
                         && (cutoff <? Heartbeat.timestamp h)
                         && (match Heartbeat.response_time_ms h with
                             | Some _ => true
                             | None => false
                             end))
               (heartbeats s) in
      match sql_avg (map Heartbeat.response_time_ms rows) with
      | Some avg => Ok (if Qeq_bool avg 0 then 0%Q else avg)
      | None => Ok 0%Q
      end
  end.

(** ** Incidents *)

Definition is_open (i : Incident.t) : bool :=
  match Incident.resolved_at i with
  | None => true
  | Some _ => false
  end.

(** [if monitor_id:] is false for [None] and for the empty string; then
    the query has no [WHERE monitor_id = ?]. *)
Definition get_incidents (s : Db) (monitor_id : option string)
    (open_only : bool) : list Incident.t :=
  let by_monitor :=
    match monitor_id with
    | Some m =>
        if m =s? EmptyString then incidents s
        else filter (fun i => Incident.monitor_id i =s? m) (incidents s)
    | None => incidents s
    end in
  if open_only then filter is_open by_monitor else by_monitor.

(** [UPDATE incidents SET resolved_at = ?, duration_s = ? WHERE id = ?]
    on one row. *)
Definition set_resolved (resolved_at : datetime) (duration : Z)
    (i : Incident.t) : Incident.t :=
  Incident.mk (Incident.id i) (Incident.monitor_id i) (Incident.started_at i)
    (Some resolved_at) (Some duration) (Incident.cause i)
    (Incident.notified i).

Definition update_incident (incident_id : string)
    (f : Incident.t -> Incident.t) (l : list Incident.t) : list Incident.t :=
  map (fun i => if Incident.id i =s? incident_id then f i else i) l.

(** [int((now - started).total_seconds())]: whole seconds, rounded
    towards zero. *)
Definition elapsed_seconds (started now : datetime) : Z :=
  Z.quot (now - started) us_per_second.

Definition resolve_incident (s : Db) (w : World) (incident_id : string)
  : Db * bool :=
  match find_incident (incidents s) incident_id with
  | None => (s, false)
  | Some row =>
      let started := Incident.started_at row in
      let duration := elapsed_seconds started (now w) in
      (mkDb (monitors s) (heartbeats s)
            (update_incident incident_id (set_resolved (now w) duration)
               (incidents s)),
       true)
  end.

(** ** Notions used by the statements *)

(** The incidents of a monitor with [resolved_at] NULL. *)
Definition open_incidents (s : Db) (monitor_id : string) : list Incident.t :=
  filter (fun i => (Incident.monitor_id i =s? monitor_id) && is_open i)
         (incidents s).

(** What the dispatch of [run_check] returns for the row [m]: the chain
    run on a table that holds this row only. *)
Definition probe (m : Monitor.t) (w : World) : CheckResult :=
  dispatch (mkDb [m] [] []) w (Monitor.type m) (Monitor.id m).

Definition outcome (m : Monitor.t) (w : World) : string :=
  res_status (probe m w).

(** [run_check] inserts an incident on this row in this world. *)
Definition opens (m : Monitor.t) (w : World) : bool :=
  (Monitor.status m =s? "up") && (outcome m w =s? "down").

Definition opened_incident (m : Monitor.t) (w : World) : Incident.t :=
  Incident.mk (uuid8 w) (Monitor.id m) (now w) None None
    (match res_reason (probe m w) with
     | Some r => r
     | None => "Monitor down"
     end)
    false.

(** The [up_since] that [run_check] writes. *)
Definition next_up_since (m : Monitor.t) (w : World) : option datetime :=
  if outcome m w =s? "up" then
    match Monitor.up_since m with
    | Some t => Some t
    | None => Some (now w)
    end
  else None.

(** The [UPDATE] of [run_check], from the row [m] it read. *)
Definition write_check (m : Monitor.t) (w : World) : Monitor.t -> Monitor.t :=
  set_checked (outcome m w) (now w) (res_response_time_ms (probe m w))
    (res_cert_expiry_days (probe m w)) (next_up_since m w).

(** The row after [run_check]. *)
Definition checked (m : Monitor.t) (w : World) : Monitor.t :=
  write_check m w m.

(** The database after a [run_check] that read the row [m] and did not
    raise. *)
Definition after_check (s : Db) (w : World) (m : Monitor.t) : Db :=
  mkDb (update_monitor (Monitor.id m) (write_check m w) (monitors s))
       (heartbeats s
          ++ [Heartbeat.mk (Monitor.id m) (now w) (outcome m w)
                (res_response_time_ms (probe m w))])
       (incidents s ++ if opens m w then [opened_incident m w] else []).

(** Replaying a sequence of worlds through [run_check] for one monitor. *)
Fixpoint replay (s : Db) (monitor_id : string) (ws : list World)
  : result Db :=
  match ws with
  | [] => Ok s
  | w :: ws' =>
      match run_check s w monitor_id with
      | Ok (s', _) => replay s' monitor_id ws'
      | Raise e => Raise e
      end
  end.

(** The number of steps from [up] to [down] along a trace of statuses. *)
Fixpoint up_down_steps (prev : string) (trace : list string) : nat :=
  match trace with
  | [] => 0%nat
  | st :: trace' =>
      ((if (prev =s? "up") && (st =s? "down") then 1 else 0)
       + up_down_steps st trace')%nat
  end.

(** The data-model invariant on a monitor row. *)
Definition up_since_consistent (m : Monitor.t) : Prop :=
  Monitor.up_since m <> None <-> Monitor.status m = "up".

(** *** The metrics as the specification words them

    These two definitions follow the text of the specification; the
    theorems on the metrics compare them with [get_uptime_percent] and
    [get_response_time_avg]. *)

(** An open incident counts for nothing, a resolved one for its
    [duration]. *)
Definition spec_down_seconds (i : Incident.t) : Z :=
  match Incident.resolved_at i with
  | None => 0
  | Some _ =>
      match Incident.duration_s i with
      | Some d => d
      | None => 0
      end
  end.

(** The sum of the durations of the monitor's incidents whose
    [started_at] falls within the window that opens at [cutoff]. *)
Fixpoint spec_total_down_seconds (monitor_id : string) (cutoff : datetime)
    (l : list Incident.t) : Z :=
  match l with
  | [] => 0
  | i :: l' =>
      (if (Incident.monitor_id i =s? monitor_id)
          && (cutoff <? Incident.started_at i)
       then spec_down_seconds i else 0)
      + spec_total_down_seconds monitor_id cutoff l'
  end.

(** [max(0, (1 - downtime / (D * 86400)) * 100)] *)
Definition spec_uptime_percent (downtime days : Z) : Q :=
  Qmax 0 ((1 - inject_Z downtime / inject_Z (days * 86400)) * 100)%Q.

(** The non-null response times of the monitor's heartbeats whose
    timestamp falls within the window that opens at [cutoff]. *)
Definition spec_window_response_times (monitor_id : string)
    (cutoff : datetime) (l : list Heartbeat.t) : list Q :=
  non_null
    (map Heartbeat.response_time_ms
       (filter (fun h => (Heartbeat.monitor_id h =s? monitor_id)
                         && (cutoff <? Heartbeat.timestamp h)) l)).

Definition spec_mean (l : list Q) : Q :=
  (Qsum l / inject_Z (Z.of_nat (List.length l)))%Q.

(** [duration_s] is set only on incidents that are resolved: the rows
    that [run_check] inserts have both columns NULL and
    [resolve_incident] sets both. *)
Definition durations_follow_resolution (l : list Incident.t) : bool :=
  forallb (fun i =>
             match Incident.resolved_at i, Incident.duration_s i with
             | None, Some _ => false
             | _, _ => true
             end) l.

(** The uuids a run will draw are pairwise different and none is the id
    of an incident already in the table. *)
Fixpoint distinct (l : list string) : bool :=
  match l with
  | [] => true
  | a :: l' => negb (existsb (String.eqb a) l') && distinct l'
  end.

Definition fresh_supply (s : Db) (uuids : list string) : bool :=
  distinct uuids && forallb (fun u => negb (incident_exists s u)) uuids.

(** The databases the engine builds by itself, from the empty one. *)
Inductive reachable : Db -> Prop :=
| reach_empty : reachable empty_db
| reach_add_monitor s w name monitor_type target interval_s timeout_s tags
    s' monitor_id :
    reachable s ->
    add_monitor s w name monitor_type target interval_s timeout_s tags
    = Ok (s', monitor_id) ->
    reachable s'
| reach_run_check s w monitor_id s' up :
    reachable s ->
    run_check s w monitor_id = Ok (s', up) ->
    reachable s'
| reach_resolve_incident s w incident_id s' found :
    reachable s ->
    resolve_incident s w incident_id = (s', found) ->
    reachable s'.

(** Two worlds that differ at most in what reading a certificate
    gives. *)
Definition same_but_certificate (w1 w2 : World) : Prop :=
  now w1 = now w2 /\ uuid8 w1 = uuid8 w2 /\
  (forall target timeout, http_get w1 target timeout
                          = http_get w2 target timeout) /\
  (forall target timeout, tcp_connect w1 target timeout
                          = tcp_connect w2 target timeout) /\
  (forall target, ping w1 target = ping w2 target).

(** [results[k]], when the key is there. *)
Fixpoint dict_get (d : dict) (k : string) : option bool :=
  match d with
  | [] => None
  | (k', v) :: d' => if k' =s? k then Some v else dict_get d' k
  end.

(** ** get_heartbeat_history *)

(** One dictionary of the list [get_heartbeat_history] returns. *)
Module History.
Record t := mk {
  timestamp : datetime;
  status : string;
  response_time_ms : option Q
}.
End History.

(** [ORDER BY timestamp DESC], as an insertion sort.  SQL leaves the
    order of rows with equal timestamps open; here a row goes before
    the rows with the same timestamp that are already placed. *)
Fixpoint insert_desc (h : Heartbeat.t) (l : list Heartbeat.t)
  : list Heartbeat.t :=
  match l with
  | [] => [h]
  | a :: l' =>
      if Heartbeat.timestamp a <=? Heartbeat.timestamp h then h :: l
      else a :: insert_desc h l'
  end.

Definition order_by_timestamp_desc (l : list Heartbeat.t)
  : list Heartbeat.t :=
  fold_right insert_desc [] l.

(** [LIMIT ?]: SQLite takes a negative limit as no limit. *)
Definition sql_limit {A : Type} (limit : Z) (l : list A) : list A :=
  if limit <? 0 then l else firstn (Z.to_nat limit) l.

Definition history_point (h : Heartbeat.t) : History.t :=
  History.mk (Heartbeat.timestamp h) (Heartbeat.status h)
    (Heartbeat.response_time_ms h).

Definition monitor_heartbeats (s : Db) (monitor_id : string)
  : list Heartbeat.t :=
  filter (fun h => Heartbeat.monitor_id h =s? monitor_id) (heartbeats s).

(** [limit] is bound to the [LIMIT ?] of the query: one that does not
    fit a 64-bit signed integer raises [OverflowError]. *)
Definition get_heartbeat_history (s : Db) (monitor_id : string) (limit : Z)
  : result (list History.t) :=
  if fits_int64 limit then
    let rows :=
      sql_limit limit
        (order_by_timestamp_desc (monitor_heartbeats s monitor_id)) in
    Ok (map history_point (rev rows))
  else Raise OverflowError.

(** Newest first. *)
Definition newer_or_equal (a b : Heartbeat.t) : Prop :=
  Heartbeat.timestamp b <= Heartbeat.timestamp a.

(** The statuses the engine itself writes. *)
Definition engine_status (st : string) : Prop :=
  st = "unknown" \/ st = "up" \/ st = "down".

(** An incident row as the engine leaves it: never notified, and with a
    duration exactly when it is resolved. *)
Definition engine_incident (i : Incident.t) : Prop :=
  Incident.notified i = false /\
  (Incident.resolved_at i = None <-> Incident.duration_s i = None).

(** ** Sample data

    A database as [add_monitor] and a few checks leave it, and worlds in
    which the HTTP probe answers as given. *)

Definition t0 : datetime := 1700000000 * us_per_second.

Definition world_http (t : datetime) (u : string) (r : HttpIO) : World :=
  mkWorld t u (fun _ _ => r) (fun _ => CertException "handshake timed out")
    (fun _ _ => TcpException "connection refused")
    (fun _ => PingException "ping: not found").

Definition answers_200 : HttpIO := HttpResponse 200 (50 # 1).
Definition times_out : HttpIO := HttpException "timeout".

Definition site (status : string) (up_since : option datetime) : Monitor.t :=
  Monitor.mk "m1" "site" "http" "http://example.org" 60 10 0 status up_since
    None None None [].

Definition db_of (m : Monitor.t) : Db := mkDb [m] [] [].

(** The clock of a call that draws no uuid. *)
Definition clock (t : datetime) : World := world_http t "99999999" times_out.

Definition outage : Incident.t :=
  Incident.mk "a1b2c3d4" "m1" (t0 + 60 * us_per_second) None None "timeout"
    false.

(** The sample monitor, down since a minute after [t0], its incident
    open. *)
Definition db_outage : Db := mkDb [site "down" None] [] [outage].

(** A certificate monitor and a DNS monitor, and a world in which the
    certificate of the first has thirty days left and [ping] cannot be
    run. *)
Definition cert_monitor : Monitor.t :=
  Monitor.mk "c1" "tls" "cert" "https://example.org" 60 10 0 "unknown" None
    None None None [].

Definition dns_monitor : Monitor.t :=
  Monitor.mk "d1" "name" "dns" "example.org" 60 10 0 "unknown" None
    None None None [].

Definition db_probes : Db := mkDb [cert_monitor; dns_monitor] [] [].

Definition world_cert : World :=
  mkWorld t0 "00000001" (fun _ _ => HttpException "unreachable")
    (fun _ => CertDays 30) (fun _ _ => TcpException "connection refused")
    (fun _ => PingException "ping: not found").

(** Three monitors: one paused, one in maintenance, one up. *)
Definition db_mixed : Db :=
  mkDb [Monitor.mk "p1" "paused site" "http" "http://p.example" 60 10 0
          "paused" None None None None [];
        Monitor.mk "x1" "serviced site" "http" "http://x.example" 60 10 0
          "maintenance" None None None None [];
        Monitor.mk "u1" "live site" "http" "http://u.example" 60 10 0
          "up" (Some t0) (Some t0) (Some (50 # 1)) None []]
       [] [].

(** The [n]-th call of a cycle draws the uuid ["#" * n] and sees the
    HTTP probe answer 200. *)
Fixpoint tally (n : nat) : string :=
  match n with
  | O => EmptyString
  | S k => String "#"%char (tally k)
  end.

Definition env_200 (n : nat) : World :=
  world_http (t0 + Z.of_nat n) (tally (S n)) answers_200.

(** The sample monitor with one resolved outage of two minutes and one
    open outage, and heartbeats with and without a response time. *)
Definition db_history : Db :=
  mkDb [site "down" None]
       [Heartbeat.mk "m1" (t0 + 10 * us_per_second) "up" (Some (40 # 1));
        Heartbeat.mk "m1" (t0 + 70 * us_per_second) "down" None;
        Heartbeat.mk "m1" (t0 + 190 * us_per_second) "up" (Some (60 # 1));
        Heartbeat.mk "m1" (t0 + 250 * us_per_second) "down" None]
       [Incident.mk "00000001" "m1" (t0 + 70 * us_per_second)
          (Some (t0 + 190 * us_per_second)) (Some 120) "timeout" false;
        Incident.mk "00000002" "m1" (t0 + 250 * us_per_second) None None
          "timeout" false].

Definition world_later : World :=
  world_http (t0 + 3600 * us_per_second) "00000003" answers_200.

(** An HTTPS monitor that is up, and two worlds in which its URL
    answers 200: in one the certificate has twelve days left, in the
    other the handshake fails. *)
Definition secure_site : Monitor.t :=
  Monitor.mk "s1" "shop" "http" "https://shop.example" 60 10 0 "up"
    (Some t0) (Some t0) (Some (50 # 1)) (Some 13) [].

Definition world_cert_ok : World :=
  mkWorld (t0 + 60 * us_per_second) "00000001" (fun _ _ => answers_200)
    (fun _ => CertDays 12) (fun _ _ => TcpException "connection refused")
    (fun _ => PingException "ping: not found").

Definition world_cert_fails : World :=
  mkWorld (t0 + 60 * us_per_second) "00000001" (fun _ _ => answers_200)
    (fun _ => CertException "handshake timed out")
    (fun _ _ => TcpException "connection refused")
    (fun _ => PingException "ping: not found").

(** A world whose uuid generator hands out ["0a0b0c0d"]. *)
Definition world_new_uuid : World :=
  world_http (t0 + 7200 * us_per_second) "0a0b0c0d" answers_200.

(** The life of the sample monitor: added, checked up, checked down,
    and its incident resolved by hand. *)
Definition world_first_up : World := world_http t0 "00000001" answers_200.

Definition world_then_down : World :=
  world_http (t0 + 60 * us_per_second) "00000002" times_out.

Definition db_added : Db := db_of (site "unknown" None).

Definition db_checked_up : Db :=
  after_check db_added world_first_up (site "unknown" None).

Definition db_checked_down : Db :=
  after_check db_checked_up world_then_down
    (checked (site "unknown" None) world_first_up).

Definition db_resolved : Db :=
  fst (resolve_incident db_checked_down (clock (t0 + 300 * us_per_second))
         "00000002").

(** ** Basic facts about the tables *)

Section Tables.

Local Arguments String.eqb : simpl never.

Lemma find_monitor_id l monitor_id m :
  find_monitor l monitor_id = Some m -> Monitor.id m = monitor_id.
Proof.
  induction l as [|a l IH]; simpl; [discriminate|].
  destruct (Monitor.id a =s? monitor_id) eqn:E.
  - intros [= <-]. now apply String.eqb_eq.
  - exact IH.
Qed.

Lemma find_monitor_update l monitor_id f :
  (forall m, Monitor.id (f m) = Monitor.id m) ->
  find_monitor (update_monitor monitor_id f l) monitor_id
  = option_map f (find_monitor l monitor_id).
Proof.
  intros Hf. induction l as [|a l IH]; simpl; [reflexivity|].
  destruct (Monitor.id a =s? monitor_id) eqn:E.
  - now rewrite Hf, E.
  - now rewrite E.
Qed.

Lemma find_incident_In l incident_id i :
  find_incident l incident_id = Some i ->
  In i l /\ Incident.id i = incident_id.
Proof.
  induction l as [|a l IH]; simpl; [discriminate|].
  destruct (Incident.id a =s? incident_id) eqn:E.
  - intros [= <-]. split; [now left | now apply String.eqb_eq].
  - intros H. destruct (IH H). split; [now right | assumption].
Qed.

Lemma find_incident_update l incident_id f :
  (forall i, Incident.id (f i) = Incident.id i) ->
  find_incident (update_incident incident_id f l) incident_id
  = option_map f (find_incident l incident_id).
Proof.
  intros Hf. induction l as [|a l IH]; simpl; [reflexivity|].
  destruct (Incident.id a =s? incident_id) eqn:E.
  - now rewrite Hf, E.
  - now rewrite E.
Qed.

Lemma find_incident_update_other l incident_id other f :
  (forall i, Incident.id (f i) = Incident.id i) ->
  other <> incident_id ->
  find_incident (update_incident incident_id f l) other
  = find_incident l other.
Proof.
  intros Hf Hne. induction l as [|a l IH]; simpl; [reflexivity|].
  destruct (Incident.id a =s? incident_id) eqn:E.
  - rewrite Hf. destruct (Incident.id a =s? other) eqn:E'; [|exact IH].
    apply String.eqb_eq in E, E'. congruence.
  - now rewrite IH.
Qed.

(** The sample monitor is the row [add_monitor] inserts when the uuid
    generator hands out ["m1"]. *)
Lemma add_monitor_sample :
  add_monitor empty_db (world_http t0 "m1" answers_200) "site" "http"
    "http://example.org" 60 10 []
  = Ok (db_of (site "unknown" None), "m1").
Proof. reflexivity. Qed.

End Tables.

(** ** One step of [run_check] *)

Section RunCheck.

Local Arguments String.eqb : simpl never.

Lemma dispatch_probe s w monitor_id m :
  find_monitor (monitors s) monitor_id = Some m ->
  dispatch s w (Monitor.type m) monitor_id = probe m w.
Proof.
  intros H. pose proof (find_monitor_id _ _ _ H) as Hid. subst monitor_id.
  unfold probe, dispatch, check_http, check_tcp, check_ping. simpl.
  rewrite String.eqb_refl, H. reflexivity.
Qed.

Lemma probe_set_checked st lc rt ce us m w :
  probe (set_checked st lc rt ce us m) w = probe m w.
Proof.
  unfold probe, dispatch, check_http, check_tcp, check_ping. simpl.
  rewrite !String.eqb_refl. reflexivity.
Qed.

Lemma probe_checked m w w' : probe (checked m w) w' = probe m w'.
Proof. apply probe_set_checked. Qed.

Lemma outcome_checked m w w' : outcome (checked m w) w' = outcome m w'.
Proof. unfold outcome. now rewrite probe_checked. Qed.

(** [run_check] on a monitor that exists, in closed form. *)
Lemma run_check_found s w monitor_id m :
  find_monitor (monitors s) monitor_id = Some m ->
  run_check s w monitor_id
  = if opens m w && incident_exists s (uuid8 w) then Raise IntegrityError
    else Ok (after_check s w m, outcome m w =s? "up").
Proof.
  intros H. pose proof (find_monitor_id _ _ _ H) as Hid. subst monitor_id.
  unfold run_check. rewrite H, (dispatch_probe _ _ _ _ H).
  unfold after_check, opens, outcome, write_check, next_up_since, outcome,
    opened_incident.
  destruct ((Monitor.status m =s? "up") && (res_status (probe m w) =s? "down"));
    simpl.
  - destruct (incident_exists s (uuid8 w)); reflexivity.
  - now rewrite app_nil_r.
Qed.

Lemma run_check_missing s w monitor_id :
  find_monitor (monitors s) monitor_id = None ->
  run_check s w monitor_id = Ok (s, false).
Proof. intros H. unfold run_check. now rewrite H. Qed.

Lemma find_after_check s w m :
  find_monitor (monitors s) (Monitor.id m) = Some m ->
  find_monitor (monitors (after_check s w m)) (Monitor.id m)
  = Some (checked m w).
Proof.
  intros H. unfold after_check. simpl.
  rewrite find_monitor_update by reflexivity. now rewrite H.
Qed.

Lemma status_checked m w : Monitor.status (checked m w) = outcome m w.
Proof. reflexivity. Qed.

Lemma up_since_checked m w :
  Monitor.up_since (checked m w) = next_up_since m w.
Proof. reflexivity. Qed.

(** A fresh uuid, or no incident to insert: the call returns. *)
Lemma run_check_returns s w monitor_id m :
  find_monitor (monitors s) monitor_id = Some m ->
  incident_exists s (uuid8 w) = false ->
  run_check s w monitor_id = Ok (after_check s w m, outcome m w =s? "up").
Proof.
  intros H Hf. rewrite (run_check_found _ _ _ _ H), Hf.
  now rewrite andb_false_r.
Qed.

Lemma run_check_returns_quiet s w monitor_id m :
  find_monitor (monitors s) monitor_id = Some m ->
  opens m w = false ->
  run_check s w monitor_id = Ok (after_check s w m, outcome m w =s? "up").
Proof.
  intros H Hq. now rewrite (run_check_found _ _ _ _ H), Hq.
Qed.

End RunCheck.

(** ** Incident opening *)

Section Opening.

Local Arguments String.eqb : simpl never.

Lemma opens_checked_down m w w' :
  outcome m w = "down" -> opens (checked m w) w' = false.
Proof.
  intros H. unfold opens. now rewrite status_checked, H.
Qed.

Lemma incidents_after_check s w m :
  incidents (after_check s w m)
  = incidents s ++ (if opens m w then [opened_incident m w] else []).
Proof. reflexivity. Qed.

End Opening.

(** C3.  One call of [run_check] on an existing monitor appends an
    incident exactly when the persisted status was [up] and the check
    classifies [down], and touches no incident otherwise, in particular
    when the persisted status was already [down].  Hence [up -> down]
    followed by a second [down] leaves exactly one new incident. *)
Theorem run_check_opens_one_incident_per_outage :
  forall s w1 w2 monitor_id m,
    find_monitor (monitors s) monitor_id = Some m ->
    incident_exists s (uuid8 w1) = false ->
    exists s1,
      run_check s w1 monitor_id = Ok (s1, outcome m w1 =s? "up") /\
      incidents s1
      = incidents s
        ++ (if (Monitor.status m =s? "up") && (outcome m w1 =s? "down")
            then [opened_incident m w1] else []) /\
      (Monitor.status m = "down" -> incidents s1 = incidents s) /\
      (Monitor.status m = "up" -> outcome m w1 = "down" ->
       outcome m w2 = "down" ->
       exists s2,
         run_check s1 w2 monitor_id = Ok (s2, false) /\
         incidents s1 = incidents s ++ [opened_incident m w1] /\
         incidents s2 = incidents s1).
Proof.
  intros s w1 w2 monitor_id m Hfind Hfresh.
  pose proof (find_monitor_id _ _ _ Hfind) as Hid. subst monitor_id.
  exists (after_check s w1 m).
  split; [now apply run_check_returns|].
  split; [reflexivity|].
  split.
  - intros Hdown. rewrite incidents_after_check. unfold opens.
    rewrite Hdown. simpl. apply app_nil_r.
  - intros Hup Hd1 Hd2.
    exists (after_check (after_check s w1 m) w2 (checked m w1)).
    pose proof (find_after_check s w1 m Hfind) as Hfind1.
    assert (Hq : opens (checked m w1) w2 = false)
      by now apply opens_checked_down.
    split; [|split].
    + rewrite (run_check_returns_quiet _ _ _ _ Hfind1 Hq).
      now rewrite outcome_checked, Hd2.
    + rewrite incidents_after_check. unfold opens. now rewrite Hup, Hd1.
    + rewrite (incidents_after_check (after_check s w1 m)), Hq.
      apply app_nil_r.
Qed.

Lemma run_check_opens_one_incident_per_outage_witness :
  exists s1,
    run_check (db_of (site "up" (Some t0)))
      (world_http (t0 + 60 * us_per_second) "a1b2c3d4" times_out) "m1"
    = Ok (s1, false) /\
    exists s2,
      run_check s1
        (world_http (t0 + 120 * us_per_second) "55667788" times_out) "m1"
      = Ok (s2, false) /\
      List.length (incidents s1) = 1%nat /\ incidents s2 = incidents s1.
Proof.
  destruct (run_check_opens_one_incident_per_outage
              (db_of (site "up" (Some t0)))
              (world_http (t0 + 60 * us_per_second) "a1b2c3d4" times_out)
              (world_http (t0 + 120 * us_per_second) "55667788" times_out)
              "m1" (site "up" (Some t0)) eq_refl eq_refl)
    as (s1 & Hrun & _ & _ & Hscenario).
  exists s1. split; [exact Hrun|].
  destruct (Hscenario eq_refl eq_refl eq_refl) as (s2 & Hrun2 & Hinc1 & Hinc2).
  exists s2. split; [exact Hrun2|]. split; [|exact Hinc2].
  rewrite Hinc1. reflexivity.
Defined.

(** ** The [up_since] invariant *)

Section UpSince.

Local Arguments String.eqb : simpl never.

(** Whatever the rows were, a row that [run_check] writes has
    [up_since] set iff its status is [up]. *)
Lemma write_check_consistent m w x : up_since_consistent (write_check m w x).
Proof.
  unfold up_since_consistent, write_check. simpl. unfold next_up_since.
  destruct (outcome m w =s? "up") eqn:E.
  - apply String.eqb_eq in E. split; [auto|].
    intros _. destruct (Monitor.up_since m); discriminate.
  - apply String.eqb_neq in E. split; [now intros [] | contradiction].
Qed.

Lemma checked_consistent m w : up_since_consistent (checked m w).
Proof. apply write_check_consistent. Qed.

Lemma next_up_since_entering m w :
  outcome m w = "up" -> Monitor.up_since m = None ->
  next_up_since m w = Some (now w).
Proof.
  intros Hup Hnone. unfold next_up_since. now rewrite Hup, Hnone.
Qed.

Lemma next_up_since_staying m w :
  outcome m w = "up" -> Monitor.up_since m <> None ->
  next_up_since m w = Monitor.up_since m.
Proof.
  intros Hup Hsome. unfold next_up_since. rewrite Hup. simpl.
  destruct (Monitor.up_since m); [reflexivity | contradiction].
Qed.

Lemma next_up_since_leaving m w :
  outcome m w <> "up" -> next_up_since m w = None.
Proof.
  intros Hne. unfold next_up_since.
  apply String.eqb_neq in Hne. now rewrite Hne.
Qed.

End UpSince.

(** C4.  After [run_check] the monitor's [up_since] is non-null iff its
    status is [up].  Starting from a row that satisfies the same
    invariant, [up_since] becomes the current time on a step into [up]
    from another status, is kept when the status was already [up], and
    is null when the new status is not [up]. *)
Theorem run_check_up_since_iff_up :
  forall s w monitor_id m,
    find_monitor (monitors s) monitor_id = Some m ->
    incident_exists s (uuid8 w) = false ->
    up_since_consistent m ->
    exists s' m',
      run_check s w monitor_id = Ok (s', outcome m w =s? "up") /\
      find_monitor (monitors s') monitor_id = Some m' /\
      Monitor.status m' = outcome m w /\
      (Monitor.up_since m' <> None <-> Monitor.status m' = "up") /\
      (Monitor.status m' = "up" -> Monitor.status m <> "up" ->
       Monitor.up_since m' = Some (now w)) /\
      (Monitor.status m' = "up" -> Monitor.status m = "up" ->
       Monitor.up_since m' = Monitor.up_since m) /\
      (Monitor.status m' <> "up" -> Monitor.up_since m' = None).
Proof.
  intros s w monitor_id m Hfind Hfresh [Hset Hup].
  pose proof (find_monitor_id _ _ _ Hfind) as Hid. subst monitor_id.
  exists (after_check s w m), (checked m w).
  split; [now apply run_check_returns|].
  split; [now apply find_after_check|].
  split; [reflexivity|].
  split; [apply checked_consistent|].
  rewrite status_checked, up_since_checked.
  repeat split.
  - intros Hnew Hold. apply next_up_since_entering; [assumption|].
    destruct (Monitor.up_since m) eqn:E; [|reflexivity].
    exfalso. apply Hold, Hset. discriminate.
  - intros Hnew Hold. apply next_up_since_staying; auto.
  - apply next_up_since_leaving.
Qed.

Lemma run_check_up_since_iff_up_witness :
  find_monitor (monitors (db_of (site "unknown" None))) "m1"
  = Some (site "unknown" None) /\
  incident_exists (db_of (site "unknown" None)) "a1b2c3d4" = false /\
  up_since_consistent (site "unknown" None) /\
  exists s' m',
    run_check (db_of (site "unknown" None))
      (world_http t0 "a1b2c3d4" answers_200) "m1" = Ok (s', true) /\
    find_monitor (monitors s') "m1" = Some m' /\
    Monitor.status m' = "up" /\ Monitor.up_since m' = Some t0.
Proof.
  assert (Hinv : up_since_consistent (site "unknown" None))
    by (split; [intros H; now elim H | discriminate]).
  split; [reflexivity|]. split; [reflexivity|]. split; [exact Hinv|].
  destruct (run_check_up_since_iff_up (db_of (site "unknown" None))
              (world_http t0 "a1b2c3d4" answers_200) "m1"
              (site "unknown" None) eq_refl eq_refl Hinv)
    as (s' & m' & Hrun & Hfind & Hst & _ & Henter & _ & _).
  exists s', m'. split; [exact Hrun|]. split; [exact Hfind|].
  split; [exact Hst|].
  apply Henter; [exact Hst | discriminate].
Defined.

(** ** Lookups that miss *)

(** C9, as stated, fails for [run_check]: for an id that is not in the
    table it returns the bare [False] that it also returns for a monitor
    that exists and is down, so its caller is not told that the monitor
    was not found. *)
Lemma run_check_not_found_is_bare_false :
  find_monitor (monitors (db_of (site "up" (Some t0)))) "ffffffff" = None /\
  find_monitor (monitors (db_of (site "up" (Some t0)))) "m1"
  = Some (site "up" (Some t0)) /\
  run_check (db_of (site "up" (Some t0)))
    (world_http (t0 + 60 * us_per_second) "a1b2c3d4" times_out) "ffffffff"
  = Ok (db_of (site "up" (Some t0)), false) /\
  (exists s',
     run_check (db_of (site "up" (Some t0)))
       (world_http (t0 + 60 * us_per_second) "a1b2c3d4" times_out) "m1"
     = Ok (s', false) /\
     option_map Monitor.status (find_monitor (monitors s') "m1")
     = Some "down") /\
  ~ (forall s1 s2 up1 up2,
       run_check (db_of (site "up" (Some t0)))
         (world_http (t0 + 60 * us_per_second) "a1b2c3d4" times_out)
         "ffffffff" = Ok (s1, up1) ->
       run_check (db_of (site "up" (Some t0)))
         (world_http (t0 + 60 * us_per_second) "a1b2c3d4" times_out)
         "m1" = Ok (s2, up2) ->
       up1 <> up2).
Proof.
  split; [reflexivity|]. split; [reflexivity|]. split; [reflexivity|].
  split; [eexists; split; reflexivity|].
  intros H. eapply H; reflexivity.
Qed.

(** C9, amended.  For a monitor id that is not in the table, the four
    probes return the dictionary
    [{"status": "error", "reason": "monitor not found"}] and
    [run_check] returns [False]; none of them raises, and the database
    that [run_check] leaves is the one it was given (the probes only
    read).  The [False] of [run_check] is no not-found result of its
    own: every check of an existing monitor that does not classify [up]
    returns [False] too. *)
Theorem checks_on_missing_monitor :
  forall s w monitor_id,
    find_monitor (monitors s) monitor_id = None ->
    check_http s w monitor_id = not_found /\
    check_tcp s w monitor_id = not_found /\
    check_ping s w monitor_id = not_found /\
    check_cert s w monitor_id = not_found /\
    run_check s w monitor_id = Ok (s, false) /\
    (forall other m,
       find_monitor (monitors s) other = Some m ->
       outcome m w <> "up" ->
       incident_exists s (uuid8 w) = false ->
       exists s', run_check s w other = Ok (s', false)).
Proof.
  intros s w monitor_id H.
  unfold check_http, check_tcp, check_ping, check_cert.
  rewrite H, (run_check_missing _ _ _ H).
  repeat (split; [reflexivity|]).
  intros other m Hfind Hout Hfresh.
  exists (after_check s w m).
  rewrite (run_check_returns _ _ _ _ Hfind Hfresh).
  apply String.eqb_neq in Hout. now rewrite Hout.
Qed.

Lemma checks_on_missing_monitor_witness :
  find_monitor (monitors (db_of (site "up" (Some t0)))) "ffffffff" = None /\
  check_http (db_of (site "up" (Some t0)))
    (world_http t0 "a1b2c3d4" times_out) "ffffffff" = not_found /\
  run_check (db_of (site "up" (Some t0)))
    (world_http t0 "a1b2c3d4" times_out) "ffffffff"
  = Ok (db_of (site "up" (Some t0)), false) /\
  exists s',
    run_check (db_of (site "up" (Some t0)))
      (world_http t0 "a1b2c3d4" times_out) "m1" = Ok (s', false).
Proof.
  split; [reflexivity|].
  destruct (checks_on_missing_monitor (db_of (site "up" (Some t0)))
              (world_http t0 "a1b2c3d4" times_out) "ffffffff" eq_refl)
    as (Hhttp & _ & _ & _ & Hrun & Hdown).
  split; [exact Hhttp|]. split; [exact Hrun|].
  apply (Hdown "m1" (site "up" (Some t0)));
    [reflexivity | discriminate | reflexivity].
Defined.

(** ** Resolving incidents *)

Section Resolve.

Local Arguments String.eqb : simpl never.

(** [resolve_incident] on an incident that exists, in closed form. *)
Lemma resolve_incident_found s w incident_id i :
  find_incident (incidents s) incident_id = Some i ->
  resolve_incident s w incident_id
  = (mkDb (monitors s) (heartbeats s)
       (update_incident incident_id
          (set_resolved (now w)
             (elapsed_seconds (Incident.started_at i) (now w)))
          (incidents s)),
     true).
Proof. intros H. unfold resolve_incident. now rewrite H. Qed.

Lemma elapsed_seconds_bounds started t :
  started <= t ->
  0 <= elapsed_seconds started t /\
  elapsed_seconds started t * us_per_second <= t - started
  < (elapsed_seconds started t + 1) * us_per_second.
Proof.
  intros H. unfold elapsed_seconds, us_per_second.
  rewrite Z.quot_div_nonneg by lia.
  pose proof (Z.div_pos (t - started) 1000000 ltac:(lia) ltac:(lia)).
  pose proof (Z.mul_div_le (t - started) 1000000 ltac:(lia)).
  pose proof (Z.mul_succ_div_gt (t - started) 1000000 ltac:(lia)).
  lia.
Qed.

(** Rounding is towards zero also when the clock has gone back. *)
Lemma elapsed_seconds_bounds_back started t :
  t <= started ->
  elapsed_seconds started t <= 0 /\
  (elapsed_seconds started t - 1) * us_per_second < t - started
  <= elapsed_seconds started t * us_per_second.
Proof.
  intros H. unfold elapsed_seconds, us_per_second.
  replace (t - started) with (- (started - t)) by lia.
  rewrite Z.quot_opp_l by lia.
  rewrite Z.quot_div_nonneg by lia.
  pose proof (Z.div_pos (started - t) 1000000 ltac:(lia) ltac:(lia)).
  pose proof (Z.mul_div_le (started - t) 1000000 ltac:(lia)).
  pose proof (Z.mul_succ_div_gt (started - t) 1000000 ltac:(lia)).
  lia.
Qed.

End Resolve.

(** C10.  [resolve_incident] does not look at [resolved_at]: for every
    incident id in the table it returns [True] and writes the current
    time to [resolved_at] and the time elapsed since [started_at] to
    [duration_s], leaving the other incidents, the monitors and the
    heartbeats as they were.  The duration is that time in whole
    seconds, rounded towards zero: it is the one integer within a
    second of [resolved_at - started_at] on the side of zero.
    Resolving the same incident again succeeds again and overwrites
    both columns. *)
Theorem resolve_incident_ignores_resolution :
  forall s w w2 incident_id i,
    find_incident (incidents s) incident_id = Some i ->
    exists s' d d2,
      resolve_incident s w incident_id = (s', true) /\
      monitors s' = monitors s /\ heartbeats s' = heartbeats s /\
      find_incident (incidents s') incident_id
      = Some (Incident.mk (Incident.id i) (Incident.monitor_id i)
                (Incident.started_at i) (Some (now w)) (Some d)
                (Incident.cause i) (Incident.notified i)) /\
      (Incident.started_at i <= now w ->
       0 <= d /\
       d * us_per_second <= now w - Incident.started_at i
       < (d + 1) * us_per_second) /\
      (now w <= Incident.started_at i ->
       d <= 0 /\
       (d - 1) * us_per_second < now w - Incident.started_at i
       <= d * us_per_second) /\
      (forall other, other <> incident_id ->
         find_incident (incidents s') other
         = find_incident (incidents s) other) /\
      exists s2,
        resolve_incident s' w2 incident_id = (s2, true) /\
        find_incident (incidents s2) incident_id
        = Some (Incident.mk (Incident.id i) (Incident.monitor_id i)
                  (Incident.started_at i) (Some (now w2)) (Some d2)
                  (Incident.cause i) (Incident.notified i)) /\
        (Incident.started_at i <= now w2 ->
         0 <= d2 /\
         d2 * us_per_second <= now w2 - Incident.started_at i
         < (d2 + 1) * us_per_second) /\
        (now w2 <= Incident.started_at i ->
         d2 <= 0 /\
         (d2 - 1) * us_per_second < now w2 - Incident.started_at i
         <= d2 * us_per_second).
Proof.
  intros s w w2 incident_id i Hfind.
  eexists. exists (elapsed_seconds (Incident.started_at i) (now w)).
  exists (elapsed_seconds (Incident.started_at i) (now w2)).
  split; [exact (resolve_incident_found _ _ _ _ Hfind)|].
  cbn [monitors heartbeats incidents].
  assert (Hfind' :
    find_incident
      (update_incident incident_id
         (set_resolved (now w)
            (elapsed_seconds (Incident.started_at i) (now w)))
         (incidents s)) incident_id
    = Some (set_resolved (now w)
              (elapsed_seconds (Incident.started_at i) (now w)) i)).
  { rewrite find_incident_update by reflexivity. now rewrite Hfind. }
  split; [reflexivity|]. split; [reflexivity|]. split; [exact Hfind'|].
  split; [apply elapsed_seconds_bounds|].
  split; [apply elapsed_seconds_bounds_back|].
  split.
  - intros other Hne. now apply find_incident_update_other.
  - eexists. split; [|split; [|split]].
    + unfold resolve_incident. cbn [incidents]. rewrite Hfind'. reflexivity.
    + cbn [incidents]. rewrite find_incident_update by reflexivity.
      rewrite Hfind'. reflexivity.
    + apply elapsed_seconds_bounds.
    + apply elapsed_seconds_bounds_back.
Qed.

Lemma resolve_incident_ignores_resolution_witness :
  find_incident (incidents db_outage) "a1b2c3d4" = Some outage /\
  exists s',
    resolve_incident db_outage (clock (t0 + 200 * us_per_second + 700000))
      "a1b2c3d4" = (s', true) /\
    option_map Incident.duration_s
      (find_incident (incidents s') "a1b2c3d4") = Some (Some 140) /\
    exists s2 i2,
      resolve_incident s' (clock (t0 + 3665 * us_per_second + 999999))
        "a1b2c3d4" = (s2, true) /\
      find_incident (incidents s2) "a1b2c3d4" = Some i2 /\
      Incident.resolved_at i2 = Some (t0 + 3665 * us_per_second + 999999) /\
      Incident.duration_s i2 = Some 3605.
Proof.
  split; [reflexivity|].
  destruct (resolve_incident_ignores_resolution db_outage
              (clock (t0 + 200 * us_per_second + 700000))
              (clock (t0 + 3665 * us_per_second + 999999))
              "a1b2c3d4" outage eq_refl)
    as (s' & d & d2 & Hres & _ & _ & Hfind1 & Hd & _ & _
        & s2 & Hres2 & Hfind2 & Hd2 & _).
  assert (Ed : d = 140).
  { destruct Hd as (_ & Hlo & Hhi); [vm_compute; discriminate|].
    unfold us_per_second, t0 in *. simpl in Hlo, Hhi. lia. }
  assert (Ed2 : d2 = 3605).
  { destruct Hd2 as (_ & Hlo & Hhi); [vm_compute; discriminate|].
    unfold us_per_second, t0 in *. simpl in Hlo, Hhi. lia. }
  subst d d2.
  exists s'. split; [exact Hres|].
  split; [now rewrite Hfind1|].
  exists s2. eexists. split; [exact Hres2|]. split; [exact Hfind2|].
  split; reflexivity.
Defined.

(** ** Recovery *)

(** C2, as stated, fails: the sample monitor is down with its incident
    open; a check that classifies [up] returns [True] and the incident
    is still open afterwards. *)
Lemma up_check_leaves_incident_open :
  exists s',
    run_check db_outage
      (world_http (t0 + 120 * us_per_second) "55667788" answers_200) "m1"
    = Ok (s', true) /\
    find_monitor (monitors s') "m1"
    = Some (Monitor.mk "m1" "site" "http" "http://example.org" 60 10 0 "up"
              (Some (t0 + 120 * us_per_second))
              (Some (t0 + 120 * us_per_second)) (Some (50 # 1)) None []) /\
    find_incident (incidents s') "a1b2c3d4" = Some outage /\
    Incident.resolved_at outage = None /\
    open_incidents s' "m1" = [outage].
Proof. eexists. repeat split. Qed.

(** C2, amended.  A check that classifies [up] sets the status to [up]
    and leaves the incidents table as it was, so an open incident of
    the monitor stays open.  The incident is closed by
    [resolve_incident], which sets [resolved_at] to the current time and
    [duration_s] to the whole seconds of [resolved_at - started_at],
    which is non-negative and within a second of the difference when
    the clock has not gone back. *)
Theorem up_check_keeps_incident_until_resolved :
  forall s w w' monitor_id m incident_id i,
    find_monitor (monitors s) monitor_id = Some m ->
    outcome m w = "up" ->
    find_incident (incidents s) incident_id = Some i ->
    Incident.monitor_id i = monitor_id ->
    Incident.resolved_at i = None ->
    exists s' m',
      run_check s w monitor_id = Ok (s', true) /\
      find_monitor (monitors s') monitor_id = Some m' /\
      Monitor.status m' = "up" /\
      incidents s' = incidents s /\
      In i (open_incidents s' monitor_id) /\
      exists s'' i'',
        resolve_incident s' w' incident_id = (s'', true) /\
        find_incident (incidents s'') incident_id = Some i'' /\
        Incident.resolved_at i'' = Some (now w') /\
        Incident.duration_s i''
        = Some (elapsed_seconds (Incident.started_at i) (now w')) /\
        Incident.started_at i'' = Incident.started_at i /\
        (Incident.started_at i <= now w' ->
         0 <= elapsed_seconds (Incident.started_at i) (now w') /\
         elapsed_seconds (Incident.started_at i) (now w') * us_per_second
         <= now w' - Incident.started_at i
         < (elapsed_seconds (Incident.started_at i) (now w') + 1)
           * us_per_second).
Proof.
  intros s w w' monitor_id m incident_id i Hfind Hup Hinc Hmon Hopen.
  pose proof (find_monitor_id _ _ _ Hfind) as Hid.
  revert Hmon. subst monitor_id. intros Hmon.
  assert (Hquiet : opens m w = false).
  { unfold opens. rewrite Hup. apply andb_false_r. }
  assert (Hsame : incidents (after_check s w m) = incidents s).
  { rewrite incidents_after_check, Hquiet. apply app_nil_r. }
  exists (after_check s w m), (checked m w).
  split.
  { rewrite (run_check_returns_quiet _ _ _ _ Hfind Hquiet). now rewrite Hup. }
  split; [now apply find_after_check|].
  split; [now rewrite status_checked|].
  split; [exact Hsame|].
  split.
  { unfold open_incidents. rewrite Hsame. apply filter_In.
    split; [now apply (find_incident_In _ _ _ Hinc)|].
    unfold is_open. rewrite Hmon, Hopen, String.eqb_refl. reflexivity. }
  rewrite <- Hsame in Hinc.
  eexists. eexists.
  split; [exact (resolve_incident_found _ w' _ _ Hinc)|].
  cbn [incidents].
  split.
  { rewrite find_incident_update by reflexivity.
    cbn [incidents] in Hinc. rewrite Hinc. reflexivity. }
  repeat split; try reflexivity;
    now apply elapsed_seconds_bounds.
Qed.

Lemma up_check_keeps_incident_until_resolved_witness :
  find_monitor (monitors db_outage) "m1" = Some (site "down" None) /\
  outcome (site "down" None)
    (world_http (t0 + 120 * us_per_second) "55667788" answers_200) = "up" /\
  find_incident (incidents db_outage) "a1b2c3d4" = Some outage /\
  exists s',
    run_check db_outage
      (world_http (t0 + 120 * us_per_second) "55667788" answers_200) "m1"
    = Ok (s', true) /\
    In outage (open_incidents s' "m1") /\
    exists s'' i'',
      resolve_incident s'
        (clock (t0 + 180 * us_per_second + 5)) "a1b2c3d4"
      = (s'', true) /\
      find_incident (incidents s'') "a1b2c3d4" = Some i'' /\
      Incident.duration_s i'' = Some 120.
Proof.
  split; [reflexivity|]. split; [reflexivity|]. split; [reflexivity|].
  destruct (up_check_keeps_incident_until_resolved db_outage
              (world_http (t0 + 120 * us_per_second) "55667788" answers_200)
              (clock (t0 + 180 * us_per_second + 5))
              "m1" (site "down" None) "a1b2c3d4" outage
              eq_refl eq_refl eq_refl eq_refl eq_refl)
    as (s' & m' & Hrun & _ & _ & _ & Hin & s'' & i'' & Hres & Hf & _ & Hd & _).
  exists s'. split; [exact Hrun|]. split; [exact Hin|].
  exists s'', i''. split; [exact Hres|]. split; [exact Hf|].
  rewrite Hd. reflexivity.
Defined.

(** ** Replaying checks *)

Section Replay.

Local Arguments String.eqb : simpl never.

Lemma fresh_supply_head s u us :
  fresh_supply s (u :: us) = true ->
  incident_exists s u = false /\ existsb (String.eqb u) us = false.
Proof.
  unfold fresh_supply. simpl. intros H.
  rewrite !andb_true_iff in H. destruct H as [[Hu _] [Hs _]].
  split; now apply negb_true_iff.
Qed.

Lemma fresh_supply_after_check s w m us :
  fresh_supply s (uuid8 w :: us) = true ->
  fresh_supply (after_check s w m) us = true.
Proof.
  intros H. destruct (fresh_supply_head _ _ _ H) as [_ Hnew].
  unfold fresh_supply in *. simpl in H.
  rewrite !andb_true_iff in H. destruct H as [[_ Hdist] [_ Hall]].
  apply andb_true_intro. split; [assumption|].
  apply forallb_forall. intros u Hu.
  pose proof (proj1 (forallb_forall _ _) Hall u Hu) as Hold.
  apply negb_true_iff in Hold. apply negb_true_iff.
  unfold incident_exists in *.
  rewrite incidents_after_check, existsb_app, Hold. simpl.
  destruct (opens m w); [|reflexivity].
  simpl. rewrite orb_false_r.
  destruct (uuid8 w =s? u) eqn:E; [|reflexivity].
  rewrite <- Hnew. symmetry. apply existsb_exists.
  exists u. split; assumption.
Qed.

End Replay.

(** C1, as stated, fails: a monitor fresh from [add_monitor] that goes
    up, down, up and down again carries two open incidents. *)
Lemma flapping_leaves_two_open_incidents :
  exists s',
    replay (db_of (site "unknown" None)) "m1"
      [world_http t0 "00000001" answers_200;
       world_http (t0 + 60 * us_per_second) "00000002" times_out;
       world_http (t0 + 120 * us_per_second) "00000003" answers_200;
       world_http (t0 + 180 * us_per_second) "00000004" times_out]
    = Ok s' /\
    open_incidents s' "m1"
    = [Incident.mk "00000002" "m1" (t0 + 60 * us_per_second) None None
         "timeout" false;
       Incident.mk "00000004" "m1" (t0 + 180 * us_per_second) None None
         "timeout" false] /\
    ~ (List.length (open_incidents s' "m1") <= 1)%nat.
Proof.
  eexists. split; [reflexivity|]. split; [reflexivity|].
  simpl. lia.
Qed.

(** C1, amended.  [run_check] never closes an incident.  Replaying any
    sequence of checks for a monitor keeps every incident that was in
    the table and appends one open incident of that monitor for each
    step from persisted status [up] to classification [down], so the
    number of open incidents of the monitor grows by the number of such
    steps and may exceed one. *)
Theorem replay_opens_one_incident_per_down_step :
  forall ws s monitor_id m,
    find_monitor (monitors s) monitor_id = Some m ->
    fresh_supply s (map uuid8 ws) = true ->
    exists s' new,
      replay s monitor_id ws = Ok s' /\
      incidents s' = incidents s ++ new /\
      Forall (fun i => Incident.monitor_id i = monitor_id
                       /\ Incident.resolved_at i = None) new /\
      List.length new
      = up_down_steps (Monitor.status m) (map (outcome m) ws) /\
      List.length (open_incidents s' monitor_id)
      = (List.length (open_incidents s monitor_id)
         + up_down_steps (Monitor.status m) (map (outcome m) ws))%nat.
Proof.
  induction ws as [|w ws IH]; intros s monitor_id m Hfind Hfresh.
  - exists s, []. simpl. rewrite app_nil_r.
    repeat split; auto.
  - pose proof (find_monitor_id _ _ _ Hfind) as Hid. subst monitor_id.
    simpl in Hfresh.
    destruct (fresh_supply_head _ _ _ Hfresh) as [Hhead _].
    pose proof (fresh_supply_after_check s w m _ Hfresh) as Hrest.
    destruct (IH (after_check s w m) (Monitor.id m) (checked m w)
                (find_after_check _ _ _ Hfind) Hrest)
      as (s' & new & Hrun & Hinc & Hall & Hlen & Hcount).
    exists s', ((if opens m w then [opened_incident m w] else []) ++ new).
    simpl replay. rewrite (run_check_returns _ _ _ _ Hfind Hhead).
    split; [exact Hrun|].
    split; [rewrite Hinc, incidents_after_check; symmetry; apply app_assoc|].
    assert (Htrace :
      map (outcome (checked m w)) ws = map (outcome m) ws).
    { apply map_ext. intros w'. apply outcome_checked. }
    rewrite Htrace, status_checked in Hlen, Hcount.
    split; [|split].
    + apply Forall_app. split; [|exact Hall].
      destruct (opens m w); constructor; [split; reflexivity | constructor].
    + rewrite length_app, Hlen. simpl. unfold opens.
      destruct ((Monitor.status m =s? "up") && (outcome m w =s? "down"));
        reflexivity.
    + rewrite Hcount. unfold open_incidents.
      rewrite incidents_after_check, filter_app, length_app.
      simpl up_down_steps. unfold opens.
      destruct ((Monitor.status m =s? "up") && (outcome m w =s? "down"));
        simpl; [|lia].
      rewrite String.eqb_refl. simpl. lia.
Qed.

Lemma replay_opens_one_incident_per_down_step_witness :
  find_monitor (monitors (db_of (site "unknown" None))) "m1"
  = Some (site "unknown" None) /\
  fresh_supply (db_of (site "unknown" None))
    ["00000001"; "00000002"; "00000003"] = true /\
  exists s',
    replay (db_of (site "unknown" None)) "m1"
      [world_http t0 "00000001" answers_200;
       world_http (t0 + 60 * us_per_second) "00000002" times_out;
       world_http (t0 + 120 * us_per_second) "00000003" times_out]
    = Ok s' /\
    List.length (open_incidents s' "m1") = 1%nat.
Proof.
  split; [reflexivity|]. split; [reflexivity|].
  destruct (replay_opens_one_incident_per_down_step
              [world_http t0 "00000001" answers_200;
               world_http (t0 + 60 * us_per_second) "00000002" times_out;
               world_http (t0 + 120 * us_per_second) "00000003" times_out]
              (db_of (site "unknown" None)) "m1" (site "unknown" None)
              eq_refl eq_refl)
    as (s' & new & Hrun & _ & _ & _ & Hcount).
  exists s'. split; [exact Hrun | exact Hcount].
Defined.

(** ** Dispatch *)

(** C5, as stated, fails.  For a monitor of type [cert] the dispatch of
    [run_check] answers [unknown] although [check_cert] on the same
    monitor reads the certificate; for a monitor of type [dns] it runs
    the ping probe: here [ping] cannot be started, and that is the
    monitor's failure. *)
Lemma dispatch_skips_cert_and_pings_dns :
  dispatch db_probes world_cert "cert" "c1" = unknown_result /\
  check_cert db_probes world_cert "c1"
  = mkResult "up" None None None (Some 30) /\
  dispatch db_probes world_cert "cert" "c1"
  <> check_cert db_probes world_cert "c1" /\
  dispatch db_probes world_cert "dns" "d1" = down_because "ping: not found" /\
  dispatch db_probes world_cert "dns" "d1"
  = check_ping db_probes world_cert "d1".
Proof.
  repeat split. discriminate.
Qed.

(** C5, amended.  [run_check] runs [check_http], [check_tcp] and
    [check_ping] for the types [http], [tcp] and [ping]; for the type
    [dns] it runs [check_ping]; for every other type, [cert] among
    them, the result is [unknown] and no probe is run.  The status it
    persists is the status of that result. *)
Theorem run_check_dispatch_table :
  forall s w monitor_id m,
    find_monitor (monitors s) monitor_id = Some m ->
    incident_exists s (uuid8 w) = false ->
    let result := dispatch s w (Monitor.type m) monitor_id in
    (Monitor.type m = "http" -> result = check_http s w monitor_id) /\
    (Monitor.type m = "tcp" -> result = check_tcp s w monitor_id) /\
    (Monitor.type m = "ping" -> result = check_ping s w monitor_id) /\
    (Monitor.type m = "dns" -> result = check_ping s w monitor_id) /\
    (Monitor.type m = "cert" -> result = unknown_result) /\
    (Monitor.type m <> "http" -> Monitor.type m <> "tcp" ->
     Monitor.type m <> "ping" -> Monitor.type m <> "dns" ->
     result = unknown_result) /\
    exists s' m',
      run_check s w monitor_id = Ok (s', res_status result =s? "up") /\
      find_monitor (monitors s') monitor_id = Some m' /\
      Monitor.status m' = res_status result /\
      Monitor.response_time_ms m' = res_response_time_ms result /\
      Monitor.cert_expiry_days m' = res_cert_expiry_days result.
Proof.
  intros s w monitor_id m Hfind Hfresh result.
  repeat split.
  - intros H. subst result. now rewrite H.
  - intros H. subst result. now rewrite H.
  - intros H. subst result. now rewrite H.
  - intros H. subst result. now rewrite H.
  - intros H. subst result. now rewrite H.
  - intros H1 H2 H3 H4. subst result. unfold dispatch.
    apply String.eqb_neq in H1, H2, H3, H4.
    now rewrite H1, H2, H3, H4.
  - pose proof (find_monitor_id _ _ _ Hfind) as Hid. subst monitor_id.
    exists (after_check s w m), (checked m w).
    subst result. rewrite (dispatch_probe _ _ _ _ Hfind).
    split; [now apply run_check_returns|].
    split; [now apply find_after_check|].
    repeat split.
Qed.

Lemma run_check_dispatch_table_witness :
  find_monitor (monitors db_probes) "c1" = Some cert_monitor /\
  incident_exists db_probes (uuid8 world_cert) = false /\
  dispatch db_probes world_cert "cert" "c1" = unknown_result /\
  exists s' m',
    run_check db_probes world_cert "c1" = Ok (s', false) /\
    find_monitor (monitors s') "c1" = Some m' /\
    Monitor.status m' = "unknown" /\ Monitor.cert_expiry_days m' = None.
Proof.
  split; [reflexivity|]. split; [reflexivity|].
  destruct (run_check_dispatch_table db_probes world_cert "c1" cert_monitor
              eq_refl eq_refl)
    as (_ & _ & _ & _ & Hcert & _ & s' & m' & Hrun & Hfind & Hst & _ & Hce).
  split; [exact (Hcert eq_refl)|].
  exists s', m'. split; [exact Hrun|]. split; [exact Hfind|].
  split; [exact Hst | exact Hce].
Defined.

(** ** The runner *)

Section Runner.

Local Arguments String.eqb : simpl never.

Lemma keys_dict_set d k v k' :
  In k' (keys (dict_set d k v)) <-> k' = k \/ In k' (keys d).
Proof.
  unfold keys. induction d as [|[a b] d IH]; simpl.
  - intuition.
  - destruct (a =s? k) eqn:E; simpl.
    + apply String.eqb_eq in E. subst a. intuition.
    + rewrite IH. intuition.
Qed.

Lemma fresh_supply_tail s u us :
  fresh_supply s (u :: us) = true -> fresh_supply s us = true.
Proof.
  unfold fresh_supply. simpl. rewrite !andb_true_iff. tauto.
Qed.

Lemma select_not_paused_In s monitor_id :
  In monitor_id (select_not_paused s) <->
  exists m, In m (monitors s) /\ Monitor.id m = monitor_id
            /\ Monitor.status m <> "paused".
Proof.
  unfold select_not_paused. rewrite in_map_iff. split.
  - intros (m & Hid & Hin). apply filter_In in Hin. destruct Hin as [Hin Hst].
    exists m. repeat split; auto.
    apply negb_true_iff, String.eqb_neq in Hst. exact Hst.
  - intros (m & Hin & Hid & Hst). exists m. split; [exact Hid|].
    apply filter_In. split; [exact Hin|].
    now apply negb_true_iff, String.eqb_neq.
Qed.

(** The loop returns when the uuids it draws are fresh, and its result
    has a key for each id it was given. *)
Lemma run_checks_loop_keys env ids :
  forall n s results,
    fresh_supply s (map (fun k => uuid8 (env k)) (seq n (List.length ids)))
    = true ->
    exists s' results',
      run_checks_loop env n ids s results = (s', Ok results') /\
      forall k, In k (keys results') <-> In k (keys results) \/ In k ids.
Proof.
  induction ids as [|a ids IH]; intros n s results Hfresh.
  - exists s, results. split; [reflexivity|]. simpl. tauto.
  - simpl in Hfresh. simpl run_checks_loop.
    destruct (find_monitor (monitors s) a) as [m|] eqn:Hfind.
    + destruct (fresh_supply_head _ _ _ Hfresh) as [Hhead _].
      rewrite (run_check_returns _ _ _ _ Hfind Hhead).
      destruct (IH (S n) (after_check s (env n) m)
                  (dict_set results a (outcome m (env n) =s? "up"))
                  (fresh_supply_after_check s (env n) m _ Hfresh))
        as (s' & results' & Hrun & Hkeys).
      exists s', results'. split; [exact Hrun|].
      intros k. rewrite Hkeys, keys_dict_set. simpl. intuition.
    + rewrite (run_check_missing _ _ _ Hfind).
      destruct (IH (S n) s (dict_set results a false)
                  (fresh_supply_tail _ _ _ Hfresh))
        as (s' & results' & Hrun & Hkeys).
      exists s', results'. split; [exact Hrun|].
      intros k. rewrite Hkeys, keys_dict_set. simpl. intuition.
Qed.

End Runner.

(** C6, as stated, fails: of a paused monitor, a monitor in maintenance
    and a monitor that is up, [run_all_checks] leaves out the paused one
    only.  The monitor in maintenance is probed, gets a heartbeat, and
    its status is overwritten. *)
Lemma maintenance_monitor_is_checked :
  exists s',
    run_all_checks db_mixed env_200 = (s', Ok [("x1", true); ("u1", true)]) /\
    option_map Monitor.status (find_monitor (monitors db_mixed) "x1")
    = Some "maintenance" /\
    option_map Monitor.status (find_monitor (monitors s') "x1") = Some "up" /\
    map Heartbeat.monitor_id (heartbeats s') = ["x1"; "u1"].
Proof. eexists. repeat split. Qed.

(** ** Metrics *)

Section Aggregates.

Local Arguments String.eqb : simpl never.

(** [SUM(...) or 0] is the sum of the non-NULL values. *)
Lemma sql_sum_or_zero l :
  match sql_sum l with
  | Some d => d
  | None => 0
  end = fold_right Z.add 0 (non_null l).
Proof.
  unfold sql_sum. destruct (non_null l); reflexivity.
Qed.

Lemma summed_durations_spec monitor_id cutoff l :
  durations_follow_resolution l = true ->
  fold_right Z.add 0
    (non_null
       (map Incident.duration_s
          (filter (fun i => (Incident.monitor_id i =s? monitor_id)
                            && (cutoff <? Incident.started_at i)) l)))
  = spec_total_down_seconds monitor_id cutoff l.
Proof.
  induction l as [|i l IH]; [reflexivity|].
  simpl. rewrite andb_true_iff. intros [Hi Hl].
  destruct ((Incident.monitor_id i =s? monitor_id)
            && (cutoff <? Incident.started_at i)); simpl.
  - unfold spec_down_seconds.
    destruct (Incident.resolved_at i), (Incident.duration_s i);
      simpl; rewrite ?IH by assumption; try reflexivity; try discriminate.
  - now apply IH.
Qed.

Lemma no_incident_in_window monitor_id cutoff l :
  (forall i, In i l -> Incident.monitor_id i = monitor_id ->
             Incident.started_at i <= cutoff) ->
  spec_total_down_seconds monitor_id cutoff l = 0.
Proof.
  induction l as [|i l IH]; intros H; [reflexivity|].
  simpl. rewrite IH by (intros j Hj; apply H; now right).
  destruct (Incident.monitor_id i =s? monitor_id) eqn:E; [|reflexivity].
  apply String.eqb_eq in E.
  pose proof (H i (or_introl eq_refl) E) as Hle.
  apply Z.ltb_ge in Hle. now rewrite Hle.
Qed.

Lemma spec_uptime_percent_no_downtime days :
  days <> 0 -> (spec_uptime_percent 0 days == 100)%Q.
Proof.
  intros Hdays. unfold spec_uptime_percent.
  assert (H : ((1 - inject_Z 0 / inject_Z (days * 86400)) * 100 == 100)%Q).
  { unfold Qdiv. change (inject_Z 0) with 0%Q. ring. }
  rewrite H. apply Q.max_r. discriminate.
Qed.

(** The [IS NOT NULL] of the query drops nothing that [AVG] would
    count. *)
Lemma non_null_response_times monitor_id cutoff l :
  non_null
    (map Heartbeat.response_time_ms
       (filter (fun h => (Heartbeat.monitor_id h =s? monitor_id)
                         && (cutoff <? Heartbeat.timestamp h)
                         && (match Heartbeat.response_time_ms h with
                             | Some _ => true
                             | None => false
                             end)) l))
  = spec_window_response_times monitor_id cutoff l.
Proof.
  unfold spec_window_response_times.
  induction l as [|h l IH]; [reflexivity|].
  simpl.
  destruct ((Heartbeat.monitor_id h =s? monitor_id)
            && (cutoff <? Heartbeat.timestamp h)); simpl; [|exact IH].
  destruct (Heartbeat.response_time_ms h) eqn:E; simpl; rewrite ?E, IH;
    reflexivity.
Qed.

Lemma window_without_response_times monitor_id cutoff l :
  (forall h, In h l -> Heartbeat.monitor_id h = monitor_id ->
             cutoff < Heartbeat.timestamp h ->
             Heartbeat.response_time_ms h = None) ->
  spec_window_response_times monitor_id cutoff l = [].
Proof.
  unfold spec_window_response_times.
  induction l as [|h l IH]; intros H; [reflexivity|].
  simpl.
  assert (IH' := IH (fun j Hj => H j (or_intror Hj))).
  destruct (Heartbeat.monitor_id h =s? monitor_id) eqn:E; [|exact IH'].
  destruct (cutoff <? Heartbeat.timestamp h) eqn:E'; [|exact IH'].
  apply String.eqb_eq in E. apply Z.ltb_lt in E'.
  simpl. now rewrite (H h (or_introl eq_refl) E E').
Qed.

(** A window of zero days divides by zero. *)
Lemma get_uptime_percent_zero_days s w monitor_id :
  datetime_min <= now w <= datetime_max ->
  get_uptime_percent s w monitor_id 0 = Raise ZeroDivisionError.
Proof.
  intros [Hlo Hhi]. unfold get_uptime_percent, datetime_sub_seconds.
  replace (now w - 0 * 86400 * us_per_second) with (now w) by lia.
  apply Z.leb_le in Hlo, Hhi. now rewrite Hlo, Hhi.
Qed.

End Aggregates.

(** C7.  For a window of [D] days that the clock can express, [D] not
    zero, [get_uptime_percent] returns
    [max(0, (1 - downtime / (D * 86400)) * 100)], where [downtime] sums
    the [duration_s] of the monitor's incidents whose [started_at] is
    after the start of the window, an open incident counting for
    nothing; with no incident of the monitor in the window the result
    is 100. *)
Theorem get_uptime_percent_spec :
  forall s w monitor_id days cutoff,
    datetime_sub_seconds (now w) (days * 86400) = Some cutoff ->
    days <> 0 ->
    durations_follow_resolution (incidents s) = true ->
    cutoff = now w - days * 86400 * us_per_second /\
    get_uptime_percent s w monitor_id days
    = Ok (spec_uptime_percent
            (spec_total_down_seconds monitor_id cutoff (incidents s)) days) /\
    ((forall i, In i (incidents s) -> Incident.monitor_id i = monitor_id ->
                Incident.started_at i <= cutoff) ->
     exists pct,
       get_uptime_percent s w monitor_id days = Ok pct /\ (pct == 100)%Q).
Proof.
  intros s w monitor_id days cutoff Hcut Hdays Hwf.
  assert (Hrun :
    get_uptime_percent s w monitor_id days
    = Ok (spec_uptime_percent
            (spec_total_down_seconds monitor_id cutoff (incidents s)) days)).
  { unfold get_uptime_percent. rewrite Hcut.
    destruct (days * 86400 =? 0) eqn:E; [apply Z.eqb_eq in E; lia|].
    rewrite sql_sum_or_zero, summed_durations_spec by assumption.
    reflexivity. }
  split; [|split].
  - unfold datetime_sub_seconds in Hcut.
    destruct ((datetime_min <=? now w - days * 86400 * us_per_second)
              && (now w - days * 86400 * us_per_second <=? datetime_max));
      [now injection Hcut | discriminate].
  - exact Hrun.
  - intros Hnone. eexists. split; [exact Hrun|].
    rewrite (no_incident_in_window _ _ _ Hnone).
    now apply spec_uptime_percent_no_downtime.
Qed.

Lemma get_uptime_percent_spec_witness :
  datetime_sub_seconds (now world_later) (1 * 86400)
  = Some (t0 + 3600 * us_per_second - 86400 * us_per_second) /\
  durations_follow_resolution (incidents db_history) = true /\
  exists pct,
    get_uptime_percent db_history world_later "m1" 1 = Ok pct /\
    (pct == (1 - (120 # 86400)) * 100)%Q.
Proof.
  split; [reflexivity|]. split; [reflexivity|].
  destruct (get_uptime_percent_spec db_history world_later "m1" 1
              (t0 + 3600 * us_per_second - 86400 * us_per_second)
              eq_refl ltac:(discriminate) eq_refl)
    as (_ & Hrun & _).
  eexists. split; [exact Hrun|]. vm_compute. reflexivity.
Defined.

(** C8.  For a window of [H] hours that the clock can express,
    [get_response_time_avg] returns the arithmetic mean of the non-null
    [response_time_ms] of the monitor's heartbeats whose timestamp is
    after the start of the window, and returns 0, without raising, when
    the window holds no heartbeat or only heartbeats with a null
    response time. *)
Theorem get_response_time_avg_spec :
  forall s w monitor_id hours cutoff,
    datetime_sub_seconds (now w) (hours * 3600) = Some cutoff ->
    cutoff = now w - hours * 3600 * us_per_second /\
    exists avg,
      get_response_time_avg s w monitor_id hours = Ok avg /\
      (spec_window_response_times monitor_id cutoff (heartbeats s) <> [] ->
       (avg
        == spec_mean
             (spec_window_response_times monitor_id cutoff (heartbeats s)))%Q)
      /\
      (spec_window_response_times monitor_id cutoff (heartbeats s) = [] ->
       avg = 0%Q) /\
      ((forall h, In h (heartbeats s) ->
                  Heartbeat.monitor_id h = monitor_id ->
                  cutoff < Heartbeat.timestamp h ->
                  Heartbeat.response_time_ms h = None) ->
       avg = 0%Q).
Proof.
  intros s w monitor_id hours cutoff Hcut.
  split.
  { unfold datetime_sub_seconds in Hcut.
    destruct ((datetime_min <=? now w - hours * 3600 * us_per_second)
              && (now w - hours * 3600 * us_per_second <=? datetime_max));
      [now injection Hcut | discriminate]. }
  unfold get_response_time_avg. rewrite Hcut.
  unfold sql_avg. rewrite non_null_response_times.
  pose proof (window_without_response_times monitor_id cutoff (heartbeats s))
    as Hnull.
  destruct (spec_window_response_times monitor_id cutoff (heartbeats s))
    as [|q vs] eqn:Hvs.
  - exists 0%Q. split; [reflexivity|].
    split; [intros H; now elim H|]. split; reflexivity.
  - eexists. split; [reflexivity|].
    split; [|split].
    + intros _. unfold spec_mean.
      destruct (Qeq_bool (Qsum (q :: vs)
                          / inject_Z (Z.of_nat (List.length (q :: vs)))) 0)
        eqn:E; [|reflexivity].
      apply Qeq_bool_iff in E. now rewrite E.
    + discriminate.
    + intros H. apply Hnull in H. discriminate.
Qed.

Lemma get_response_time_avg_spec_witness :
  datetime_sub_seconds (now world_later) (24 * 3600)
  = Some (t0 + 3600 * us_per_second - 86400 * us_per_second) /\
  exists avg,
    get_response_time_avg db_history world_later "m1" 24 = Ok avg /\
    (avg == 50 # 1)%Q.
Proof.
  split; [reflexivity|].
  destruct (get_response_time_avg_spec db_history world_later "m1" 24
              (t0 + 3600 * us_per_second - 86400 * us_per_second) eq_refl)
    as (_ & avg & Hrun & Hmean & _).
  exists avg. split; [exact Hrun|].
  rewrite Hmean by discriminate. vm_compute. reflexivity.
Defined.

(** ** The invariants hold of every database the engine builds

    The theorems on [up_since] and on the uptime percentage start from a
    database whose rows satisfy [up_since_consistent] and
    [durations_follow_resolution]; both hold from the empty database on,
    whatever the engine is asked to do. *)

Section Reachable.

Local Arguments String.eqb : simpl never.

Lemma after_check_consistent s w m :
  (forall x, In x (monitors s) -> up_since_consistent x) ->
  forall x, In x (monitors (after_check s w m)) -> up_since_consistent x.
Proof.
  intros H x Hx. unfold after_check, update_monitor in Hx. simpl in Hx.
  apply in_map_iff in Hx. destruct Hx as (y & <- & Hy).
  destruct (Monitor.id y =s? Monitor.id m).
  - apply write_check_consistent.
  - now apply H.
Qed.

Lemma after_check_durations s w m :
  durations_follow_resolution (incidents s) = true ->
  durations_follow_resolution (incidents (after_check s w m)) = true.
Proof.
  intros H. unfold durations_follow_resolution in *.
  rewrite incidents_after_check, forallb_app, H.
  destruct (opens m w); reflexivity.
Qed.

Lemma update_incident_durations incident_id t d l :
  durations_follow_resolution l = true ->
  durations_follow_resolution
    (update_incident incident_id (set_resolved t d) l) = true.
Proof.
  unfold durations_follow_resolution, update_incident.
  induction l as [|i l IH]; [reflexivity|].
  simpl. rewrite !andb_true_iff. intros [Hi Hl].
  split; [|now apply IH].
  destruct (Incident.id i =s? incident_id); [reflexivity | exact Hi].
Qed.

Lemma reachable_invariants s :
  reachable s ->
  (forall m, In m (monitors s) -> up_since_consistent m) /\
  durations_follow_resolution (incidents s) = true.
Proof.
  induction 1 as
    [ | s w name ty target interval timeout tags s' monitor_id _ [IHm IHi] Hadd
      | s w monitor_id s' up _ [IHm IHi] Hrun
      | s w incident_id s' found _ [IHm IHi] Hres ].
  - split; [intros m [] | reflexivity].
  - unfold add_monitor in Hadd.
    destruct (negb (fits_int64 interval && fits_int64 timeout));
      [discriminate|].
    destruct (monitor_exists s (uuid8 w)); [discriminate|].
    injection Hadd as <- _. simpl. split; [|exact IHi].
    intros m Hm. apply in_app_or in Hm. destruct Hm as [Hm|[<-|[]]].
    + now apply IHm.
    + split; [intros H; now elim H | discriminate].
  - destruct (find_monitor (monitors s) monitor_id) as [m|] eqn:Hfind.
    + rewrite (run_check_found _ _ _ _ Hfind) in Hrun.
      destruct (opens m w && incident_exists s (uuid8 w)); [discriminate|].
      injection Hrun as <- _. split.
      * now apply after_check_consistent.
      * now apply after_check_durations.
    + rewrite (run_check_missing _ _ _ Hfind) in Hrun.
      injection Hrun as <- _. now split.
  - unfold resolve_incident in Hres.
    destruct (find_incident (incidents s) incident_id) as [i|].
    + injection Hres as <- _. simpl. split; [exact IHm|].
      now apply update_incident_durations.
    + injection Hres as <- _. now split.
Qed.

End Reachable.

(** ** Open incidents as [get_incidents] lists them *)

Lemma filter_twice {A : Type} (p q : A -> bool) (l : list A) :
  filter q (filter p l) = filter (fun x => p x && q x) l.
Proof.
  induction l as [|a l IH]; [reflexivity|].
  simpl. destruct (p a); simpl; [|exact IH].
  destruct (q a); now rewrite IH.
Qed.

Lemma get_incidents_open_only s monitor_id :
  monitor_id <> EmptyString ->
  get_incidents s (Some monitor_id) true = open_incidents s monitor_id.
Proof.
  intros H. unfold get_incidents, open_incidents.
  apply String.eqb_neq in H. rewrite H. apply filter_twice.
Qed.

(** * Further properties of the engine *)

(** ** What one [run_check] touches *)

Section Frame.

Local Arguments String.eqb : simpl never.

Lemma find_monitor_update_other l monitor_id other f :
  (forall m, Monitor.id (f m) = Monitor.id m) ->
  other <> monitor_id ->
  find_monitor (update_monitor monitor_id f l) other = find_monitor l other.
Proof.
  intros Hf Hne. induction l as [|a l IH]; simpl; [reflexivity|].
  destruct (Monitor.id a =s? monitor_id) eqn:E.
  - rewrite Hf. destruct (Monitor.id a =s? other) eqn:E'; [|exact IH].
    apply String.eqb_eq in E, E'. congruence.
  - now rewrite IH.
Qed.

Lemma find_after_check_other s w m other :
  other <> Monitor.id m ->
  find_monitor (monitors (after_check s w m)) other
  = find_monitor (monitors s) other.
Proof.
  intros H. unfold after_check. simpl.
  now apply find_monitor_update_other.
Qed.

Lemma update_monitor_ids monitor_id f l :
  (forall m, Monitor.id (f m) = Monitor.id m) ->
  map Monitor.id (update_monitor monitor_id f l) = map Monitor.id l.
Proof.
  intros Hf. unfold update_monitor. rewrite map_map. apply map_ext.
  intros a. destruct (Monitor.id a =s? monitor_id); [apply Hf | reflexivity].
Qed.

Lemma after_check_ids s w m :
  map Monitor.id (monitors (after_check s w m)) = map Monitor.id (monitors s).
Proof. unfold after_check. simpl. now apply update_monitor_ids. Qed.

(** The probes answer [up], [down] or, for a monitor that is missing,
    [error]. *)
Lemma check_http_status s w monitor_id :
  match find_monitor (monitors s) monitor_id with
  | Some _ => res_status (check_http s w monitor_id) = "up"
              \/ res_status (check_http s w monitor_id) = "down"
  | None => check_http s w monitor_id = not_found
  end.
Proof.
  unfold check_http. destruct (find_monitor (monitors s) monitor_id) as [m|];
    [|reflexivity].
  destruct (http_get w (Monitor.target m) (Monitor.timeout_s m))
    as [code rt|e]; simpl; [|now right].
  destruct (code <? 400); [now left | now right].
Qed.

Lemma check_tcp_status s w monitor_id :
  match find_monitor (monitors s) monitor_id with
  | Some _ => res_status (check_tcp s w monitor_id) = "up"
              \/ res_status (check_tcp s w monitor_id) = "down"
  | None => check_tcp s w monitor_id = not_found
  end.
Proof.
  unfold check_tcp. destruct (find_monitor (monitors s) monitor_id) as [m|];
    [|reflexivity].
  destruct (tcp_connect w (Monitor.target m) (Monitor.timeout_s m));
    simpl; [now left | now right].
Qed.

Lemma check_ping_status s w monitor_id :
  match find_monitor (monitors s) monitor_id with
  | Some _ => res_status (check_ping s w monitor_id) = "up"
              \/ res_status (check_ping s w monitor_id) = "down"
  | None => check_ping s w monitor_id = not_found
  end.
Proof.
  unfold check_ping. destruct (find_monitor (monitors s) monitor_id) as [m|];
    [|reflexivity].
  destruct (ping w (Monitor.target m)) as [code time|e]; simpl; [|now right].
  destruct (code =? 0); [|now right].
  destruct time; simpl; auto.
Qed.

Lemma outcome_domain m w :
  outcome m w = "up" \/ outcome m w = "down" \/ outcome m w = "unknown".
Proof.
  unfold outcome, probe, dispatch.
  pose proof (check_http_status (mkDb [m] [] []) w (Monitor.id m)) as Hh.
  pose proof (check_tcp_status (mkDb [m] [] []) w (Monitor.id m)) as Ht.
  pose proof (check_ping_status (mkDb [m] [] []) w (Monitor.id m)) as Hp.
  simpl in Hh, Ht, Hp. rewrite String.eqb_refl in Hh, Ht, Hp.
  destruct (Monitor.type m =s? "http"); [tauto|].
  destruct (Monitor.type m =s? "tcp"); [tauto|].
  destruct (Monitor.type m =s? "ping"); [tauto|].
  destruct (Monitor.type m =s? "dns"); [tauto|].
  right. right. reflexivity.
Qed.

End Frame.

(** X1.  A [run_check] that finds its monitor rewrites that row only:
    the monitor keeps its id, name, type, target, interval, timeout,
    retry count and tags, its [last_check] becomes the current time,
    and every other monitor id still finds the row it found before. *)
Theorem run_check_touches_one_row :
  forall s w monitor_id m,
    find_monitor (monitors s) monitor_id = Some m ->
    incident_exists s (uuid8 w) = false ->
    exists s' m',
      run_check s w monitor_id = Ok (s', outcome m w =s? "up") /\
      find_monitor (monitors s') monitor_id = Some m' /\
      Monitor.id m' = Monitor.id m /\ Monitor.name m' = Monitor.name m /\
      Monitor.type m' = Monitor.type m /\
      Monitor.target m' = Monitor.target m /\
      Monitor.interval_s m' = Monitor.interval_s m /\
      Monitor.timeout_s m' = Monitor.timeout_s m /\
      Monitor.retries m' = Monitor.retries m /\
      Monitor.tags m' = Monitor.tags m /\
      Monitor.last_check m' = Some (now w) /\
      map Monitor.id (monitors s') = map Monitor.id (monitors s) /\
      (forall other, other <> monitor_id ->
         find_monitor (monitors s') other = find_monitor (monitors s) other).
Proof.
  intros s w monitor_id m Hfind Hfresh.
  pose proof (find_monitor_id _ _ _ Hfind) as Hid. subst monitor_id.
  exists (after_check s w m), (checked m w).
  split; [now apply run_check_returns|].
  split; [now apply find_after_check|].
  repeat (split; [reflexivity|]).
  split; [apply after_check_ids|].
  intros other Hne. now apply find_after_check_other.
Qed.

Lemma run_check_touches_one_row_witness :
  find_monitor (monitors db_mixed) "u1"
  = Some (Monitor.mk "u1" "live site" "http" "http://u.example" 60 10 0
            "up" (Some t0) (Some t0) (Some (50 # 1)) None []) /\
  incident_exists db_mixed "00000001" = false /\
  exists s',
    run_check db_mixed
      (world_http (t0 + 60 * us_per_second) "00000001" times_out) "u1"
    = Ok (s', false) /\
    find_monitor (monitors s') "x1" = find_monitor (monitors db_mixed) "x1" /\
    map Monitor.id (monitors s') = ["p1"; "x1"; "u1"].
Proof.
  split; [reflexivity|]. split; [reflexivity|].
  destruct (run_check_touches_one_row db_mixed
              (world_http (t0 + 60 * us_per_second) "00000001" times_out)
              "u1" _ eq_refl eq_refl)
    as (s' & m' & Hrun & _ & _ & _ & _ & _ & _ & _ & _ & _ & _ & Hids & Hother).
  exists s'. split; [exact Hrun|]. split; [|exact Hids].
  apply Hother. discriminate.
Defined.

(** X2.  Whatever status a monitor had, [paused] and [maintenance]
    included, the status [run_check] persists is [up], [down] or
    [unknown], and the boolean it returns is [True] exactly when that
    status is [up]. *)
Theorem run_check_status_domain :
  forall s w monitor_id m,
    find_monitor (monitors s) monitor_id = Some m ->
    incident_exists s (uuid8 w) = false ->
    exists s' m' up,
      run_check s w monitor_id = Ok (s', up) /\
      find_monitor (monitors s') monitor_id = Some m' /\
      (Monitor.status m' = "up" \/ Monitor.status m' = "down"
       \/ Monitor.status m' = "unknown") /\
      (up = true <-> Monitor.status m' = "up").
Proof.
  intros s w monitor_id m Hfind Hfresh.
  pose proof (find_monitor_id _ _ _ Hfind) as Hid. subst monitor_id.
  exists (after_check s w m), (checked m w), (outcome m w =s? "up").
  split; [now apply run_check_returns|].
  split; [now apply find_after_check|].
  rewrite status_checked. split; [apply outcome_domain|].
  apply String.eqb_eq.
Qed.

Lemma run_check_status_domain_witness :
  find_monitor (monitors db_mixed) "p1"
  = Some (Monitor.mk "p1" "paused site" "http" "http://p.example" 60 10 0
            "paused" None None None None []) /\
  exists s' m',
    run_check db_mixed (world_http t0 "00000001" times_out) "p1"
    = Ok (s', false) /\
    find_monitor (monitors s') "p1" = Some m' /\
    Monitor.status m' = "down".
Proof.
  split; [reflexivity|].
  destruct (run_check_status_domain db_mixed
              (world_http t0 "00000001" times_out) "p1" _ eq_refl eq_refl)
    as (s' & m' & up & Hrun & Hfind & _ & _).
  exists s', m'.
  assert (Hval : run_check db_mixed (world_http t0 "00000001" times_out) "p1"
                 = Ok (after_check db_mixed
                         (world_http t0 "00000001" times_out)
                         (Monitor.mk "p1" "paused site" "http"
                            "http://p.example" 60 10 0 "paused" None None
                            None None []), false)) by reflexivity.
  rewrite Hval in Hrun. injection Hrun as <- <-.
  split; [exact Hval|]. split; [exact Hfind|].
  cbv in Hfind. injection Hfind as <-. reflexivity.
Defined.

(** ** The probes *)

(** X3.  [check_http], [check_tcp] and [check_ping] answer status
    [error] exactly when the monitor is missing.  [check_cert] never
    answers [down]: a certificate that cannot be read is an [error] with
    the exception as reason, one that can be read is [up] with the days
    left. *)
Theorem probe_error_iff_missing :
  forall s w monitor_id,
    (res_status (check_http s w monitor_id) = "error"
     <-> find_monitor (monitors s) monitor_id = None) /\
    (res_status (check_tcp s w monitor_id) = "error"
     <-> find_monitor (monitors s) monitor_id = None) /\
    (res_status (check_ping s w monitor_id) = "error"
     <-> find_monitor (monitors s) monitor_id = None) /\
    res_status (check_cert s w monitor_id) <> "down" /\
    (forall m, find_monitor (monitors s) monitor_id = Some m ->
       match get_cert_expiry w (Monitor.target m) with
       | CertDays d =>
           check_cert s w monitor_id = mkResult "up" None None None (Some d)
       | CertException e =>
           check_cert s w monitor_id = mkResult "error" (Some e) None None None
       end).
Proof.
  intros s w monitor_id.
  pose proof (check_http_status s w monitor_id) as Hh.
  pose proof (check_tcp_status s w monitor_id) as Ht.
  pose proof (check_ping_status s w monitor_id) as Hp.
  destruct (find_monitor (monitors s) monitor_id) as [m|] eqn:Hfind.
  - repeat split; try discriminate.
    + intros E. rewrite E in Hh. destruct Hh; discriminate.
    + intros E. rewrite E in Ht. destruct Ht; discriminate.
    + intros E. rewrite E in Hp. destruct Hp; discriminate.
    + unfold check_cert. rewrite Hfind.
      destruct (get_cert_expiry w (Monitor.target m)); discriminate.
    + intros m' [= <-]. unfold check_cert. rewrite Hfind.
      destruct (get_cert_expiry w (Monitor.target m)); reflexivity.
  - rewrite Hh, Ht, Hp. repeat split; try reflexivity.
    + unfold check_cert. rewrite Hfind. discriminate.
    + discriminate.
Qed.

Section Certificates.

Local Arguments String.eqb : simpl never.

(** Apart from [cert_expiry_days], what a probe answers does not depend
    on the certificate. *)
Lemma probe_same_but_certificate m w1 w2 :
  same_but_certificate w1 w2 ->
  res_status (probe m w1) = res_status (probe m w2) /\
  res_reason (probe m w1) = res_reason (probe m w2) /\
  res_response_time_ms (probe m w1) = res_response_time_ms (probe m w2).
Proof.
  intros (_ & _ & Hhttp & Htcp & Hping).
  unfold probe, dispatch, check_http, check_tcp, check_ping. simpl.
  rewrite String.eqb_refl, Hhttp, Htcp, Hping.
  destruct (Monitor.type m =s? "http").
  { destruct (http_get w2 (Monitor.target m) (Monitor.timeout_s m));
      repeat split. }
  destruct (Monitor.type m =s? "tcp"); [repeat split|].
  destruct (Monitor.type m =s? "ping"); [repeat split|].
  destruct (Monitor.type m =s? "dns"); repeat split.
Qed.

Lemma check_tcp_no_certificate s w monitor_id :
  res_cert_expiry_days (check_tcp s w monitor_id) = None.
Proof.
  unfold check_tcp. destruct (find_monitor (monitors s) monitor_id) as [m|];
    [|reflexivity].
  destruct (tcp_connect w (Monitor.target m) (Monitor.timeout_s m));
    reflexivity.
Qed.

Lemma check_ping_no_certificate s w monitor_id :
  res_cert_expiry_days (check_ping s w monitor_id) = None.
Proof.
  unfold check_ping. destruct (find_monitor (monitors s) monitor_id) as [m|];
    [|reflexivity].
  destruct (ping w (Monitor.target m)) as [code time|e]; [|reflexivity].
  destruct (code =? 0); [|reflexivity]. destruct time; reflexivity.
Qed.

(** A certificate's days are recorded only by the HTTP probe of an
    [https://] target whose certificate was read. *)
Lemma probe_cert_expiry m w d :
  res_cert_expiry_days (probe m w) = Some d ->
  Monitor.type m = "http" /\
  String.prefix "https://" (Monitor.target m) = true /\
  get_cert_expiry w (Monitor.target m) = CertDays d /\
  exists code rt,
    http_get w (Monitor.target m) (Monitor.timeout_s m) = HttpResponse code rt.
Proof.
  unfold probe, dispatch.
  destruct (Monitor.type m =s? "http") eqn:Ety.
  - apply String.eqb_eq in Ety. unfold check_http. simpl.
    rewrite String.eqb_refl.
    destruct (http_get w (Monitor.target m) (Monitor.timeout_s m))
      as [code rt|e]; simpl; [|discriminate].
    destruct (String.prefix "https://" (Monitor.target m)); [|discriminate].
    destruct (get_cert_expiry w (Monitor.target m)); [|discriminate].
    intros [= ->]. repeat split; eauto.
  - destruct (Monitor.type m =s? "tcp");
      [rewrite check_tcp_no_certificate; discriminate|].
    destruct (Monitor.type m =s? "ping");
      [rewrite check_ping_no_certificate; discriminate|].
    destruct (Monitor.type m =s? "dns");
      [rewrite check_ping_no_certificate; discriminate|].
    discriminate.
Qed.

End Certificates.

(** X4.  A certificate that cannot be read changes nothing but
    [cert_expiry_days]: in two worlds that differ only in what reading
    the certificate gives, [run_check] returns the same boolean, writes
    the same heartbeat and the same incident, and every monitor has the
    same status, [up_since], [last_check] and response time. *)
Theorem run_check_ignores_certificate :
  forall s w1 w2 monitor_id m,
    find_monitor (monitors s) monitor_id = Some m ->
    incident_exists s (uuid8 w1) = false ->
    same_but_certificate w1 w2 ->
    exists s1 s2 up,
      run_check s w1 monitor_id = Ok (s1, up) /\
      run_check s w2 monitor_id = Ok (s2, up) /\
      heartbeats s1 = heartbeats s2 /\
      incidents s1 = incidents s2 /\
      forall x,
        option_map Monitor.status (find_monitor (monitors s1) x)
        = option_map Monitor.status (find_monitor (monitors s2) x) /\
        option_map Monitor.up_since (find_monitor (monitors s1) x)
        = option_map Monitor.up_since (find_monitor (monitors s2) x) /\
        option_map Monitor.last_check (find_monitor (monitors s1) x)
        = option_map Monitor.last_check (find_monitor (monitors s2) x) /\
        option_map Monitor.response_time_ms (find_monitor (monitors s1) x)
        = option_map Monitor.response_time_ms (find_monitor (monitors s2) x).
Proof.
  intros s w1 w2 monitor_id m Hfind Hfresh Hsame.
  pose proof (find_monitor_id _ _ _ Hfind) as Hid. subst monitor_id.
  destruct (probe_same_but_certificate m w1 w2 Hsame) as (Hst & Hre & Hrt).
  destruct Hsame as (Hnow & Huuid & _).
  assert (Hout : outcome m w1 = outcome m w2) by exact Hst.
  assert (Hfresh2 : incident_exists s (uuid8 w2) = false)
    by now rewrite <- Huuid.
  exists (after_check s w1 m), (after_check s w2 m), (outcome m w1 =s? "up").
  split; [now apply run_check_returns|].
  split; [rewrite Hout; now apply run_check_returns|].
  split; [unfold after_check; simpl; now rewrite Hnow, Hout, Hrt|].
  split.
  { rewrite !incidents_after_check. unfold opens, opened_incident.
    now rewrite Hnow, Huuid, Hout, Hre. }
  intros x. destruct (String.eqb_spec x (Monitor.id m)) as [->|Hne].
  - rewrite !(find_after_check _ _ _ Hfind).
    unfold checked, write_check, next_up_since. cbn [option_map set_checked
      Monitor.status Monitor.up_since Monitor.last_check
      Monitor.response_time_ms].
    rewrite Hnow, Hout, Hrt. repeat split.
  - now rewrite !(find_after_check_other _ _ _ _ Hne).
Qed.

Lemma run_check_ignores_certificate_witness :
  find_monitor (monitors (db_of secure_site)) "s1" = Some secure_site /\
  incident_exists (db_of secure_site) (uuid8 world_cert_ok) = false /\
  same_but_certificate world_cert_ok world_cert_fails /\
  exists s1 s2,
    run_check (db_of secure_site) world_cert_ok "s1" = Ok (s1, true) /\
    run_check (db_of secure_site) world_cert_fails "s1" = Ok (s2, true) /\
    heartbeats s1 = heartbeats s2 /\
    option_map Monitor.cert_expiry_days (find_monitor (monitors s1) "s1")
    = Some (Some 12) /\
    option_map Monitor.cert_expiry_days (find_monitor (monitors s2) "s1")
    = Some None.
Proof.
  assert (Hsame : same_but_certificate world_cert_ok world_cert_fails)
    by (repeat split).
  split; [reflexivity|]. split; [reflexivity|]. split; [exact Hsame|].
  destruct (run_check_ignores_certificate (db_of secure_site) world_cert_ok
              world_cert_fails "s1" secure_site eq_refl eq_refl Hsame)
    as (s1 & s2 & up & Hrun1 & Hrun2 & Hhb & _).
  assert (Hval1 : run_check (db_of secure_site) world_cert_ok "s1"
                  = Ok (after_check (db_of secure_site) world_cert_ok
                          secure_site, true)) by reflexivity.
  assert (Hval2 : run_check (db_of secure_site) world_cert_fails "s1"
                  = Ok (after_check (db_of secure_site) world_cert_fails
                          secure_site, true)) by reflexivity.
  rewrite Hval1 in Hrun1. rewrite Hval2 in Hrun2.
  injection Hrun1 as <- <-. injection Hrun2 as <-.
  eexists. eexists. split; [exact Hval1|]. split; [exact Hval2|].
  split; [exact Hhb|]. split; reflexivity.
Defined.

(** X5.  [run_check] records a certificate expiry only for a monitor of
    type [http] whose target starts with [https://], whose URL answered
    and whose certificate was read; for every other monitor, and on
    every other outcome, it sets [cert_expiry_days] to NULL, whatever
    was stored before. *)
Theorem run_check_certificate_only_for_https :
  forall s w monitor_id m,
    find_monitor (monitors s) monitor_id = Some m ->
    incident_exists s (uuid8 w) = false ->
    exists s' m',
      run_check s w monitor_id = Ok (s', outcome m w =s? "up") /\
      find_monitor (monitors s') monitor_id = Some m' /\
      (forall d, Monitor.cert_expiry_days m' = Some d ->
         Monitor.type m = "http" /\
         String.prefix "https://" (Monitor.target m) = true /\
         get_cert_expiry w (Monitor.target m) = CertDays d /\
         exists code rt,
           http_get w (Monitor.target m) (Monitor.timeout_s m)
           = HttpResponse code rt) /\
      (Monitor.type m <> "http" -> Monitor.cert_expiry_days m' = None) /\
      (String.prefix "https://" (Monitor.target m) = false ->
       Monitor.cert_expiry_days m' = None).
Proof.
  intros s w monitor_id m Hfind Hfresh.
  pose proof (find_monitor_id _ _ _ Hfind) as Hid. subst monitor_id.
  exists (after_check s w m), (checked m w).
  split; [now apply run_check_returns|].
  split; [now apply find_after_check|].
  change (Monitor.cert_expiry_days (checked m w))
    with (res_cert_expiry_days (probe m w)).
  split; [intros d; apply probe_cert_expiry|].
  split.
  - intros Hty. destruct (res_cert_expiry_days (probe m w)) as [d|] eqn:E;
      [|reflexivity].
    now destruct (probe_cert_expiry _ _ _ E) as (Hhttp & _).
  - intros Hpre. destruct (res_cert_expiry_days (probe m w)) as [d|] eqn:E;
      [|reflexivity].
    destruct (probe_cert_expiry _ _ _ E) as (_ & Hp & _). congruence.
Qed.

Lemma run_check_certificate_only_for_https_witness :
  find_monitor (monitors (db_of secure_site)) "s1" = Some secure_site /\
  incident_exists (db_of secure_site) "00000002" = false /\
  Monitor.cert_expiry_days secure_site = Some 13 /\
  exists s' m',
    run_check (db_of secure_site)
      (world_http (t0 + 60 * us_per_second) "00000002" times_out) "s1"
    = Ok (s', false) /\
    find_monitor (monitors s') "s1" = Some m' /\
    Monitor.cert_expiry_days m' = None.
Proof.
  split; [reflexivity|]. split; [reflexivity|]. split; [reflexivity|].
  destruct (run_check_certificate_only_for_https (db_of secure_site)
              (world_http (t0 + 60 * us_per_second) "00000002" times_out)
              "s1" secure_site eq_refl eq_refl)
    as (s' & m' & Hrun & Hfind & Honly & _ & _).
  exists s', m'. split; [exact Hrun|]. split; [exact Hfind|].
  destruct (Monitor.cert_expiry_days m') as [d|] eqn:E; [|reflexivity].
  destruct (Honly d eq_refl) as (_ & _ & _ & code & rt & Hget).
  discriminate Hget.
Defined.

(** ** Sequences of checks *)

Section Sequences.

Local Arguments String.eqb : simpl never.

Lemma probe_http m w :
  Monitor.type m = "http" ->
  probe m w
  = match http_get w (Monitor.target m) (Monitor.timeout_s m) with
    | HttpResponse status_code response_time =>
        mkResult (if status_code <? 400 then "up" else "down") None
          (Some response_time) (Some status_code)
          (if String.prefix "https://" (Monitor.target m) then
             match get_cert_expiry w (Monitor.target m) with
             | CertDays d => Some d
             | CertException _ => None
             end
           else None)
    | HttpException e => down_because e
    end.
Proof.
  intros Hty. unfold probe, dispatch, check_http. simpl.
  now rewrite Hty, !String.eqb_refl.
Qed.

Lemma opens_false_when_up m w : outcome m w = "up" -> opens m w = false.
Proof. intros H. unfold opens. rewrite H. apply andb_false_r. Qed.

(** A run of checks that all classify [up], on a monitor whose
    [up_since] is set, keeps that [up_since] and inserts no incident. *)
Lemma replay_ups_keep_up_since ws :
  forall s m t,
    find_monitor (monitors s) (Monitor.id m) = Some m ->
    Monitor.up_since m = Some t ->
    Forall (fun w => outcome m w = "up") ws ->
    exists s' m',
      replay s (Monitor.id m) ws = Ok s' /\
      find_monitor (monitors s') (Monitor.id m) = Some m' /\
      Monitor.up_since m' = Some t /\
      (ws <> [] -> Monitor.status m' = "up") /\
      incidents s' = incidents s.
Proof.
  induction ws as [|w ws IH]; intros s m t Hfind Hsince Hall.
  - exists s, m. repeat split; auto. intros H. now elim H.
  - inversion Hall as [|? ? Hw Hrest]; subst.
    pose proof (opens_false_when_up _ _ Hw) as Hquiet.
    assert (Hrest' : Forall (fun w' => outcome (checked m w) w' = "up") ws).
    { eapply Forall_impl; [|exact Hrest]. intros w'.
      now rewrite outcome_checked. }
    assert (Hsince' : Monitor.up_since (checked m w) = Some t).
    { rewrite up_since_checked. unfold next_up_since. now rewrite Hw, Hsince. }
    destruct (IH (after_check s w m) (checked m w) t
                (find_after_check _ _ _ Hfind) Hsince' Hrest')
      as (s' & m' & Hrun & Hfind' & Hup & Hst & Hinc).
    exists s', m'. simpl replay.
    rewrite (run_check_returns_quiet _ _ _ _ Hfind Hquiet).
    split; [exact Hrun|]. split; [exact Hfind'|]. split; [exact Hup|].
    split.
    + intros _. destruct ws as [|w' ws'].
      * simpl in Hrun. injection Hrun as <-.
        rewrite (find_after_check _ _ _ Hfind) in Hfind'.
        injection Hfind' as <-. now rewrite status_checked.
      * apply Hst. discriminate.
    + rewrite Hinc, incidents_after_check, Hquiet. apply app_nil_r.
Qed.

End Sequences.

(** X6.  For a monitor of type [http] whose persisted status is [up],
    the incident [run_check] opens carries the text of the transport
    exception as its cause; when the URL answered with a status code of
    400 or more the cause is ["Monitor down"]; a status code below 400
    opens nothing.  The incident starts at the time of the check, is
    open and not notified. *)
Theorem http_outage_cause :
  forall s w monitor_id m,
    find_monitor (monitors s) monitor_id = Some m ->
    Monitor.type m = "http" ->
    Monitor.status m = "up" ->
    incident_exists s (uuid8 w) = false ->
    exists s' up,
      run_check s w monitor_id = Ok (s', up) /\
      incidents s'
      = incidents s
        ++ match http_get w (Monitor.target m) (Monitor.timeout_s m) with
           | HttpException e =>
               [Incident.mk (uuid8 w) monitor_id (now w) None None e false]
           | HttpResponse status_code _ =>
               if status_code <? 400 then []
               else [Incident.mk (uuid8 w) monitor_id (now w) None None
                       "Monitor down" false]
           end.
Proof.
  intros s w monitor_id m Hfind Hty Hup Hfresh.
  pose proof (find_monitor_id _ _ _ Hfind) as Hid. subst monitor_id.
  exists (after_check s w m), (outcome m w =s? "up").
  split; [now apply run_check_returns|].
  rewrite incidents_after_check. f_equal.
  unfold opens, opened_incident, outcome. rewrite Hup, (probe_http _ _ Hty).
  destruct (http_get w (Monitor.target m) (Monitor.timeout_s m))
    as [code rt|e]; [|reflexivity].
  destruct (code <? 400); reflexivity.
Qed.

Lemma http_outage_cause_witness :
  find_monitor (monitors (db_of (site "up" (Some t0)))) "m1"
  = Some (site "up" (Some t0)) /\
  incident_exists (db_of (site "up" (Some t0))) "00000001" = false /\
  exists s' up,
    run_check (db_of (site "up" (Some t0)))
      (world_http (t0 + 60 * us_per_second) "00000001"
         (HttpResponse 503 (12 # 1))) "m1" = Ok (s', up) /\
    incidents s'
    = [Incident.mk "00000001" "m1" (t0 + 60 * us_per_second) None None
         "Monitor down" false].
Proof.
  split; [reflexivity|]. split; [reflexivity|].
  destruct (http_outage_cause (db_of (site "up" (Some t0)))
              (world_http (t0 + 60 * us_per_second) "00000001"
                 (HttpResponse 503 (12 # 1))) "m1" (site "up" (Some t0))
              eq_refl eq_refl eq_refl eq_refl)
    as (s' & up & Hrun & Hinc).
  exists s', up. split; [exact Hrun | exact Hinc].
Defined.

(** X7.  Replaying a sequence of checks for a monitor appends one
    heartbeat per check, in order, each with the time of its check, the
    status that check persisted and the response time the probe
    measured; no heartbeat is changed or removed. *)
Theorem replay_writes_one_heartbeat_per_check :
  forall ws s monitor_id m,
    find_monitor (monitors s) monitor_id = Some m ->
    fresh_supply s (map uuid8 ws) = true ->
    exists s',
      replay s monitor_id ws = Ok s' /\
      heartbeats s'
      = heartbeats s
        ++ map (fun w => Heartbeat.mk monitor_id (now w) (outcome m w)
                           (res_response_time_ms (probe m w))) ws.
Proof.
  induction ws as [|w ws IH]; intros s monitor_id m Hfind Hfresh.
  - exists s. simpl. now rewrite app_nil_r.
  - pose proof (find_monitor_id _ _ _ Hfind) as Hid. subst monitor_id.
    simpl in Hfresh.
    destruct (fresh_supply_head _ _ _ Hfresh) as [Hhead _].
    destruct (IH (after_check s w m) (Monitor.id m) (checked m w)
                (find_after_check _ _ _ Hfind)
                (fresh_supply_after_check s w m _ Hfresh))
      as (s' & Hrun & Hhb).
    exists s'. simpl replay. rewrite (run_check_returns _ _ _ _ Hfind Hhead).
    split; [exact Hrun|].
    rewrite Hhb. unfold after_check at 1. cbn [heartbeats].
    rewrite <- app_assoc. simpl. do 2 f_equal.
    apply map_ext. intros w'.
    now rewrite outcome_checked, probe_checked.
Qed.

Lemma replay_writes_one_heartbeat_per_check_witness :
  find_monitor (monitors (db_of (site "unknown" None))) "m1"
  = Some (site "unknown" None) /\
  fresh_supply (db_of (site "unknown" None)) ["00000001"; "00000002"] = true /\
  exists s',
    replay (db_of (site "unknown" None)) "m1"
      [world_http t0 "00000001" answers_200;
       world_http (t0 + 60 * us_per_second) "00000002" times_out]
    = Ok s' /\
    heartbeats s'
    = [Heartbeat.mk "m1" t0 "up" (Some (50 # 1));
       Heartbeat.mk "m1" (t0 + 60 * us_per_second) "down" None].
Proof.
  split; [reflexivity|]. split; [reflexivity|].
  destruct (replay_writes_one_heartbeat_per_check
              [world_http t0 "00000001" answers_200;
               world_http (t0 + 60 * us_per_second) "00000002" times_out]
              (db_of (site "unknown" None)) "m1" (site "unknown" None)
              eq_refl eq_refl)
    as (s' & Hrun & Hhb).
  exists s'. split; [exact Hrun | exact Hhb].
Defined.

(** X8.  When a monitor whose [up_since] is NULL is checked [up] several
    times in a row, [up_since] is the time of the first of these checks
    and stays there; the run opens no incident and needs no uuid. *)
Theorem up_since_dates_from_first_up :
  forall s w ws monitor_id m,
    find_monitor (monitors s) monitor_id = Some m ->
    Monitor.up_since m = None ->
    Forall (fun w' => outcome m w' = "up") (w :: ws) ->
    exists s' m',
      replay s monitor_id (w :: ws) = Ok s' /\
      find_monitor (monitors s') monitor_id = Some m' /\
      Monitor.status m' = "up" /\
      Monitor.up_since m' = Some (now w) /\
      incidents s' = incidents s.
Proof.
  intros s w ws monitor_id m Hfind Hnone Hall.
  pose proof (find_monitor_id _ _ _ Hfind) as Hid. subst monitor_id.
  inversion Hall as [|? ? Hw Hrest]; subst.
  pose proof (opens_false_when_up _ _ Hw) as Hquiet.
  assert (Hrest' : Forall (fun w' => outcome (checked m w) w' = "up") ws).
  { eapply Forall_impl; [|exact Hrest]. intros w'.
    now rewrite outcome_checked. }
  assert (Hsince : Monitor.up_since (checked m w) = Some (now w)).
  { rewrite up_since_checked. now apply next_up_since_entering. }
  destruct (replay_ups_keep_up_since ws (after_check s w m) (checked m w)
              (now w) (find_after_check _ _ _ Hfind) Hsince Hrest')
    as (s' & m' & Hrun & Hfind' & Hup & Hst & Hinc).
  exists s', m'. simpl replay.
  rewrite (run_check_returns_quiet _ _ _ _ Hfind Hquiet).
  split; [exact Hrun|]. split; [exact Hfind'|].
  split; [|split; [exact Hup|]].
  - destruct ws as [|w' ws'].
    + simpl in Hrun. injection Hrun as <-.
      change (Monitor.id (checked m w)) with (Monitor.id m) in Hfind'.
      rewrite (find_after_check _ _ _ Hfind) in Hfind'.
      injection Hfind' as <-. now rewrite status_checked.
    + apply Hst. discriminate.
  - rewrite Hinc, incidents_after_check, Hquiet. apply app_nil_r.
Qed.

Lemma up_since_dates_from_first_up_witness :
  find_monitor (monitors (db_of (site "down" None))) "m1"
  = Some (site "down" None) /\
  exists s' m',
    replay (db_of (site "down" None)) "m1"
      [world_http t0 "00000001" answers_200;
       world_http (t0 + 60 * us_per_second) "00000001" answers_200;
       world_http (t0 + 120 * us_per_second) "00000001" answers_200]
    = Ok s' /\
    find_monitor (monitors s') "m1" = Some m' /\
    Monitor.up_since m' = Some t0.
Proof.
  split; [reflexivity|].
  destruct (up_since_dates_from_first_up (db_of (site "down" None))
              (world_http t0 "00000001" answers_200)
              [world_http (t0 + 60 * us_per_second) "00000001" answers_200;
               world_http (t0 + 120 * us_per_second) "00000001" answers_200]
              "m1" (site "down" None) eq_refl eq_refl
              ltac:(repeat constructor))
    as (s' & m' & Hrun & Hfind & _ & Hsince & _).
  exists s', m'. split; [exact Hrun|]. split; [exact Hfind | exact Hsince].
Defined.

(** ** One cycle of the runner *)

Section Cycle.

Local Arguments String.eqb : simpl never.

Lemma find_monitor_some l monitor_id :
  In monitor_id (map Monitor.id l) ->
  exists m, find_monitor l monitor_id = Some m.
Proof.
  induction l as [|a l IH]; simpl; [intros []|].
  destruct (Monitor.id a =s? monitor_id) eqn:E; [eauto|].
  intros [H|H]; [|now apply IH].
  apply String.eqb_neq in E. contradiction.
Qed.

Lemma find_monitor_in_ids l monitor_id m :
  find_monitor l monitor_id = Some m -> In monitor_id (map Monitor.id l).
Proof.
  induction l as [|a l IH]; simpl; [discriminate|].
  destruct (Monitor.id a =s? monitor_id) eqn:E.
  - intros _. left. now apply String.eqb_eq.
  - intros H. right. now apply IH.
Qed.

Lemma dict_get_set_same d k v : dict_get (dict_set d k v) k = Some v.
Proof.
  induction d as [|[a b] d IH]; simpl.
  - now rewrite String.eqb_refl.
  - destruct (a =s? k) eqn:E; simpl; now rewrite E.
Qed.

Lemma dict_get_set_other d k v k' :
  k' <> k -> dict_get (dict_set d k v) k' = dict_get d k'.
Proof.
  intros Hne. induction d as [|[a b] d IH]; simpl.
  - destruct (k =s? k') eqn:E; [|reflexivity].
    apply String.eqb_eq in E. congruence.
  - destruct (a =s? k) eqn:E; simpl.
    + apply String.eqb_eq in E. subst a.
      destruct (k =s? k') eqn:E'; [|reflexivity].
      apply String.eqb_eq in E'. congruence.
    + now rewrite IH.
Qed.

Lemma dict_get_keys d k :
  In k (keys d) -> exists v, dict_get d k = Some v.
Proof.
  unfold keys. induction d as [|[a b] d IH]; simpl; [intros []|].
  destruct (a =s? k) eqn:E; [eauto|].
  intros [H|H]; [|now apply IH].
  apply String.eqb_neq in E. contradiction.
Qed.

(** What the loop leaves behind when every id it is given is in the
    table and the uuids are fresh. *)
Lemma run_checks_loop_effect env ids :
  forall n s results,
    (forall x, In x ids -> In x (map Monitor.id (monitors s))) ->
    fresh_supply s (map (fun k => uuid8 (env k)) (seq n (List.length ids)))
    = true ->
    (forall k b, dict_get results k = Some b ->
       exists m, find_monitor (monitors s) k = Some m
                 /\ b = (Monitor.status m =s? "up")) ->
    exists s' results',
      run_checks_loop env n ids s results = (s', Ok results') /\
      map Heartbeat.monitor_id (heartbeats s')
      = map Heartbeat.monitor_id (heartbeats s) ++ ids /\
      map Monitor.id (monitors s') = map Monitor.id (monitors s) /\
      (forall x, ~ In x ids ->
         find_monitor (monitors s') x = find_monitor (monitors s) x) /\
      (forall k b, dict_get results' k = Some b ->
         exists m, find_monitor (monitors s') k = Some m
                   /\ b = (Monitor.status m =s? "up")).
Proof.
  induction ids as [|a ids IH]; intros n s results Hin Hfresh Hrep.
  - exists s, results. rewrite app_nil_r. repeat split; auto.
  - destruct (find_monitor_some (monitors s) a (Hin a (or_introl eq_refl)))
      as [m Hfind].
    pose proof (find_monitor_id _ _ _ Hfind) as Hid. subst a.
    simpl in Hfresh.
    destruct (fresh_supply_head _ _ _ Hfresh) as [Hhead _].
    simpl run_checks_loop.
    rewrite (run_check_returns _ _ _ _ Hfind Hhead).
    destruct (IH (S n) (after_check s (env n) m)
                (dict_set results (Monitor.id m) (outcome m (env n) =s? "up")))
      as (s' & results' & Hrun & Hhb & Hids & Hframe & Hrep').
    + intros x Hx. rewrite after_check_ids. apply Hin. now right.
    + exact (fresh_supply_after_check s (env n) m _ Hfresh).
    + intros k b Hget.
      destruct (String.eqb_spec k (Monitor.id m)) as [->|Hne].
      * rewrite dict_get_set_same in Hget. injection Hget as <-.
        exists (checked m (env n)).
        split; [now apply find_after_check | reflexivity].
      * rewrite dict_get_set_other in Hget by assumption.
        rewrite find_after_check_other by assumption. now apply Hrep.
    + exists s', results'. split; [exact Hrun|].
      split.
      { rewrite Hhb. unfold after_check. cbn [heartbeats].
        rewrite map_app, <- app_assoc. reflexivity. }
      split; [now rewrite Hids, after_check_ids|].
      split; [|exact Hrep'].
      intros x Hx. rewrite Hframe by (intros H; apply Hx; now right).
      apply find_after_check_other. intros ->. apply Hx. now left.
Qed.

Lemma select_not_paused_ids s x :
  In x (select_not_paused s) -> In x (map Monitor.id (monitors s)).
Proof.
  unfold select_not_paused. rewrite !in_map_iff.
  intros (m & Hid & Hm). apply filter_In in Hm. exists m. tauto.
Qed.

Lemma paused_not_selected s monitor_id m :
  NoDup (map Monitor.id (monitors s)) ->
  find_monitor (monitors s) monitor_id = Some m ->
  Monitor.status m = "paused" ->
  ~ In monitor_id (select_not_paused s).
Proof.
  unfold select_not_paused. induction (monitors s) as [|a l IH]; simpl;
    [discriminate|].
  intros Hnd Hfind Hst. inversion Hnd as [|? ? Hnotin Hnd']; subst.
  destruct (Monitor.id a =s? monitor_id) eqn:E.
  - injection Hfind as <-. apply String.eqb_eq in E. subst monitor_id.
    rewrite Hst. simpl. intros H. apply Hnotin.
    apply in_map_iff in H. destruct H as (x & Hx & Hin).
    apply filter_In in Hin. apply in_map_iff. exists x. tauto.
  - apply String.eqb_neq in E.
    destruct (negb (Monitor.status a =s? "paused")); simpl.
    + intros [H|H]; [contradiction | now apply (IH Hnd' Hfind Hst)].
    + now apply IH.
Qed.

End Cycle.

(** X9.  One cycle of [run_all_checks] appends exactly one heartbeat for
    each monitor that was not paused when the cycle started, in the
    order of the table, and neither adds nor removes a monitor. *)
Theorem run_all_checks_one_heartbeat_each :
  forall s env,
    fresh_supply s
      (map (fun k => uuid8 (env k))
           (seq 0 (List.length (select_not_paused s)))) = true ->
    exists s' results,
      run_all_checks s env = (s', Ok results) /\
      map Heartbeat.monitor_id (heartbeats s')
      = map Heartbeat.monitor_id (heartbeats s) ++ select_not_paused s /\
      map Monitor.id (monitors s') = map Monitor.id (monitors s).
Proof.
  intros s env Hfresh.
  destruct (run_checks_loop_effect env (select_not_paused s) 0%nat s []
              (select_not_paused_ids s) Hfresh)
    as (s' & results & Hrun & Hhb & Hids & _); [discriminate|].
  exists s', results. repeat split; assumption.
Qed.

Lemma run_all_checks_one_heartbeat_each_witness :
  fresh_supply db_mixed
    (map (fun k => uuid8 (env_200 k))
         (seq 0 (List.length (select_not_paused db_mixed)))) = true /\
  exists s' results,
    run_all_checks db_mixed env_200 = (s', Ok results) /\
    map Heartbeat.monitor_id (heartbeats s') = ["x1"; "u1"].
Proof.
  split; [reflexivity|].
  destruct (run_all_checks_one_heartbeat_each db_mixed env_200 eq_refl)
    as (s' & results & Hrun & Hhb & _).
  exists s', results. split; [exact Hrun | exact Hhb].
Defined.

(** X10.  A cycle leaves the row of a paused monitor exactly as it was:
    status, [up_since], [last_check], response time and certificate
    days. *)
Theorem run_all_checks_leaves_paused_row :
  forall s env monitor_id m,
    fresh_supply s
      (map (fun k => uuid8 (env k))
           (seq 0 (List.length (select_not_paused s)))) = true ->
    NoDup (map Monitor.id (monitors s)) ->
    find_monitor (monitors s) monitor_id = Some m ->
    Monitor.status m = "paused" ->
    exists s' results,
      run_all_checks s env = (s', Ok results) /\
      find_monitor (monitors s') monitor_id = Some m /\
      dict_get results monitor_id = None.
Proof.
  intros s env monitor_id m Hfresh Hnd Hfind Hst.
  pose proof (paused_not_selected _ _ _ Hnd Hfind Hst) as Hnot.
  destruct (run_checks_loop_effect env (select_not_paused s) 0%nat s []
              (select_not_paused_ids s) Hfresh)
    as (s' & results & Hrun & _ & _ & Hframe & _); [discriminate|].
  exists s', results. split; [exact Hrun|].
  split; [now rewrite Hframe|].
  destruct (run_checks_loop_keys env (select_not_paused s) 0%nat s [] Hfresh)
    as (s2 & results2 & Hrun2 & Hkeys).
  rewrite Hrun in Hrun2. injection Hrun2 as _ <-.
  destruct (dict_get results monitor_id) as [b|] eqn:E; [|reflexivity].
  exfalso. apply Hnot.
  assert (Hk : In monitor_id (keys results)).
  { clear - E. unfold keys. induction results as [|[a v] d IH];
      simpl in *; [discriminate|].
    destruct (a =s? monitor_id) eqn:E'.
    - left. now apply String.eqb_eq.
    - right. now apply IH. }
  apply Hkeys in Hk. simpl in Hk. tauto.
Qed.

Lemma run_all_checks_leaves_paused_row_witness :
  fresh_supply db_mixed
    (map (fun k => uuid8 (env_200 k))
         (seq 0 (List.length (select_not_paused db_mixed)))) = true /\
  exists s' results,
    run_all_checks db_mixed env_200 = (s', Ok results) /\
    find_monitor (monitors s') "p1" = find_monitor (monitors db_mixed) "p1".
Proof.
  split; [reflexivity|].
  assert (Hnd : NoDup (map Monitor.id (monitors db_mixed))).
  { simpl. repeat constructor; simpl; intuition discriminate. }
  destruct (run_all_checks_leaves_paused_row db_mixed env_200 "p1" _
              eq_refl Hnd eq_refl eq_refl)
    as (s' & results & Hrun & Hfind & _).
  exists s', results. split; [exact Hrun | exact Hfind].
Defined.

(** X11.  The dictionary [run_all_checks] returns maps every monitor
    that was not paused to whether its status after the cycle is [up]. *)
Theorem run_all_checks_reports_up :
  forall s env,
    fresh_supply s
      (map (fun k => uuid8 (env k))
           (seq 0 (List.length (select_not_paused s)))) = true ->
    exists s' results,
      run_all_checks s env = (s', Ok results) /\
      forall monitor_id,
        In monitor_id (select_not_paused s) ->
        exists m' up,
          dict_get results monitor_id = Some up /\
          find_monitor (monitors s') monitor_id = Some m' /\
          (up = true <-> Monitor.status m' = "up").
Proof.
  intros s env Hfresh.
  destruct (run_checks_loop_effect env (select_not_paused s) 0%nat s []
              (select_not_paused_ids s) Hfresh)
    as (s' & results & Hrun & _ & _ & _ & Hrep); [discriminate|].
  destruct (run_checks_loop_keys env (select_not_paused s) 0%nat s [] Hfresh)
    as (s2 & results2 & Hrun2 & Hkeys).
  unfold run_all_checks. rewrite Hrun in Hrun2. injection Hrun2 as _ <-.
  exists s', results. split; [exact Hrun|].
  intros monitor_id Hin.
  destruct (dict_get_keys results monitor_id) as [up Hget].
  { apply Hkeys. now right. }
  destruct (Hrep _ _ Hget) as (m' & Hfind & Hup).
  exists m', up. split; [exact Hget|]. split; [exact Hfind|].
  rewrite Hup. apply String.eqb_eq.
Qed.

Lemma run_all_checks_reports_up_witness :
  fresh_supply db_mixed
    (map (fun k => uuid8 (env_200 k))
         (seq 0 (List.length (select_not_paused db_mixed)))) = true /\
  exists s' results m',
    run_all_checks db_mixed env_200 = (s', Ok results) /\
    dict_get results "x1" = Some true /\
    find_monitor (monitors s') "x1" = Some m' /\ Monitor.status m' = "up".
Proof.
  split; [reflexivity|].
  destruct (run_all_checks_reports_up db_mixed env_200 eq_refl)
    as (s' & results & Hrun & Hall).
  destruct (Hall "x1") as (m' & up & Hget & Hfind & Hiff).
  { simpl. now left. }
  assert (Hval : snd (run_all_checks db_mixed env_200)
                 = Ok [("x1", true); ("u1", true)]) by reflexivity.
  rewrite Hrun in Hval. simpl in Hval. injection Hval as ->.
  simpl in Hget. injection Hget as <-.
  exists s', [("x1", true); ("u1", true)], m'.
  split; [exact Hrun|]. split; [reflexivity|]. split; [exact Hfind|].
  now apply Hiff.
Defined.

(** ** More on the metrics *)

Section MetricFacts.

Local Arguments String.eqb : simpl never.

Lemma non_null_app {A : Type} (l1 l2 : list (option A)) :
  non_null (l1 ++ l2) = non_null l1 ++ non_null l2.
Proof.
  induction l1 as [|[a|] l1 IH]; simpl; [reflexivity| |exact IH].
  now rewrite IH.
Qed.

Lemma summed_durations_nonneg (l : list Incident.t) :
  (forall i d, In i l -> Incident.duration_s i = Some d -> 0 <= d) ->
  0 <= fold_right Z.add 0 (non_null (map Incident.duration_s l)).
Proof.
  induction l as [|i l IH]; intros H; simpl; [lia|].
  assert (IH' := IH (fun j d Hj => H j d (or_intror Hj))).
  destruct (Incident.duration_s i) as [d|] eqn:E; [|exact IH'].
  simpl. pose proof (H i d (or_introl eq_refl) E). lia.
Qed.

Lemma percent_at_most_100 (downtime total : Z) :
  0 <= downtime -> 0 < total ->
  ((1 - inject_Z downtime / inject_Z total) * 100 <= 100)%Q.
Proof.
  intros Hd Ht.
  assert (0 <= inject_Z downtime / inject_Z total)%Q.
  { apply Qle_shift_div_l.
    - change 0%Q with (inject_Z 0). rewrite <- Zlt_Qlt. lia.
    - rewrite Qmult_0_l. change 0%Q with (inject_Z 0).
      rewrite <- Zle_Qle. lia. }
  lra.
Qed.

(** The rows [run_check] inserts do not enter [SUM(duration_s)]. *)
Lemma after_check_downtime s w m monitor_id cutoff :
  sql_sum
    (map Incident.duration_s
       (filter (fun i => (Incident.monitor_id i =s? monitor_id)
                         && (cutoff <? Incident.started_at i))
               (incidents (after_check s w m))))
  = sql_sum
      (map Incident.duration_s
         (filter (fun i => (Incident.monitor_id i =s? monitor_id)
                           && (cutoff <? Incident.started_at i))
                 (incidents s))).
Proof.
  rewrite incidents_after_check, filter_app, map_app.
  unfold sql_sum. rewrite non_null_app.
  destruct (opens m w); simpl; [|now rewrite app_nil_r].
  destruct ((Monitor.id m =s? monitor_id) && (cutoff <? now w)); simpl;
    now rewrite app_nil_r.
Qed.

Lemma Qsum_nonneg (vs : list Q) :
  (forall q, In q vs -> 0 <= q)%Q -> (0 <= Qsum vs)%Q.
Proof.
  induction vs as [|q vs IH]; intros H.
  - change (Qsum []) with 0%Q. lra.
  - assert (IH' := IH (fun x Hx => H x (or_intror Hx))).
    pose proof (H q (or_introl eq_refl)) as Hq.
    change (Qsum (q :: vs)) with (q + Qsum vs)%Q. lra.
Qed.

Lemma mean_nonneg (vs : list Q) :
  vs <> [] ->
  (forall q, In q vs -> 0 <= q)%Q ->
  (0 <= spec_mean vs)%Q.
Proof.
  intros Hne H. pose proof (Qsum_nonneg vs H) as Hsum.
  assert (Hpos : (0 < inject_Z (Z.of_nat (List.length vs)))%Q).
  { change 0%Q with (inject_Z 0). rewrite <- Zlt_Qlt.
    destruct vs; [contradiction | simpl; lia]. }
  unfold spec_mean. apply Qle_shift_div_l; [exact Hpos|]. lra.
Qed.

Lemma window_values_from_heartbeats monitor_id cutoff l q :
  In q (spec_window_response_times monitor_id cutoff l) ->
  exists h, In h l /\ Heartbeat.monitor_id h = monitor_id
            /\ cutoff < Heartbeat.timestamp h
            /\ Heartbeat.response_time_ms h = Some q.
Proof.
  unfold spec_window_response_times.
  induction l as [|h l IH]; simpl; [intros []|].
  destruct (Heartbeat.monitor_id h =s? monitor_id) eqn:E;
    [|intros H; destruct (IH H) as (x & ? & ?); eauto].
  destruct (cutoff <? Heartbeat.timestamp h) eqn:E';
    [|intros H; destruct (IH H) as (x & ? & ?); eauto].
  simpl. destruct (Heartbeat.response_time_ms h) as [v|] eqn:Ev.
  - intros [<-|H].
    + exists h. apply String.eqb_eq in E. apply Z.ltb_lt in E'. auto.
    + destruct (IH H) as (x & ? & ?); eauto.
  - intros H. destruct (IH H) as (x & ? & ?); eauto.
Qed.

End MetricFacts.

(** X12.  Whenever [get_uptime_percent] returns, the percentage is at
    least 0; for a window of a positive number of days over incidents
    whose recorded durations are not negative it is at most 100. *)
Theorem get_uptime_percent_bounds :
  forall s w monitor_id days pct,
    get_uptime_percent s w monitor_id days = Ok pct ->
    (0 <= pct)%Q /\
    (0 < days ->
     (forall i d, In i (incidents s) -> Incident.duration_s i = Some d ->
                  0 <= d) ->
     (pct <= 100)%Q).
Proof.
  intros s w monitor_id days pct. unfold get_uptime_percent.
  destruct (datetime_sub_seconds (now w) (days * 86400)) as [cutoff|];
    [|discriminate].
  destruct (days * 86400 =? 0); [discriminate|].
  intros [= <-]. split; [apply Q.le_max_l|].
  intros Hdays Hdur. apply Q.max_lub; [discriminate|].
  rewrite sql_sum_or_zero. apply percent_at_most_100; [|lia].
  apply summed_durations_nonneg.
  intros i d Hi. apply filter_In in Hi. now apply Hdur.
Qed.

Lemma get_uptime_percent_bounds_witness :
  exists pct,
    get_uptime_percent db_history world_later "m1" 1 = Ok pct /\
    (0 <= pct)%Q /\ (pct <= 100)%Q.
Proof.
  assert (Hrun : get_uptime_percent db_history world_later "m1" 1
                 = Ok (spec_uptime_percent 120 1)) by reflexivity.
  destruct (get_uptime_percent_bounds db_history world_later "m1" 1 _ Hrun)
    as [Hlo Hhi].
  eexists. split; [exact Hrun|]. split; [exact Hlo|].
  apply Hhi; [lia|].
  intros i d [<-|[<-|[]]]; simpl; intros [= <-]. lia.
Defined.

(** X13.  [run_check] never changes an uptime percentage: the incident
    it may insert has no duration, so for every monitor and window
    [get_uptime_percent] gives the same answer after the check as
    before it.  Downtime enters the percentage only when an incident is
    resolved. *)
Theorem run_check_keeps_uptime_percent :
  forall s w monitor_id s' up,
    run_check s w monitor_id = Ok (s', up) ->
    forall w' other days,
      get_uptime_percent s' w' other days = get_uptime_percent s w' other days.
Proof.
  intros s w monitor_id s' up Hrun w' other days.
  destruct (find_monitor (monitors s) monitor_id) as [m|] eqn:Hfind.
  - rewrite (run_check_found _ _ _ _ Hfind) in Hrun.
    destruct (opens m w && incident_exists s (uuid8 w)); [discriminate|].
    injection Hrun as <- _. unfold get_uptime_percent.
    destruct (datetime_sub_seconds (now w') (days * 86400)); [|reflexivity].
    now rewrite after_check_downtime.
  - rewrite (run_check_missing _ _ _ Hfind) in Hrun. now injection Hrun as <- _.
Qed.

Lemma run_check_keeps_uptime_percent_witness :
  exists s',
    run_check (db_of (site "up" (Some t0)))
      (world_http (t0 + 60 * us_per_second) "00000001" times_out) "m1"
    = Ok (s', false) /\
    List.length (open_incidents s' "m1") = 1%nat /\
    get_uptime_percent s' world_later "m1" 1
    = get_uptime_percent (db_of (site "up" (Some t0))) world_later "m1" 1.
Proof.
  exists (after_check (db_of (site "up" (Some t0)))
            (world_http (t0 + 60 * us_per_second) "00000001" times_out)
            (site "up" (Some t0))).
  split; [reflexivity|]. split; [reflexivity|].
  apply (run_check_keeps_uptime_percent (db_of (site "up" (Some t0)))
           (world_http (t0 + 60 * us_per_second) "00000001" times_out)
           "m1" _ false).
  reflexivity.
Defined.

(** X14.  When no response time recorded for a monitor is negative,
    the average that [get_response_time_avg] returns is not negative
    either, for every window. *)
Theorem get_response_time_avg_nonneg :
  forall s w monitor_id hours avg,
    get_response_time_avg s w monitor_id hours = Ok avg ->
    (forall h q, In h (heartbeats s) ->
                 Heartbeat.monitor_id h = monitor_id ->
                 Heartbeat.response_time_ms h = Some q ->
                 (0 <= q)%Q) ->
    (0 <= avg)%Q.
Proof.
  intros s w monitor_id hours avg. unfold get_response_time_avg.
  destruct (datetime_sub_seconds (now w) (hours * 3600)) as [cutoff|];
    [|discriminate].
  unfold sql_avg. rewrite non_null_response_times.
  destruct (spec_window_response_times monitor_id cutoff (heartbeats s))
    as [|q vs] eqn:Hvs.
  - intros [= <-] _. discriminate.
  - intros Havg Hall.
    assert (Hmean : (0 <= spec_mean (q :: vs))%Q).
    { apply mean_nonneg; [discriminate|].
      intros x Hx. rewrite <- Hvs in Hx.
      destruct (window_values_from_heartbeats _ _ _ _ Hx)
        as (h & Hin & Hmon & _ & Hrt).
      now apply (Hall h). }
    unfold spec_mean in Hmean.
    destruct (Qeq_bool (Qsum (q :: vs)
                        / inject_Z (Z.of_nat (List.length (q :: vs)))) 0);
      injection Havg as <-; [discriminate | exact Hmean].
Qed.

Lemma get_response_time_avg_nonneg_witness :
  exists avg,
    get_response_time_avg db_history world_later "m1" 24 = Ok avg /\
    (0 <= avg)%Q.
Proof.
  eexists. split; [reflexivity|].
  apply (get_response_time_avg_nonneg db_history world_later "m1" 24 _
           eq_refl).
  intros h q [<-|[<-|[<-|[<-|[]]]]] _; simpl; intros [= <-]; discriminate.
Defined.

(** X15.  A check of one monitor does not change the average response
    time of another monitor, whatever the window. *)
Theorem run_check_keeps_other_average :
  forall s w monitor_id s' up,
    run_check s w monitor_id = Ok (s', up) ->
    forall w' other hours,
      other <> monitor_id ->
      get_response_time_avg s' w' other hours
      = get_response_time_avg s w' other hours.
Proof.
  intros s w monitor_id s' up Hrun w' other hours Hne.
  destruct (find_monitor (monitors s) monitor_id) as [m|] eqn:Hfind.
  - pose proof (find_monitor_id _ _ _ Hfind) as Hid.
    rewrite (run_check_found _ _ _ _ Hfind) in Hrun.
    destruct (opens m w && incident_exists s (uuid8 w)); [discriminate|].
    injection Hrun as <- _. unfold get_response_time_avg.
    destruct (datetime_sub_seconds (now w') (hours * 3600)); [|reflexivity].
    unfold after_check. cbn [heartbeats]. rewrite filter_app. simpl.
    assert (E : (Monitor.id m =s? other) = false).
    { apply String.eqb_neq. congruence. }
    rewrite E. simpl. now rewrite app_nil_r.
  - rewrite (run_check_missing _ _ _ Hfind) in Hrun. now injection Hrun as <- _.
Qed.

Lemma run_check_keeps_other_average_witness :
  exists s',
    run_check db_mixed (world_http (t0 + 60 * us_per_second) "00000001"
                          answers_200) "u1" = Ok (s', true) /\
    get_response_time_avg s' world_later "x1" 24
    = get_response_time_avg db_mixed world_later "x1" 24.
Proof.
  exists (after_check db_mixed
            (world_http (t0 + 60 * us_per_second) "00000001" answers_200)
            (Monitor.mk "u1" "live site" "http" "http://u.example" 60 10 0
               "up" (Some t0) (Some t0) (Some (50 # 1)) None [])).
  split; [reflexivity|].
  apply (run_check_keeps_other_average db_mixed
           (world_http (t0 + 60 * us_per_second) "00000001" answers_200)
           "u1" _ true); [reflexivity | discriminate].
Defined.

(** ** Listing and resolving incidents *)

Section Listing.

Local Arguments String.eqb : simpl never.

Lemma find_incident_exists s incident_id :
  incident_exists s incident_id
  = match find_incident (incidents s) incident_id with
    | Some _ => true
    | None => false
    end.
Proof.
  unfold incident_exists. induction (incidents s) as [|a l IH]; simpl;
    [reflexivity|].
  destruct (Incident.id a =s? incident_id); [reflexivity | exact IH].
Qed.

Lemma update_incident_absent incident_id f l :
  existsb (fun i => Incident.id i =s? incident_id) l = false ->
  update_incident incident_id f l = l.
Proof.
  unfold update_incident. induction l as [|a l IH]; simpl; [reflexivity|].
  destruct (Incident.id a =s? incident_id); simpl; [discriminate|].
  intros H. now rewrite IH.
Qed.

Lemma filter_absent incident_id (l : list Incident.t) :
  existsb (fun i => Incident.id i =s? incident_id) l = false ->
  filter (fun i => negb (Incident.id i =s? incident_id)) l = l.
Proof.
  induction l as [|a l IH]; simpl; [reflexivity|].
  destruct (Incident.id a =s? incident_id); simpl; [discriminate|].
  intros H. now rewrite IH.
Qed.

Lemma filter_monitor_update m incident_id t d l :
  filter (fun i => Incident.monitor_id i =s? m)
         (update_incident incident_id (set_resolved t d) l)
  = update_incident incident_id (set_resolved t d)
      (filter (fun i => Incident.monitor_id i =s? m) l).
Proof.
  unfold update_incident. induction l as [|a l IH]; simpl; [reflexivity|].
  destruct (Incident.id a =s? incident_id) eqn:E; simpl;
    destruct (Incident.monitor_id a =s? m); simpl; rewrite ?E, IH;
    reflexivity.
Qed.

Lemma filter_open_update incident_id t d l :
  filter is_open (update_incident incident_id (set_resolved t d) l)
  = filter (fun i => negb (Incident.id i =s? incident_id)) (filter is_open l).
Proof.
  unfold update_incident. induction l as [|a l IH]; simpl; [reflexivity|].
  destruct (Incident.id a =s? incident_id) eqn:E; simpl.
  - destruct (is_open a); simpl; rewrite ?E; simpl; exact IH.
  - destruct (is_open a); simpl; rewrite ?E; simpl; now rewrite IH.
Qed.

Lemma filter_swap {A : Type} (p q : A -> bool) (l : list A) :
  filter p (filter q l) = filter q (filter p l).
Proof.
  rewrite !filter_twice. apply filter_ext. intros a. apply andb_comm.
Qed.

Lemma existsb_filter_false {A : Type} (p q : A -> bool) (l : list A) :
  existsb p l = false -> existsb p (filter q l) = false.
Proof.
  induction l as [|a l IH]; simpl; [reflexivity|].
  rewrite orb_false_iff. intros [Ha Hl].
  destruct (q a); simpl; [rewrite Ha|]; now apply IH.
Qed.

End Listing.

(** X16.  [get_incidents] lists an incident iff it is in the table, it
    belongs to the monitor asked for, and, with [open_only], it has no
    [resolved_at].  An empty monitor id counts as no monitor id: the
    incidents of every monitor are listed. *)
Theorem get_incidents_membership :
  forall s monitor_id open_only i,
    In i (get_incidents s monitor_id open_only) <->
    In i (incidents s) /\
    match monitor_id with
    | Some m => m = EmptyString \/ Incident.monitor_id i = m
    | None => True
    end /\
    (open_only = true -> Incident.resolved_at i = None).
Proof.
  intros s monitor_id open_only i.
  assert (Hopen : is_open i = true <-> Incident.resolved_at i = None).
  { unfold is_open. destruct (Incident.resolved_at i); split;
      congruence. }
  unfold get_incidents.
  destruct monitor_id as [m|];
    [destruct (String.eqb_spec m EmptyString) as [->|Hne]|];
    destruct open_only; rewrite ?filter_In, ?Hopen, ?String.eqb_eq;
    intuition congruence.
Qed.

(** X17.  [resolve_incident] returns whether an incident with that id
    exists.  If none does, the database is unchanged.  Afterwards no
    incident with that id is listed as open, the other open incidents
    are listed as before, and no incident was added or removed. *)
Theorem resolve_incident_closes :
  forall s w incident_id s' found,
    resolve_incident s w incident_id = (s', found) ->
    found = incident_exists s incident_id /\
    (found = false -> s' = s) /\
    map Incident.id (incidents s') = map Incident.id (incidents s) /\
    forall monitor_id,
      get_incidents s' monitor_id true
      = filter (fun i => negb (Incident.id i =s? incident_id))
               (get_incidents s monitor_id true).
Proof.
  intros s w incident_id s' found. unfold resolve_incident.
  rewrite find_incident_exists.
  destruct (find_incident (incidents s) incident_id) as [row|] eqn:Hfind;
    intros [= <- <-].
  - split; [reflexivity|]. split; [discriminate|].
    split.
    { cbn [incidents]. unfold update_incident. rewrite map_map.
      apply map_ext. intros a.
      destruct (String.eqb (Incident.id a) incident_id); reflexivity. }
    intros monitor_id. unfold get_incidents. cbn [incidents].
    destruct monitor_id as [m|];
      [destruct (String.eqb m EmptyString)|];
      rewrite ?filter_monitor_update; apply filter_open_update.
  - split; [reflexivity|]. split; [reflexivity|]. split; [reflexivity|].
    intros monitor_id. symmetry. apply filter_absent.
    assert (Hnone : existsb (fun i => String.eqb (Incident.id i) incident_id)
                      (incidents s) = false).
    { change (incident_exists s incident_id = false).
      now rewrite find_incident_exists, Hfind. }
    unfold get_incidents.
    destruct monitor_id as [m|];
      [destruct (String.eqb m EmptyString)|];
      repeat apply existsb_filter_false; exact Hnone.
Qed.

Lemma resolve_incident_closes_witness :
  resolve_incident db_history (clock (t0 + 400 * us_per_second)) "00000002"
  = (mkDb (monitors db_history) (heartbeats db_history)
       [Incident.mk "00000001" "m1" (t0 + 70 * us_per_second)
          (Some (t0 + 190 * us_per_second)) (Some 120) "timeout" false;
        Incident.mk "00000002" "m1" (t0 + 250 * us_per_second)
          (Some (t0 + 400 * us_per_second)) (Some 150) "timeout" false],
     true) /\
  List.length (get_incidents db_history (Some "m1") true) = 1%nat /\
  get_incidents
    (fst (resolve_incident db_history (clock (t0 + 400 * us_per_second))
            "00000002")) (Some "m1") true = [].
Proof.
  split; [reflexivity|]. split; [reflexivity|].
  destruct (resolve_incident_closes db_history
              (clock (t0 + 400 * us_per_second)) "00000002" _ _ eq_refl)
    as (_ & _ & _ & Hlist).
  exact (eq_trans (Hlist (Some "m1")) eq_refl).
Defined.

(** ** Resolution and the uptime percentage *)

Section Accounting.

Local Arguments String.eqb : simpl never.

Lemma get_uptime_percent_total s w monitor_id days cutoff :
  datetime_sub_seconds (now w) (days * 86400) = Some cutoff ->
  days <> 0 ->
  durations_follow_resolution (incidents s) = true ->
  get_uptime_percent s w monitor_id days
  = Ok (spec_uptime_percent
          (spec_total_down_seconds monitor_id cutoff (incidents s)) days).
Proof.
  intros Hcut Hdays Hwf. unfold get_uptime_percent. rewrite Hcut.
  destruct (days * 86400 =? 0) eqn:E; [apply Z.eqb_eq in E; lia|].
  rewrite sql_sum_or_zero, summed_durations_spec by assumption.
  reflexivity.
Qed.

Lemma not_in_ids_absent incident_id (l : list Incident.t) :
  ~ In incident_id (map Incident.id l) ->
  existsb (fun i => Incident.id i =s? incident_id) l = false.
Proof.
  induction l as [|a l IH]; simpl; [reflexivity|].
  intros H. apply orb_false_iff. split.
  - apply String.eqb_neq. intros E. apply H. now left.
  - apply IH. intros Hin. apply H. now right.
Qed.

(** Resolving an incident that counted for nothing adds its duration to
    the downtime of its monitor, when it started within the window. *)
Lemma spec_total_after_resolve l incident_id i t d monitor_id cutoff :
  NoDup (map Incident.id l) ->
  find_incident l incident_id = Some i ->
  spec_down_seconds i = 0 ->
  Incident.monitor_id i = monitor_id ->
  cutoff < Incident.started_at i ->
  spec_total_down_seconds monitor_id cutoff
    (update_incident incident_id (set_resolved t d) l)
  = spec_total_down_seconds monitor_id cutoff l + d.
Proof.
  intros Hnd Hfind Hzero Hmon Hwin.
  induction l as [|a l IH]; [discriminate|].
  inversion Hnd as [|? ? Hnotin Hnd']; subst.
  simpl in Hfind. unfold update_incident in *. simpl.
  destruct (Incident.id a =s? incident_id) eqn:E.
  - injection Hfind as ->. apply String.eqb_eq in E. subst incident_id.
    fold (update_incident (Incident.id i) (set_resolved t d) l).
    rewrite (update_incident_absent _ _ _ (not_in_ids_absent _ _ Hnotin)).
    simpl. rewrite String.eqb_refl.
    apply Z.ltb_lt in Hwin. rewrite Hwin. simpl.
    rewrite Hzero. unfold spec_down_seconds. simpl. lia.
  - rewrite (IH Hnd' Hfind). lia.
Qed.

Lemma uptime_percent_antitone (d1 d2 days : Z) :
  0 < days -> d1 <= d2 ->
  (spec_uptime_percent d2 days <= spec_uptime_percent d1 days)%Q.
Proof.
  intros Hdays Hle. unfold spec_uptime_percent.
  apply Q.max_le_compat_l.
  assert (Hpos : (0 < inject_Z (days * 86400))%Q).
  { change 0%Q with (inject_Z 0). rewrite <- Zlt_Qlt. lia. }
  assert (Hdiv : (inject_Z d1 / inject_Z (days * 86400)
                  <= inject_Z d2 / inject_Z (days * 86400))%Q).
  { apply Qle_shift_div_l; [exact Hpos|].
    unfold Qdiv. rewrite <- Qmult_assoc, (Qmult_comm (/ _)), Qmult_inv_r,
      Qmult_1_r by lra.
    now rewrite <- Zle_Qle. }
  lra.
Qed.

End Accounting.

(** X18.  Resolving an open incident is what makes its downtime count:
    for the incident's monitor and a window in which the incident
    started, the downtime behind [get_uptime_percent] grows by exactly
    the [duration_s] that [resolve_incident] wrote, and the percentage
    does not go up when that duration is not negative. *)
Theorem resolve_incident_counts_downtime :
  forall s w w2 incident_id i days cutoff,
    NoDup (map Incident.id (incidents s)) ->
    durations_follow_resolution (incidents s) = true ->
    find_incident (incidents s) incident_id = Some i ->
    Incident.resolved_at i = None ->
    datetime_sub_seconds (now w2) (days * 86400) = Some cutoff ->
    cutoff < Incident.started_at i ->
    0 < days ->
    exists s' before after,
      resolve_incident s w incident_id = (s', true) /\
      get_uptime_percent s w2 (Incident.monitor_id i) days = Ok before /\
      get_uptime_percent s' w2 (Incident.monitor_id i) days = Ok after /\
      before
      = spec_uptime_percent
          (spec_total_down_seconds (Incident.monitor_id i) cutoff
             (incidents s)) days /\
      after
      = spec_uptime_percent
          (spec_total_down_seconds (Incident.monitor_id i) cutoff
             (incidents s)
           + elapsed_seconds (Incident.started_at i) (now w)) days /\
      (Incident.started_at i <= now w -> (after <= before)%Q).
Proof.
  intros s w w2 incident_id i days cutoff Hnd Hwf Hfind Hopen Hcut Hwin Hdays.
  assert (Hzero : spec_down_seconds i = 0).
  { unfold spec_down_seconds. now rewrite Hopen. }
  eexists. eexists. eexists.
  split; [exact (resolve_incident_found _ _ _ _ Hfind)|].
  split; [apply (get_uptime_percent_total _ _ _ _ _ Hcut); [lia | exact Hwf]|].
  split.
  { rewrite (get_uptime_percent_total _ _ _ _ _ Hcut); [reflexivity | lia |].
    cbn [incidents]. now apply update_incident_durations. }
  split; [reflexivity|].
  cbn [incidents].
  rewrite (spec_total_after_resolve _ _ _ _ _ _ _ Hnd Hfind Hzero eq_refl Hwin).
  split; [reflexivity|].
  intros Hclock. apply uptime_percent_antitone; [exact Hdays|].
  destruct (elapsed_seconds_bounds _ _ Hclock) as [Hpos _]. lia.
Qed.

Lemma resolve_incident_counts_downtime_witness :
  find_incident (incidents db_history) "00000002"
  = Some (Incident.mk "00000002" "m1" (t0 + 250 * us_per_second) None None
            "timeout" false) /\
  durations_follow_resolution (incidents db_history) = true /\
  exists s' before after,
    resolve_incident db_history (clock (t0 + 400 * us_per_second)) "00000002"
    = (s', true) /\
    get_uptime_percent db_history world_later "m1" 1 = Ok before /\
    get_uptime_percent s' world_later "m1" 1 = Ok after /\
    before = spec_uptime_percent 120 1 /\
    after = spec_uptime_percent 270 1.
Proof.
  split; [reflexivity|]. split; [reflexivity|].
  assert (Hnd : NoDup (map Incident.id (incidents db_history))).
  { simpl. repeat constructor; simpl; intuition discriminate. }
  destruct (resolve_incident_counts_downtime db_history
              (clock (t0 + 400 * us_per_second)) world_later "00000002" _ 1
              (t0 + 3600 * us_per_second - 86400 * us_per_second)
              Hnd eq_refl eq_refl eq_refl eq_refl eq_refl eq_refl)
    as (s' & before & after & Hres & Hb & Ha & Hbv & Hav & _).
  exists s', before, after.
  split; [exact Hres|]. split; [exact Hb|]. split; [exact Ha|].
  split; [exact Hbv | exact Hav].
Defined.

(** ** The heartbeat history *)

Section HistoryFacts.

Lemma in_firstn {A : Type} n (l : list A) x : In x (firstn n l) -> In x l.
Proof.
  intros H. rewrite <- (firstn_skipn n l). apply in_or_app. now left.
Qed.

Lemma insert_desc_perm h l : Permutation (insert_desc h l) (h :: l).
Proof.
  induction l as [|a l IH]; simpl; [reflexivity|].
  destruct (Heartbeat.timestamp a <=? Heartbeat.timestamp h); [reflexivity|].
  rewrite IH. apply perm_swap.
Qed.

Lemma order_by_timestamp_desc_perm l :
  Permutation (order_by_timestamp_desc l) l.
Proof.
  induction l as [|a l IH]; simpl; [reflexivity|].
  rewrite insert_desc_perm. now constructor.
Qed.

Lemma insert_desc_sorted h l :
  StronglySorted newer_or_equal l ->
  StronglySorted newer_or_equal (insert_desc h l).
Proof.
  induction 1 as [|a l Hl IH Ha]; simpl.
  - repeat constructor.
  - destruct (Heartbeat.timestamp a <=? Heartbeat.timestamp h) eqn:E.
    + apply Z.leb_le in E. constructor; [now constructor|].
      constructor; [exact E|].
      eapply Forall_impl; [|exact Ha]. unfold newer_or_equal. intros; lia.
    + apply Z.leb_gt in E. constructor; [exact IH|].
      rewrite (insert_desc_perm h l).
      constructor; [unfold newer_or_equal; lia | exact Ha].
Qed.

Lemma order_by_timestamp_desc_sorted l :
  StronglySorted newer_or_equal (order_by_timestamp_desc l).
Proof.
  induction l as [|a l IH]; simpl; [constructor|].
  now apply insert_desc_sorted.
Qed.

Lemma firstn_sorted {A : Type} (R : A -> A -> Prop) n l :
  StronglySorted R l -> StronglySorted R (firstn n l).
Proof.
  intros H. revert n. induction H as [|a l Hl IH Ha]; intros [|n]; simpl;
    try constructor; auto.
  apply Forall_forall. intros x Hx.
  apply (proj1 (Forall_forall _ _) Ha). eapply in_firstn; eassumption.
Qed.

Lemma sorted_snoc {A : Type} (R : A -> A -> Prop) l a :
  StronglySorted R l -> Forall (fun x => R x a) l ->
  StronglySorted R (l ++ [a]).
Proof.
  induction 1 as [|b l Hl IH Hb]; simpl; intros Hall.
  - repeat constructor.
  - inversion Hall; subst. constructor; [now apply IH|].
    apply Forall_app. split; [exact Hb | now repeat constructor].
Qed.

Lemma rev_sorted {A : Type} (R : A -> A -> Prop) l :
  StronglySorted R l -> StronglySorted (fun a b => R b a) (rev l).
Proof.
  induction 1 as [|a l Hl IH Ha]; simpl; [constructor|].
  apply sorted_snoc; [exact IH|].
  apply Forall_forall. intros x Hx. apply in_rev in Hx.
  exact (proj1 (Forall_forall _ _) Ha x Hx).
Qed.

Lemma sorted_app_cross {A : Type} (R : A -> A -> Prop) l1 l2 :
  StronglySorted R (l1 ++ l2) ->
  forall a b, In a l1 -> In b l2 -> R a b.
Proof.
  induction l1 as [|x l1 IH]; simpl; intros H a b Ha Hb; [contradiction|].
  inversion H as [|? ? Hs Hall]; subst.
  destruct Ha as [<-|Ha].
  - apply (proj1 (Forall_forall _ _) Hall). apply in_or_app. now right.
  - now apply IH.
Qed.

Lemma sql_limit_length {A : Type} limit (l : list A) :
  List.length (sql_limit limit l)
  = if limit <? 0 then List.length l
    else Nat.min (Z.to_nat limit) (List.length l).
Proof.
  unfold sql_limit. destruct (limit <? 0); [reflexivity|].
  apply length_firstn.
Qed.

Lemma sql_limit_split {A : Type} limit (l : list A) :
  exists rest, l = sql_limit limit l ++ rest.
Proof.
  unfold sql_limit. destruct (limit <? 0).
  - exists []. now rewrite app_nil_r.
  - exists (skipn (Z.to_nat limit) l). symmetry. apply firstn_skipn.
Qed.

(** Rows recorded in strictly increasing time come back reversed. *)
Lemma order_by_timestamp_desc_increasing l :
  StronglySorted (fun a b => Heartbeat.timestamp a < Heartbeat.timestamp b) l ->
  order_by_timestamp_desc l = rev l.
Proof.
  induction 1 as [|a l Hl IH Ha]; [reflexivity|].
  simpl. rewrite IH. clear IH Hl.
  assert (Hall : Forall (fun x => Heartbeat.timestamp a
                                  < Heartbeat.timestamp x) (rev l)).
  { apply Forall_forall. intros x Hx. apply in_rev in Hx.
    exact (proj1 (Forall_forall _ _) Ha x Hx). }
  induction (rev l) as [|b r IHr]; [reflexivity|].
  inversion Hall as [|? ? Hb Hr]; subst. simpl.
  assert (E : (Heartbeat.timestamp b <=? Heartbeat.timestamp a) = false)
    by (apply Z.leb_gt; lia).
  rewrite E. now rewrite IHr.
Qed.

End HistoryFacts.

(** X19.  For a [limit] that fits a 64-bit integer
    [get_heartbeat_history] returns [limit] points, or all of the
    monitor's heartbeats when there are fewer or when [limit] is
    negative; no point for [limit = 0].  The points are in ascending
    order of timestamp and each one is a heartbeat of that monitor. *)
Theorem get_heartbeat_history_shape :
  forall s monitor_id limit,
    fits_int64 limit = true ->
    exists points,
      get_heartbeat_history s monitor_id limit = Ok points /\
      List.length points
      = (if limit <? 0 then List.length (monitor_heartbeats s monitor_id)
         else Nat.min (Z.to_nat limit)
                (List.length (monitor_heartbeats s monitor_id))) /\
      StronglySorted (fun a b => History.timestamp a <= History.timestamp b)
        points /\
      (forall p, In p points ->
         exists h, In h (heartbeats s) /\ Heartbeat.monitor_id h = monitor_id
                   /\ p = history_point h).
Proof.
  intros s monitor_id limit Hfits. unfold get_heartbeat_history.
  rewrite Hfits. eexists. split; [reflexivity|].
  split; [|split].
  - rewrite length_map, length_rev, sql_limit_length.
    now rewrite (Permutation_length (order_by_timestamp_desc_perm _)).
  - assert (Hs : StronglySorted newer_or_equal
                   (sql_limit limit
                      (order_by_timestamp_desc
                         (monitor_heartbeats s monitor_id)))).
    { unfold sql_limit. destruct (limit <? 0);
        [|apply firstn_sorted]; apply order_by_timestamp_desc_sorted. }
    apply rev_sorted in Hs. revert Hs.
    generalize (rev (sql_limit limit
                       (order_by_timestamp_desc
                          (monitor_heartbeats s monitor_id)))).
    induction 1 as [|a l Hl IH Ha]; simpl; constructor; [exact IH|].
    apply Forall_forall. intros p Hp. apply in_map_iff in Hp.
    destruct Hp as (h & <- & Hh).
    exact (proj1 (Forall_forall _ _) Ha h Hh).
  - intros p Hp. apply in_map_iff in Hp. destruct Hp as (h & <- & Hh).
    apply in_rev in Hh.
    assert (Hin : In h (order_by_timestamp_desc
                          (monitor_heartbeats s monitor_id))).
    { unfold sql_limit in Hh. destruct (limit <? 0); [exact Hh|].
      eapply in_firstn; eassumption. }
    apply (Permutation_in _ (order_by_timestamp_desc_perm _)) in Hin.
    apply filter_In in Hin. destruct Hin as [Hin Hmon].
    exists h. split; [exact Hin|]. split; [|reflexivity].
    now apply String.eqb_eq.
Qed.

Lemma get_heartbeat_history_shape_witness :
  fits_int64 2 = true /\
  List.length (monitor_heartbeats db_history "m1") = 4%nat /\
  exists points,
    get_heartbeat_history db_history "m1" 2 = Ok points /\
    List.length points = 2%nat.
Proof.
  split; [reflexivity|]. split; [reflexivity|].
  destruct (get_heartbeat_history_shape db_history "m1" 2 eq_refl)
    as (points & Hrun & Hlen & _).
  exists points. split; [exact Hrun | exact Hlen].
Defined.

(** X20.  The history keeps the most recent heartbeats: a heartbeat of
    the monitor that is left out is not newer than any point that is
    returned. *)
Theorem get_heartbeat_history_most_recent :
  forall s monitor_id limit points h p,
    get_heartbeat_history s monitor_id limit = Ok points ->
    In h (heartbeats s) ->
    Heartbeat.monitor_id h = monitor_id ->
    In p points ->
    In (history_point h) points
    \/ Heartbeat.timestamp h <= History.timestamp p.
Proof.
  intros s monitor_id limit points h p Hrun Hin Hmon Hp.
  unfold get_heartbeat_history in Hrun.
  destruct (fits_int64 limit); [|discriminate].
  injection Hrun as <-.
  apply in_map_iff in Hp. destruct Hp as (k & <- & Hk). apply in_rev in Hk.
  assert (Hh : In h (order_by_timestamp_desc
                       (monitor_heartbeats s monitor_id))).
  { apply (Permutation_in _
             (Permutation_sym (order_by_timestamp_desc_perm _))).
    apply filter_In. split; [exact Hin|]. now apply String.eqb_eq. }
  destruct (sql_limit_split limit
              (order_by_timestamp_desc (monitor_heartbeats s monitor_id)))
    as [rest Hsplit].
  pose proof (order_by_timestamp_desc_sorted
                (monitor_heartbeats s monitor_id)) as Hsorted.
  rewrite Hsplit in Hh, Hsorted.
  apply in_app_or in Hh. destruct Hh as [Hh|Hh].
  - left. apply in_map. now apply -> in_rev.
  - right. exact (sorted_app_cross _ _ _ Hsorted k h Hk Hh).
Qed.

Lemma get_heartbeat_history_most_recent_witness :
  get_heartbeat_history db_history "m1" 2
  = Ok [History.mk (t0 + 190 * us_per_second) "up" (Some (60 # 1));
        History.mk (t0 + 250 * us_per_second) "down" None] /\
  (In (history_point (Heartbeat.mk "m1" (t0 + 70 * us_per_second) "down" None))
      [History.mk (t0 + 190 * us_per_second) "up" (Some (60 # 1));
       History.mk (t0 + 250 * us_per_second) "down" None]
   \/ t0 + 70 * us_per_second <= t0 + 190 * us_per_second).
Proof.
  split; [reflexivity|].
  apply (get_heartbeat_history_most_recent db_history "m1" 2 _
           (Heartbeat.mk "m1" (t0 + 70 * us_per_second) "down" None)
           (History.mk (t0 + 190 * us_per_second) "up" (Some (60 # 1)))).
  - reflexivity.
  - simpl. auto.
  - reflexivity.
  - simpl. auto.
Defined.

(** X21.  When the heartbeats of a monitor were recorded at strictly
    increasing times, as successive checks record them, and [limit] is
    not negative and fits a 64-bit integer, the history is the last
    [limit] of them in the order they were recorded. *)
Theorem get_heartbeat_history_last_recorded :
  forall s monitor_id limit,
    StronglySorted
      (fun a b => Heartbeat.timestamp a < Heartbeat.timestamp b)
      (monitor_heartbeats s monitor_id) ->
    0 <= limit < 2 ^ 63 ->
    get_heartbeat_history s monitor_id limit
    = Ok (map history_point
            (skipn (List.length (monitor_heartbeats s monitor_id)
                    - Z.to_nat limit)
               (monitor_heartbeats s monitor_id))).
Proof.
  intros s monitor_id limit Hinc [Hlimit Hfit]. unfold get_heartbeat_history.
  assert (Hfits : fits_int64 limit = true).
  { unfold fits_int64. apply andb_true_intro. split.
    - apply Z.leb_le. lia.
    - now apply Z.ltb_lt. }
  rewrite Hfits, (order_by_timestamp_desc_increasing _ Hinc).
  unfold sql_limit.
  assert (E : (limit <? 0) = false) by (apply Z.ltb_ge; lia).
  rewrite E, firstn_rev, rev_involutive. reflexivity.
Qed.

Lemma get_heartbeat_history_last_recorded_witness :
  StronglySorted
    (fun a b => Heartbeat.timestamp a < Heartbeat.timestamp b)
    (monitor_heartbeats db_history "m1") /\
  get_heartbeat_history db_history "m1" 3
  = Ok [History.mk (t0 + 70 * us_per_second) "down" None;
        History.mk (t0 + 190 * us_per_second) "up" (Some (60 # 1));
        History.mk (t0 + 250 * us_per_second) "down" None].
Proof.
  assert (Hinc : StronglySorted
                   (fun a b => Heartbeat.timestamp a < Heartbeat.timestamp b)
                   (monitor_heartbeats db_history "m1")).
  { repeat constructor. }
  split; [exact Hinc|].
  rewrite (get_heartbeat_history_last_recorded db_history "m1" 3 Hinc
             ltac:(split; [discriminate | reflexivity])).
  reflexivity.
Defined.

(** A [limit] outside the 64-bit range raises. *)
Lemma get_heartbeat_history_overflow s monitor_id limit :
  limit < - 2 ^ 63 \/ 2 ^ 63 <= limit ->
  get_heartbeat_history s monitor_id limit = Raise OverflowError.
Proof.
  intros H. unfold get_heartbeat_history, fits_int64.
  destruct H as [H|H].
  - apply Z.leb_gt in H. now rewrite H.
  - apply Z.ltb_ge in H. now rewrite H, andb_false_r.
Qed.

(** ** Adding monitors *)

Section Adding.

Local Arguments String.eqb : simpl never.

Lemma find_monitor_app l row monitor_id :
  find_monitor (l ++ [row]) monitor_id
  = match find_monitor l monitor_id with
    | Some m => Some m
    | None => if Monitor.id row =s? monitor_id then Some row else None
    end.
Proof.
  induction l as [|a l IH]; simpl; [reflexivity|].
  destruct (Monitor.id a =s? monitor_id); [reflexivity | exact IH].
Qed.

Lemma monitor_exists_find s monitor_id :
  monitor_exists s monitor_id
  = match find_monitor (monitors s) monitor_id with
    | Some _ => true
    | None => false
    end.
Proof.
  unfold monitor_exists. induction (monitors s) as [|a l IH]; simpl;
    [reflexivity|].
  destruct (Monitor.id a =s? monitor_id); [reflexivity | exact IH].
Qed.

Lemma monitor_exists_ids s monitor_id :
  monitor_exists s monitor_id = true
  <-> In monitor_id (map Monitor.id (monitors s)).
Proof.
  rewrite monitor_exists_find. split.
  - destruct (find_monitor (monitors s) monitor_id) as [m|] eqn:E;
      [|discriminate].
    intros _. now apply (find_monitor_in_ids _ _ m).
  - intros H. now destruct (find_monitor_some _ _ H) as [m ->].
Qed.

Lemma select_not_paused_app s row :
  select_not_paused (mkDb (monitors s ++ [row]) (heartbeats s) (incidents s))
  = select_not_paused s
    ++ (if Monitor.status row =s? "paused" then [] else [Monitor.id row]).
Proof.
  unfold select_not_paused. simpl. rewrite filter_app, map_app. simpl.
  destruct (Monitor.status row =s? "paused"); reflexivity.
Qed.

End Adding.

(** X22.  [add_monitor] with a uuid that is not yet a monitor id, and an
    interval and a timeout that fit 64-bit integers, returns that uuid,
    and looking it up gives the monitor as configured, with status
    [unknown], no retries, and no [up_since], [last_check], response
    time or certificate days.  The monitors that were there are found
    as before, heartbeats and incidents are untouched, and the new
    monitor is the last of the next cycle's check set. *)
Theorem add_monitor_round_trip :
  forall s w name monitor_type target interval_s timeout_s tags,
    fits_int64 interval_s = true ->
    fits_int64 timeout_s = true ->
    monitor_exists s (uuid8 w) = false ->
    exists s',
      add_monitor s w name monitor_type target interval_s timeout_s tags
      = Ok (s', uuid8 w) /\
      find_monitor (monitors s') (uuid8 w)
      = Some (Monitor.mk (uuid8 w) name monitor_type target interval_s
                timeout_s 0 "unknown" None None None None tags) /\
      (forall other, other <> uuid8 w ->
         find_monitor (monitors s') other = find_monitor (monitors s) other) /\
      heartbeats s' = heartbeats s /\ incidents s' = incidents s /\
      select_not_paused s' = select_not_paused s ++ [uuid8 w].
Proof.
  intros s w name monitor_type target interval_s timeout_s tags
    Hint Htime Hnew.
  unfold add_monitor. rewrite Hint, Htime, Hnew.
  eexists. split; [reflexivity|].
  rewrite monitor_exists_find in Hnew.
  destruct (find_monitor (monitors s) (uuid8 w)) eqn:Hfind; [discriminate|].
  cbn [monitors heartbeats incidents].
  split; [|split; [|split; [reflexivity|split; [reflexivity|]]]].
  - rewrite find_monitor_app, Hfind. simpl. now rewrite String.eqb_refl.
  - intros other Hne. rewrite find_monitor_app. simpl.
    destruct (find_monitor (monitors s) other); [reflexivity|].
    destruct (String.eqb_spec (uuid8 w) other); congruence.
  - apply (select_not_paused_app s).
Qed.

Lemma add_monitor_round_trip_witness :
  fits_int64 30 = true /\ fits_int64 5 = true /\
  monitor_exists db_mixed "0a0b0c0d" = false /\
  exists s',
    add_monitor db_mixed world_new_uuid "api" "tcp"
      "api.example:8443" 30 5 ["prod"] = Ok (s', "0a0b0c0d") /\
    select_not_paused s' = ["x1"; "u1"; "0a0b0c0d"].
Proof.
  split; [reflexivity|]. split; [reflexivity|]. split; [reflexivity|].
  destruct (add_monitor_round_trip db_mixed world_new_uuid "api"
              "tcp" "api.example:8443" 30 5 ["prod"] eq_refl eq_refl eq_refl)
    as (s' & Hadd & _ & _ & _ & _ & Hsel).
  exists s'. split; [exact Hadd | exact Hsel].
Defined.

(** An interval or a timeout outside the 64-bit range raises, and the
    table is not looked at. *)
Lemma add_monitor_overflow s w name monitor_type target interval_s timeout_s
    tags :
  fits_int64 interval_s = false \/ fits_int64 timeout_s = false ->
  add_monitor s w name monitor_type target interval_s timeout_s tags
  = Raise OverflowError.
Proof.
  intros H. unfold add_monitor.
  destruct H as [H|H]; rewrite H; [reflexivity|].
  now rewrite andb_false_r.
Qed.

(** ** Outages the engine does not see *)

(** X23.  A monitor that has not been [up] gets no incident however
    long it is down: while no check classifies [up], replaying checks
    on a monitor whose persisted status is not [up] inserts nothing
    into the incidents table and draws no uuid. *)
Theorem never_up_never_incident :
  forall ws s monitor_id m,
    find_monitor (monitors s) monitor_id = Some m ->
    Monitor.status m <> "up" ->
    Forall (fun w => outcome m w <> "up") ws ->
    exists s',
      replay s monitor_id ws = Ok s' /\ incidents s' = incidents s.
Proof.
  induction ws as [|w ws IH]; intros s monitor_id m Hfind Hst Hall.
  - exists s. split; reflexivity.
  - pose proof (find_monitor_id _ _ _ Hfind) as Hid. subst monitor_id.
    inversion Hall as [|? ? Hw Hrest]; subst.
    assert (Hquiet : opens m w = false).
    { unfold opens. apply String.eqb_neq in Hst. now rewrite Hst. }
    destruct (IH (after_check s w m) (Monitor.id m) (checked m w)
                (find_after_check _ _ _ Hfind))
      as (s' & Hrun & Hinc).
    + now rewrite status_checked.
    + eapply Forall_impl; [|exact Hrest]. intros w'.
      now rewrite outcome_checked.
    + exists s'. simpl replay.
      rewrite (run_check_returns_quiet _ _ _ _ Hfind Hquiet).
      split; [exact Hrun|].
      rewrite Hinc, incidents_after_check, Hquiet. apply app_nil_r.
Qed.

Lemma never_up_never_incident_witness :
  find_monitor (monitors (db_of (site "unknown" None))) "m1"
  = Some (site "unknown" None) /\
  exists s',
    replay (db_of (site "unknown" None)) "m1"
      [world_http t0 "00000001" times_out;
       world_http (t0 + 60 * us_per_second) "00000002" times_out;
       world_http (t0 + 120 * us_per_second) "00000003" times_out]
    = Ok s' /\
    incidents s' = [] /\
    option_map Monitor.status (find_monitor (monitors s') "m1") = Some "down".
Proof.
  split; [reflexivity|].
  destruct (never_up_never_incident
              [world_http t0 "00000001" times_out;
               world_http (t0 + 60 * us_per_second) "00000002" times_out;
               world_http (t0 + 120 * us_per_second) "00000003" times_out]
              (db_of (site "unknown" None)) "m1" (site "unknown" None)
              eq_refl ltac:(discriminate)
              ltac:(repeat constructor; discriminate))
    as (s' & Hrun & Hinc).
  assert (Hval :
    replay (db_of (site "unknown" None)) "m1"
      [world_http t0 "00000001" times_out;
       world_http (t0 + 60 * us_per_second) "00000002" times_out;
       world_http (t0 + 120 * us_per_second) "00000003" times_out]
    = Ok s') by exact Hrun.
  exists s'. split; [exact Hrun|]. split; [exact Hinc|].
  vm_compute in Hval. injection Hval as <-. reflexivity.
Defined.

(** ** More invariants of the databases the engine builds *)

Section Keys.

Local Arguments String.eqb : simpl never.

Lemma incident_exists_ids s incident_id :
  incident_exists s incident_id = false
  <-> ~ In incident_id (map Incident.id (incidents s)).
Proof.
  unfold incident_exists. induction (incidents s) as [|a l IH]; simpl.
  - split; [intros _ [] | reflexivity].
  - rewrite orb_false_iff, IH, String.eqb_neq. tauto.
Qed.

Lemma update_incident_ids incident_id f l :
  (forall i, Incident.id (f i) = Incident.id i) ->
  map Incident.id (update_incident incident_id f l) = map Incident.id l.
Proof.
  intros Hf. unfold update_incident. rewrite map_map. apply map_ext.
  intros a. destruct (Incident.id a =s? incident_id); [apply Hf | reflexivity].
Qed.

Lemma NoDup_snoc {A : Type} (l : list A) (a : A) :
  NoDup l -> ~ In a l -> NoDup (l ++ [a]).
Proof.
  intros Hl Ha. apply NoDup_app; [exact Hl | repeat constructor; intros [] |].
  intros x Hx [<-|[]]. contradiction.
Qed.

Lemma update_incident_In incident_id t d l i' :
  In i' (update_incident incident_id (set_resolved t d) l) ->
  In i' l \/ exists i, In i l /\ i' = set_resolved t d i.
Proof.
  unfold update_incident. rewrite in_map_iff. intros (i & <- & Hi).
  destruct (Incident.id i =s? incident_id); eauto.
Qed.

End Keys.

(** X24.  In every database the engine builds from the empty one,
    monitor ids are pairwise different and incident ids are pairwise
    different. *)
Theorem reachable_primary_keys :
  forall s,
    reachable s ->
    NoDup (map Monitor.id (monitors s)) /\
    NoDup (map Incident.id (incidents s)).
Proof.
  induction 1 as
    [ | s w name ty target interval timeout tags s' monitor_id _ [IHm IHi] Hadd
      | s w monitor_id s' up _ [IHm IHi] Hrun
      | s w incident_id s' found _ [IHm IHi] Hres ].
  - split; constructor.
  - unfold add_monitor in Hadd.
    destruct (negb (fits_int64 interval && fits_int64 timeout));
      [discriminate|].
    destruct (monitor_exists s (uuid8 w)) eqn:E; [discriminate|].
    injection Hadd as <- _. simpl. split; [|exact IHi].
    rewrite map_app. apply NoDup_snoc; [exact IHm|].
    simpl. intros Hin. apply monitor_exists_ids in Hin. congruence.
  - destruct (find_monitor (monitors s) monitor_id) as [m|] eqn:Hfind.
    + rewrite (run_check_found _ _ _ _ Hfind) in Hrun.
      destruct (opens m w) eqn:Hop; simpl in Hrun.
      * destruct (incident_exists s (uuid8 w)) eqn:E; [discriminate|].
        injection Hrun as <- _. rewrite after_check_ids.
        split; [exact IHm|].
        rewrite incidents_after_check, Hop, map_app.
        apply NoDup_snoc; [exact IHi|]. now apply incident_exists_ids.
      * injection Hrun as <- _. rewrite after_check_ids.
        split; [exact IHm|].
        now rewrite incidents_after_check, Hop, app_nil_r.
    + rewrite (run_check_missing _ _ _ Hfind) in Hrun.
      injection Hrun as <- _. now split.
  - unfold resolve_incident in Hres.
    destruct (find_incident (incidents s) incident_id) as [i|].
    + injection Hres as <- _. simpl. split; [exact IHm|].
      now rewrite update_incident_ids.
    + injection Hres as <- _. now split.
Qed.

(** X25.  In every database the engine builds, each heartbeat and each
    incident belongs to a monitor that is in the table: the engine
    removes no monitor and records nothing for a monitor it did not
    find. *)
Theorem reachable_references :
  forall s,
    reachable s ->
    (forall h, In h (heartbeats s) ->
       monitor_exists s (Heartbeat.monitor_id h) = true) /\
    (forall i, In i (incidents s) ->
       monitor_exists s (Incident.monitor_id i) = true).
Proof.
  induction 1 as
    [ | s w name ty target interval timeout tags s' monitor_id _ [IHh IHi] Hadd
      | s w monitor_id s' up _ [IHh IHi] Hrun
      | s w incident_id s' found _ [IHh IHi] Hres ].
  - split; intros ? [].
  - unfold add_monitor in Hadd.
    destruct (negb (fits_int64 interval && fits_int64 timeout));
      [discriminate|].
    destruct (monitor_exists s (uuid8 w)); [discriminate|].
    injection Hadd as <- _.
    assert (Hgrow : forall x, monitor_exists s x = true ->
              monitor_exists
                (mkDb (monitors s
                         ++ [Monitor.mk (uuid8 w) name ty target interval
                               timeout 0 "unknown" None None None None tags])
                      (heartbeats s) (incidents s)) x = true).
    { intros x Hx. unfold monitor_exists in *. simpl.
      rewrite existsb_app, Hx. reflexivity. }
    split; intros x Hx; apply Hgrow; auto.
  - destruct (find_monitor (monitors s) monitor_id) as [m|] eqn:Hfind.
    + rewrite (run_check_found _ _ _ _ Hfind) in Hrun.
      destruct (opens m w && incident_exists s (uuid8 w)); [discriminate|].
      injection Hrun as <- _.
      assert (Hsame : forall x, monitor_exists s x = true ->
                monitor_exists (after_check s w m) x = true).
      { intros x Hx. apply monitor_exists_ids. rewrite after_check_ids.
        now apply monitor_exists_ids. }
      assert (Hm : monitor_exists s (Monitor.id m) = true).
      { apply monitor_exists_ids.
        rewrite (find_monitor_id _ _ _ Hfind).
        now apply (find_monitor_in_ids _ _ m). }
      split.
      * intros h Hh. unfold after_check in Hh. cbn [heartbeats] in Hh.
        apply in_app_or in Hh. destruct Hh as [Hh|[<-|[]]]; apply Hsame; auto.
      * intros i Hi. rewrite incidents_after_check in Hi.
        apply in_app_or in Hi. destruct Hi as [Hi|Hi]; [apply Hsame; auto|].
        destruct (opens m w); [|contradiction].
        destruct Hi as [<-|[]]. now apply Hsame.
    + rewrite (run_check_missing _ _ _ Hfind) in Hrun.
      injection Hrun as <- _. now split.
  - unfold resolve_incident in Hres.
    destruct (find_incident (incidents s) incident_id) as [row|].
    + injection Hres as <- _. split; [exact IHh|].
      intros i Hi. cbn [incidents] in Hi.
      apply update_incident_In in Hi.
      destruct Hi as [Hi|(j & Hj & ->)]; [now apply IHi|].
      exact (IHi j Hj).
    + injection Hres as <- _. now split.
Qed.

(** X26.  The engine by itself never pauses a monitor, never puts one
    in maintenance and never marks an incident as notified: in every
    database it builds, each monitor's status is [unknown], [up] or
    [down], each heartbeat's status is one of these too, and each
    incident has [notified] false and a [duration_s] exactly when it has
    a [resolved_at]. *)
Theorem reachable_rows_well_formed :
  forall s,
    reachable s ->
    (forall m, In m (monitors s) ->
       engine_status (Monitor.status m) /\ up_since_consistent m) /\
    (forall h, In h (heartbeats s) -> engine_status (Heartbeat.status h)) /\
    (forall i, In i (incidents s) -> engine_incident i).
Proof.
  intros s Hreach.
  pose proof (reachable_invariants s Hreach) as [Hcons _].
  assert (Hdom : forall m w, engine_status (outcome m w)).
  { intros m w. unfold engine_status.
    destruct (outcome_domain m w) as [H|[H|H]]; auto. }
  cut ((forall m, In m (monitors s) -> engine_status (Monitor.status m)) /\
       (forall h, In h (heartbeats s) -> engine_status (Heartbeat.status h)) /\
       (forall i, In i (incidents s) -> engine_incident i)).
  { intros (Hm & Hh & Hi).
    split; [|split; assumption].
    intros m Hin. split; [now apply Hm | now apply Hcons]. }
  clear Hcons.
  induction Hreach as
    [ | s w name ty target interval timeout tags s' monitor_id _ IH Hadd
      | s w monitor_id s' up _ IH Hrun
      | s w incident_id s' found _ IH Hres ].
  - split; [|split]; intros ? [].
  - destruct IH as (IHm & IHh & IHi). unfold add_monitor in Hadd.
    destruct (negb (fits_int64 interval && fits_int64 timeout));
      [discriminate|].
    destruct (monitor_exists s (uuid8 w)); [discriminate|].
    injection Hadd as <- _. simpl. split; [|split; assumption].
    intros m Hm. apply in_app_or in Hm. destruct Hm as [Hm|[<-|[]]];
      [now apply IHm | now left].
  - destruct IH as (IHm & IHh & IHi).
    destruct (find_monitor (monitors s) monitor_id) as [m|] eqn:Hfind.
    + rewrite (run_check_found _ _ _ _ Hfind) in Hrun.
      destruct (opens m w && incident_exists s (uuid8 w)); [discriminate|].
      injection Hrun as <- _. split; [|split].
      * intros x Hx. unfold after_check, update_monitor in Hx. simpl in Hx.
        apply in_map_iff in Hx. destruct Hx as (y & <- & Hy).
        destruct (String.eqb (Monitor.id y) (Monitor.id m));
          [apply Hdom | now apply IHm].
      * intros h Hh. unfold after_check in Hh. cbn [heartbeats] in Hh.
        apply in_app_or in Hh. destruct Hh as [Hh|[<-|[]]];
          [now apply IHh | apply Hdom].
      * intros i Hi. rewrite incidents_after_check in Hi.
        apply in_app_or in Hi. destruct Hi as [Hi|Hi]; [now apply IHi|].
        destruct (opens m w); [|contradiction].
        destruct Hi as [<-|[]]. split; [reflexivity | split; reflexivity].
    + rewrite (run_check_missing _ _ _ Hfind) in Hrun.
      injection Hrun as <- _. split; [|split]; assumption.
  - destruct IH as (IHm & IHh & IHi). unfold resolve_incident in Hres.
    destruct (find_incident (incidents s) incident_id) as [row|].
    + injection Hres as <- _. split; [exact IHm|]. split; [exact IHh|].
      intros i Hi. cbn [incidents] in Hi. apply update_incident_In in Hi.
      destruct Hi as [Hi|(j & Hj & ->)]; [now apply IHi|].
      destruct (IHi j Hj) as [Hn _]. split; [exact Hn|].
      simpl. split; discriminate.
    + injection Hres as <- _. split; [|split]; assumption.
Qed.

Lemma reachable_db_resolved : reachable db_resolved.
Proof.
  apply (reach_resolve_incident db_checked_down
           (clock (t0 + 300 * us_per_second)) "00000002" _ true);
    [|reflexivity].
  apply (reach_run_check db_checked_up world_then_down "m1" _ false);
    [|reflexivity].
  apply (reach_run_check db_added world_first_up "m1" _ true);
    [|reflexivity].
  exact (reach_add_monitor empty_db (world_http t0 "m1" answers_200) "site"
           "http" "http://example.org" 60 10 [] _ "m1" reach_empty
           add_monitor_sample).
Defined.

Lemma reachable_primary_keys_witness :
  reachable db_resolved /\
  map Monitor.id (monitors db_resolved) = ["m1"] /\
  map Incident.id (incidents db_resolved) = ["00000002"] /\
  NoDup (map Incident.id (incidents db_resolved)).
Proof.
  split; [exact reachable_db_resolved|].
  split; [reflexivity|]. split; [reflexivity|].
  exact (proj2 (reachable_primary_keys db_resolved reachable_db_resolved)).
Defined.

Lemma reachable_references_witness :
  reachable db_resolved /\
  List.length (heartbeats db_resolved) = 2%nat /\
  forall h, In h (heartbeats db_resolved) ->
            monitor_exists db_resolved (Heartbeat.monitor_id h) = true.
Proof.
  split; [exact reachable_db_resolved|]. split; [reflexivity|].
  exact (proj1 (reachable_references db_resolved reachable_db_resolved)).
Defined.

Lemma reachable_rows_well_formed_witness :
  reachable db_resolved /\
  option_map Monitor.status (find_monitor (monitors db_resolved) "m1")
  = Some "down" /\
  forall i, In i (incidents db_resolved) -> engine_incident i.
Proof.
  split; [exact reachable_db_resolved|]. split; [reflexivity|].
  exact (proj2 (proj2 (reachable_rows_well_formed db_resolved
                         reachable_db_resolved))).
Defined.

(** X27.  In every database the engine builds, each incident has a
    heartbeat of the same monitor with status [down] whose timestamp is
    the incident's [started_at]: the check that opened it. *)
Theorem reachable_incident_has_heartbeat :
  forall s,
    reachable s ->
    forall i, In i (incidents s) ->
      exists h,
        In h (heartbeats s) /\
        Heartbeat.monitor_id h = Incident.monitor_id i /\
        Heartbeat.timestamp h = Incident.started_at i /\
        Heartbeat.status h = "down".
Proof.
  induction 1 as
    [ | s w name ty target interval timeout tags s' monitor_id _ IH Hadd
      | s w monitor_id s' up _ IH Hrun
      | s w incident_id s' found _ IH Hres ].
  - intros i [].
  - unfold add_monitor in Hadd.
    destruct (negb (fits_int64 interval && fits_int64 timeout));
      [discriminate|].
    destruct (monitor_exists s (uuid8 w)); [discriminate|].
    injection Hadd as <- _. exact IH.
  - destruct (find_monitor (monitors s) monitor_id) as [m|] eqn:Hfind.
    + rewrite (run_check_found _ _ _ _ Hfind) in Hrun.
      destruct (opens m w && incident_exists s (uuid8 w)); [discriminate|].
      injection Hrun as <- _. intros i Hi.
      rewrite incidents_after_check in Hi. apply in_app_or in Hi.
      unfold after_check. cbn [heartbeats].
      destruct Hi as [Hi|Hi].
      * destruct (IH i Hi) as (h & Hh & Hrest).
        exists h. split; [apply in_or_app; now left | exact Hrest].
      * destruct (opens m w) eqn:Hop; [|contradiction].
        destruct Hi as [<-|[]].
        eexists. split; [apply in_or_app; right; left; reflexivity|].
        simpl. repeat split.
        unfold opens in Hop. apply andb_prop in Hop.
        now apply String.eqb_eq.
    + rewrite (run_check_missing _ _ _ Hfind) in Hrun.
      injection Hrun as <- _. exact IH.
  - unfold resolve_incident in Hres.
    destruct (find_incident (incidents s) incident_id) as [row|].
    + injection Hres as <- _. intros i Hi. cbn [incidents heartbeats] in *.
      apply update_incident_In in Hi.
      destruct Hi as [Hi|(j & Hj & ->)]; [now apply IH|].
      exact (IH j Hj).
    + injection Hres as <- _. exact IH.
Qed.

Lemma reachable_incident_has_heartbeat_witness :
  reachable db_resolved /\
  exists i h,
    incidents db_resolved = [i] /\
    In h (heartbeats db_resolved) /\
    Heartbeat.timestamp h = Incident.started_at i /\
    Heartbeat.status h = "down".
Proof.
  split; [exact reachable_db_resolved|].
  eexists.
  destruct (reachable_incident_has_heartbeat db_resolved reachable_db_resolved
              _ (or_introl eq_refl))
    as (h & Hh & _ & Hts & Hst).
  exists h. split; [reflexivity|]. split; [exact Hh|].
  split; [exact Hts | exact Hst].
Defined.

(** ** What a cycle does to each monitor *)

Section CycleTrace.

Local Arguments String.eqb : simpl never.

Lemma find_monitor_In l monitor_id m :
  find_monitor l monitor_id = Some m -> In m l.
Proof.
  induction l as [|a l IH]; simpl; [discriminate|].
  destruct (Monitor.id a =s? monitor_id).
  - intros [= <-]. now left.
  - intros H. right. now apply IH.
Qed.

Lemma NoDup_map_filter {A B : Type} (f : A -> B) (p : A -> bool) l :
  NoDup (map f l) -> NoDup (map f (filter p l)).
Proof.
  induction l as [|a l IH]; simpl; [constructor|].
  intros H. inversion H as [|? ? Hnotin Hnd]; subst.
  destruct (p a); simpl; [|now apply IH].
  constructor; [|now apply IH].
  intros Hin. apply Hnotin. apply in_map_iff in Hin.
  destruct Hin as (x & Hx & Hin). apply filter_In in Hin.
  apply in_map_iff. exists x. tauto.
Qed.

(** The heartbeat that [run_check] writes for the row [m] in the world
    [w]. *)
Lemma heartbeats_after_check s w m :
  heartbeats (after_check s w m)
  = heartbeats s
    ++ [Heartbeat.mk (Monitor.id m) (now w) (outcome m w)
          (res_response_time_ms (probe m w))].
Proof. reflexivity. Qed.

(** The loop, call by call: the [k]-th id of the list is checked in the
    world [env (n + k)].  When the ids are pairwise different, its row
    afterwards is the row that [run_check] writes from the row it had
    before the loop. *)
Lemma run_checks_loop_trace env ids :
  forall n s results,
    (forall x, In x ids -> In x (map Monitor.id (monitors s))) ->
    fresh_supply s (map (fun k => uuid8 (env k)) (seq n (List.length ids)))
    = true ->
    exists s' results' added,
      run_checks_loop env n ids s results = (s', Ok results') /\
      heartbeats s' = heartbeats s ++ added /\
      map Heartbeat.monitor_id added = ids /\
      (forall x, ~ In x ids ->
         find_monitor (monitors s') x = find_monitor (monitors s) x
         /\ dict_get results' x = dict_get results x) /\
      (NoDup ids ->
       forall k monitor_id m,
         nth_error ids k = Some monitor_id ->
         find_monitor (monitors s) monitor_id = Some m ->
         find_monitor (monitors s') monitor_id
         = Some (checked m (env (n + k)%nat)) /\
         dict_get results' monitor_id
         = Some (outcome m (env (n + k)%nat) =s? "up") /\
         nth_error added k
         = Some (Heartbeat.mk monitor_id (now (env (n + k)%nat))
                   (outcome m (env (n + k)%nat))
                   (res_response_time_ms (probe m (env (n + k)%nat))))).
Proof.
  induction ids as [|a ids IH]; intros n s results Hin Hfresh.
  - exists s, results, []. rewrite app_nil_r.
    repeat split; auto; destruct k; discriminate.
  - destruct (find_monitor_some (monitors s) a (Hin a (or_introl eq_refl)))
      as [m0 Hfind0].
    pose proof (find_monitor_id _ _ _ Hfind0) as Hid. subst a.
    simpl in Hfresh.
    destruct (fresh_supply_head _ _ _ Hfresh) as [Hhead _].
    simpl run_checks_loop.
    rewrite (run_check_returns _ _ _ _ Hfind0 Hhead).
    destruct (IH (S n) (after_check s (env n) m0)
                (dict_set results (Monitor.id m0)
                   (outcome m0 (env n) =s? "up")))
      as (s' & results' & added & Hrun & Hhb & Hids & Hframe & Hexact).
    + intros x Hx. rewrite after_check_ids. apply Hin. now right.
    + exact (fresh_supply_after_check s (env n) m0 _ Hfresh).
    + exists s', results',
        (Heartbeat.mk (Monitor.id m0) (now (env n)) (outcome m0 (env n))
           (res_response_time_ms (probe m0 (env n))) :: added).
      split; [exact Hrun|].
      split; [rewrite Hhb, heartbeats_after_check, <- app_assoc;
              reflexivity|].
      split; [simpl; now rewrite Hids|].
      split.
      * intros x Hx.
        assert (Hne : x <> Monitor.id m0) by (intros ->; apply Hx; now left).
        destruct (Hframe x) as [Hf Hd]; [intros H; apply Hx; now right|].
        rewrite Hf, Hd, find_after_check_other, dict_get_set_other
          by assumption.
        split; reflexivity.
      * intros Hnd k monitor_id m Hk Hfind.
        inversion Hnd as [|? ? Hnotin Hnd']; subst.
        destruct k as [|k]; simpl in Hk.
        -- injection Hk as <-. rewrite Hfind0 in Hfind. injection Hfind as <-.
           destruct (Hframe (Monitor.id m0) Hnotin) as [Hf Hd].
           rewrite Hf, Hd, (find_after_check _ _ _ Hfind0), dict_get_set_same.
           rewrite Nat.add_0_r. repeat split.
        -- assert (Hne : monitor_id <> Monitor.id m0).
           { intros ->. apply Hnotin. eapply nth_error_In; eassumption. }
           assert (Hfind1 : find_monitor
                              (monitors (after_check s (env n) m0))
                              monitor_id = Some m).
           { now rewrite find_after_check_other. }
           destruct (Hexact Hnd' k monitor_id m Hk Hfind1)
             as (Hrow & Hget & Hbeat).
           rewrite <- plus_n_Sm. simpl. repeat split; assumption.
Qed.

End CycleTrace.

(** C6, amended.  [run_all_checks] runs a check for a monitor iff its
    status, when the cycle starts, is not [paused].  The dictionary it
    returns has a key for exactly these monitors and the cycle appends
    one heartbeat for each of them, in table order.  With the monitor
    ids pairwise different, a monitor that is not paused, one in
    [maintenance] included, is checked in the world of its turn: its
    row becomes the row [run_check] writes from it, with the check's
    classification as status, its entry in the dictionary says whether
    that classification is [up], and its heartbeat carries the time and
    the classification; so a status [maintenance] is overwritten.  A
    paused monitor keeps its row and gets no key and no heartbeat. *)
Theorem run_all_checks_skips_only_paused :
  forall s env,
    fresh_supply s
      (map (fun k => uuid8 (env k))
           (seq 0 (List.length (select_not_paused s)))) = true ->
    exists s' results added,
      run_all_checks s env = (s', Ok results) /\
      (forall monitor_id,
         In monitor_id (keys results) <->
         exists m, In m (monitors s) /\ Monitor.id m = monitor_id
                   /\ Monitor.status m <> "paused") /\
      heartbeats s' = heartbeats s ++ added /\
      map Heartbeat.monitor_id added = select_not_paused s /\
      (NoDup (map Monitor.id (monitors s)) ->
       (forall monitor_id m,
          find_monitor (monitors s) monitor_id = Some m ->
          Monitor.status m <> "paused" ->
          exists k m',
            nth_error (select_not_paused s) k = Some monitor_id /\
            find_monitor (monitors s') monitor_id = Some m' /\
            m' = checked m (env k) /\
            Monitor.status m' = outcome m (env k) /\
            Monitor.last_check m' = Some (now (env k)) /\
            dict_get results monitor_id = Some (outcome m (env k) =s? "up") /\
            nth_error added k
            = Some (Heartbeat.mk monitor_id (now (env k)) (outcome m (env k))
                      (res_response_time_ms (probe m (env k))))) /\
       (forall monitor_id m,
          find_monitor (monitors s) monitor_id = Some m ->
          Monitor.status m = "maintenance" ->
          exists m',
            find_monitor (monitors s') monitor_id = Some m' /\
            Monitor.status m' <> "maintenance" /\
            In monitor_id (keys results)) /\
       (forall monitor_id m,
          find_monitor (monitors s) monitor_id = Some m ->
          Monitor.status m = "paused" ->
          find_monitor (monitors s') monitor_id = Some m /\
          dict_get results monitor_id = None /\
          ~ In monitor_id (map Heartbeat.monitor_id added))).
Proof.
  intros s env Hfresh.
  destruct (run_checks_loop_trace env (select_not_paused s) 0%nat s []
              (select_not_paused_ids s) Hfresh)
    as (s' & results & added & Hrun & Hhb & Hids & Hframe & Hexact).
  destruct (run_checks_loop_keys env (select_not_paused s) 0%nat s [] Hfresh)
    as (s2 & results2 & Hrun2 & Hkeys).
  rewrite Hrun in Hrun2. injection Hrun2 as _ <-.
  assert (Hiff : forall monitor_id,
             In monitor_id (keys results) <->
             exists m, In m (monitors s) /\ Monitor.id m = monitor_id
                       /\ Monitor.status m <> "paused").
  { intros monitor_id. rewrite Hkeys, <- select_not_paused_In.
    simpl. tauto. }
  exists s', results, added.
  split; [exact Hrun|]. split; [exact Hiff|]. split; [exact Hhb|].
  split; [exact Hids|].
  intros Hnd.
  assert (Hchecked : forall monitor_id m,
            find_monitor (monitors s) monitor_id = Some m ->
            Monitor.status m <> "paused" ->
            exists k m',
              nth_error (select_not_paused s) k = Some monitor_id /\
              find_monitor (monitors s') monitor_id = Some m' /\
              m' = checked m (env k) /\
              Monitor.status m' = outcome m (env k) /\
              Monitor.last_check m' = Some (now (env k)) /\
              dict_get results monitor_id
              = Some (outcome m (env k) =s? "up") /\
              nth_error added k
              = Some (Heartbeat.mk monitor_id (now (env k))
                        (outcome m (env k))
                        (res_response_time_ms (probe m (env k))))).
  { intros monitor_id m Hfind Hst.
    assert (Hsel : In monitor_id (select_not_paused s)).
    { apply select_not_paused_In. exists m.
      split; [now apply (find_monitor_In _ monitor_id)|].
      split; [now apply (find_monitor_id _ _ _ Hfind) | exact Hst]. }
    apply In_nth_error in Hsel. destruct Hsel as [k Hk].
    destruct (Hexact (NoDup_map_filter _ _ _ Hnd) k monitor_id m Hk Hfind)
      as (Hrow & Hget & Hbeat).
    exists k, (checked m (env k)).
    split; [exact Hk|]. split; [exact Hrow|].
    repeat (split; [reflexivity|]). split; [exact Hget | exact Hbeat]. }
  split; [exact Hchecked|]. split.
  - intros monitor_id m Hfind Hst.
    destruct (Hchecked monitor_id m Hfind) as (k & m' & Hk & Hrow & _ & Hout & _).
    { rewrite Hst. discriminate. }
    exists m'. split; [exact Hrow|]. split.
    + rewrite Hout. destruct (outcome_domain m (env k)) as [E|[E|E]];
        rewrite E; discriminate.
    + apply Hiff. exists m.
      split; [now apply (find_monitor_In _ monitor_id)|].
      split; [now apply (find_monitor_id _ _ _ Hfind)|].
      rewrite Hst. discriminate.
  - intros monitor_id m Hfind Hst.
    pose proof (paused_not_selected _ _ _ Hnd Hfind Hst) as Hnot.
    destruct (Hframe monitor_id Hnot) as [Hf Hd].
    split; [now rewrite Hf|]. split; [exact Hd|]. now rewrite Hids.
Qed.

Lemma run_all_checks_skips_only_paused_witness :
  fresh_supply db_mixed
    (map (fun k => uuid8 (env_200 k))
         (seq 0 (List.length (select_not_paused db_mixed)))) = true /\
  NoDup (map Monitor.id (monitors db_mixed)) /\
  exists s' results m',
    run_all_checks db_mixed env_200 = (s', Ok results) /\
    In "x1" (keys results) /\ ~ In "p1" (keys results) /\
    map Heartbeat.monitor_id (heartbeats s') = ["x1"; "u1"] /\
    find_monitor (monitors s') "x1" = Some m' /\
    Monitor.status m' <> "maintenance" /\
    find_monitor (monitors s') "p1" = find_monitor (monitors db_mixed) "p1".
Proof.
  assert (Hnd : NoDup (map Monitor.id (monitors db_mixed))).
  { simpl. repeat constructor; simpl; intuition discriminate. }
  split; [reflexivity|]. split; [exact Hnd|].
  destruct (run_all_checks_skips_only_paused db_mixed env_200 eq_refl)
    as (s' & results & added & Hrun & Hiff & Hhb & Hids & Hrows).
  destruct (Hrows Hnd) as (_ & Hmaint & Hpaused).
  destruct (Hmaint "x1" _ eq_refl eq_refl) as (m' & Hrow & Hst & Hkey).
  destruct (Hpaused "p1" _ eq_refl eq_refl) as (Hp & Hnokey & _).
  exists s', results, m'. split; [exact Hrun|]. split; [exact Hkey|].
  split.
  { intros Hin. apply dict_get_keys in Hin. destruct Hin as [v Hv].
    congruence. }
  split; [rewrite Hhb, map_app, Hids; reflexivity|].
  split; [exact Hrow|]. split; [exact Hst | exact Hp].
Defined.
